(** * Register protocol engine of the drone parcel cabinet

    A shallow embedding of the host-side register protocol:
    - [config.py]: the register map and the operation codes;
    - [modbus_client.py]: the retrying register client and its polling wait;
    - [base_controller.py]: the controller-level retry and wait helpers;
    - [door_controller.py]: the door open/close handshakes;
    - [drone_storage_controller.py], [user_send_controller.py]: code
      splitting and the storage state machine;
    - [services/machine_manager.py]: connection bookkeeping and locking.

    Conventions.  Time is counted in milliseconds on an integer clock, so
    [time.sleep(0.5)] is [sleep 500] and a timeout of [t] seconds is
    [1000 * t].  The device behind the TCP transport is an arbitrary
    deterministic environment ([PLC]): it decides, for the k-th request put
    on the wire, what comes back and how long it takes.  Every function
    threads a [World] holding the clock, the number of requests sent so far
    and a trace (newest event first) of wire requests, sleeps and calls. *)

From Stdlib Require Import ZArith List String Lia Bool QArith.
From stdpp Require Import base option list gmap strings.

Local Open Scope string_scope.
Local Open Scope list_scope.
Local Open Scope Z_scope.

(* ------------------------------------------------------------------ *)
(** ** config.py                                                       *)
(* ------------------------------------------------------------------ *)

Definition REGISTER_MAP : gmap string Z :=
  list_to_map
    [ ("DOOR_CONTROL", 0xBB8); ("LANDING_PAD_STATUS", 0xBB9);
      ("DRONE_PACKAGE_OP", 0xBBA); ("DRONE_SERVO", 0xBBB);
      ("DRONE_STORE_POS", 0xBBC); ("DRONE_PICKUP_POS", 0xBBD);
      ("STORAGE_STATUS", 0xBBE); ("PICKUP_STORAGE_STATUS", 0xBBF);
      ("SERVO_STATUS", 0xBC0); ("PICKUP_CODE_FRONT", 0xBC1);
      ("PICKUP_CODE_REAR", 0xBC2); ("PICKUP_POSITION", 0xBC3);
      ("USER_PICKUP_OP", 0xBC4); ("USER_RECYCLE_OP", 0xBC5);
      ("USER_CONFIRM_RECYCLE", 0xBC6); ("SEND_EMPTY_BOX_POS", 0xBC7);
      ("USER_SEND_OP", 0xBC8); ("SEND_BOX_POS", 0xBCA);
      ("SEND_BOX_WEIGHT", 0xBCB); ("SYSTEM_CONTROL", 0xBCC);
      ("SYSTEM_STATUS", 0xBCD); ("SYSTEM_ALARM", 0xBCE);
      ("FAULT_CLEAR", 0xBCF); ("SEND_CODE_FRONT", 0xBD0);
      ("SEND_CODE_REAR", 0xBD1); ("SEND_STORAGE_STATUS", 0xBD2);
      ("WEATHER_HUMIDITY", 0x8FC); ("WEATHER_TEMPERATURE", 0x8FE);
      ("WEATHER_WIND_FORCE", 0x900); ("WEATHER_RAINFALL", 0x902);
      ("WEATHER_WIND_SPEED", 0x904); ("WEATHER_WIND_DIRECTION", 0x906);
      ("WEATHER_PRESSURE", 0x908); ("ALARM_START", 0xBFE) ].

Definition OPERATION_CODES : gmap string Z :=
  list_to_map
    [ ("DOOR_OPEN", 10); ("DOOR_CLOSE", 20);
      ("DOOR_OPEN_COMPLETE", 11); ("DOOR_CLOSE_COMPLETE", 21);
      ("DRONE_PRESENT", 10); ("DRONE_ABSENT", 20);
      ("DRONE_PRESENT_CONFIRM", 11); ("DRONE_ABSENT_CONFIRM", 21);
      ("STORE_PACKAGE", 110); ("STORE_COMPLETE", 111);
      ("PICKUP_IN_PROGRESS", 120); ("PICKUP_COMPLETE", 121);
      ("NO_PICKUP_COMPLETE", 122);
      ("SERVO_OPEN", 10); ("SERVO_CLOSE", 20);
      ("SERVO_OPEN_CONFIRM", 11); ("SERVO_CLOSE_CONFIRM", 21);
      ("SERVO_CAN_OPEN", 1); ("SERVO_CAN_CLOSE", 2);
      ("STORAGE_FULL", 10); ("STORAGE_AVAILABLE", 20);
      ("USER_PICKUP", 210); ("USER_PICKUP_COMPLETE", 211);
      ("USER_RECYCLE", 210); ("USER_RECYCLE_COMPLETE", 211);
      ("USER_SEND_EMPTY_BOX", 210); ("USER_SEND_COMPLETE", 211);
      ("USER_SEND_BOX_OPEN", 220);
      ("AUTO_MODE_ON", 10); ("PAUSE_MODE_ON", 20);
      ("EMERGENCY_STOP_ON", 30); ("AUTO_MODE_OFF", 11);
      ("PAUSE_MODE_OFF", 21); ("EMERGENCY_STOP_OFF", 31);
      ("AUTO_STATUS", 12); ("PAUSE_STATUS", 22); ("EMERGENCY_STATUS", 32);
      ("FAULT_CLEAR_CMD", 10); ("FAULT_CLEAR_COMPLETE", 11) ].

Definition POSITION_CODES : gmap string Z :=
  list_to_map
    [ ("POSITION_1", 101); ("POSITION_2", 102); ("POSITION_3", 103);
      ("POSITION_4", 104); ("POSITION_5", 105); ("POSITION_6", 106) ].

(** [PLC_CONFIG['retry_count']], the default of [ModbusClient.__init__]. *)
Definition PLC_CONFIG_retry_count : Z := 3.

(* ------------------------------------------------------------------ *)
(** ** The environment, the world and the effect monad                 *)
(* ------------------------------------------------------------------ *)

(** What one pymodbus request can come back with. *)
Inductive response (A : Type) : Type :=
| Reply (a : A)      (* a result with [isError()] false *)
| ErrorReply         (* a result with [isError()] true  *)
| Throws.            (* the request raised [ModbusException] *)
Arguments Reply {A} a.
Arguments ErrorReply {A}.
Arguments Throws {A}.

Record PLC : Type := mkPLC {
  on_read  : nat -> Z -> response Z;          (* k-th request, address *)
  on_write : nat -> Z -> Z -> response unit;  (* k-th request, address, value *)
  latency  : nat -> nat                       (* ms taken by the k-th request *)
}.

(** Entries of the call trace. *)
Inductive call : Type :=
| ReadByName (name : string)
| WriteByName (name : string) (value : Z)
| WaitValue (name : string) (expected : Z) (timeout : Z)
| OpenDoor
| CloseDoor
| ConfirmLanding
| ConfirmTakeoff
| ControlServo (action : string).

Inductive event : Type :=
| TxRead (addr : Z) (r : response Z)           (* a read request on the wire *)
| TxWrite (addr value : Z) (r : response unit) (* a write request on the wire *)
| Slept (ms : Z)
| Called (c : call).

Record World : Type := mkWorld {
  now   : Z;           (* wall clock, ms *)
  reqs  : nat;         (* requests put on the wire so far *)
  trace : list event   (* newest first *)
}.

Inductive exn : Type := NameError | ValueError.

Inductive outcome (A : Type) : Type :=
| Val (a : A)
| Raise (e : exn)
| Spin.              (* a [while] loop still running when its fuel ran out *)
Arguments Val {A} a.
Arguments Raise {A} e.
Arguments Spin {A}.

Definition M (A : Type) : Type := World -> outcome A * World.

Definition ret {A} (a : A) : M A := fun w => (Val a, w).

Definition bind {A B} (m : M A) (f : A -> M B) : M B :=
  fun w => match m w with
           | (Val a, w') => f a w'
           | (Raise e, w') => (Raise e, w')
           | (Spin, w') => (Spin, w')
           end.

Definition raise {A} (e : exn) : M A := fun w => (Raise e, w).

(** [try: body / except Exception: handler]. *)
Definition try_except {A} (body : M A) (handler : exn -> M A) : M A :=
  fun w => match body w with
           | (Raise e, w') => handler e w'
           | r => r
           end.

Declare Scope py_scope.
Delimit Scope py_scope with py.
Notation "x <- m ;; k" := (bind m (fun x => k))
  (at level 100, m at next level, right associativity) : py_scope.
Notation "m ;;; k" := (bind m (fun _ => k))
  (at level 100, right associativity) : py_scope.
Local Open Scope py_scope.

Definition push (e : event) : M unit :=
  fun w => (Val tt, mkWorld (now w) (reqs w) (e :: trace w)).

Definition called (c : call) : M unit := push (Called c).

(** [time.time()], in ms. *)
Definition time_time : M Z := fun w => (Val (now w), w).

(** [time.sleep(ms / 1000)]; a negative length is a [ValueError]. *)
Definition sleep (ms : Z) : M unit :=
  fun w =>
    if ms <? 0 then (Raise ValueError, w)
    else (Val tt, mkWorld (now w + ms) (reqs w) (Slept ms :: trace w)).

Section Machine.

Variable plc : PLC.

(** [self.client.read_holding_registers(address=..., count=1, ...)]. *)
Definition tx_read (address : Z) : M (response Z) :=
  fun w =>
    let r := on_read plc (reqs w) address in
    (Val r, mkWorld (now w + Z.of_nat (latency plc (reqs w)))
                    (S (reqs w)) (TxRead address r :: trace w)).

(** [self.client.write_register(address=..., value=..., ...)]. *)
Definition tx_write (address value : Z) : M (response unit) :=
  fun w =>
    let r := on_write plc (reqs w) address value in
    (Val r, mkWorld (now w + Z.of_nat (latency plc (reqs w)))
                    (S (reqs w)) (TxWrite address value r :: trace w)).

(* ------------------------------------------------------------------ *)
(** ** modbus_client.py                                                *)
(* ------------------------------------------------------------------ *)

Record ModbusClient : Type := mkClient {
  is_connected : bool;
  retry_count  : Z
}.

(** The body of [for attempt in range(self.retry_count)] of
    [read_holding_register], from iteration [attempt] on, [n] iterations
    left. *)
Fixpoint read_attempts (self : ModbusClient) (address : Z)
    (n : nat) (attempt : Z) : M (option Z) :=
  match n with
  | O => ret None
  | S n' =>
      r <- tx_read address ;;
      match r with
      | Reply value => ret (Some value)
      | ErrorReply => read_attempts self address n' (attempt + 1)
      | Throws =>
          (if attempt <? retry_count self - 1 then sleep 100 else ret tt) ;;;
          read_attempts self address n' (attempt + 1)
      end
  end.

Definition read_holding_register (self : ModbusClient) (address : Z)
    : M (option Z) :=
  if negb (is_connected self) then ret None
  else read_attempts self address (Z.to_nat (retry_count self)) 0.

Fixpoint write_attempts (self : ModbusClient) (address value : Z)
    (n : nat) (attempt : Z) : M bool :=
  match n with
  | O => ret false
  | S n' =>
      r <- tx_write address value ;;
      match r with
      | Reply _ => ret true
      | ErrorReply => write_attempts self address value n' (attempt + 1)
      | Throws =>
          (if attempt <? retry_count self - 1 then sleep 100 else ret tt) ;;;
          write_attempts self address value n' (attempt + 1)
      end
  end.

Definition write_holding_register (self : ModbusClient) (address value : Z)
    : M bool :=
  if negb (is_connected self) then ret false
  else write_attempts self address value (Z.to_nat (retry_count self)) 0.

Definition read_register_by_name (self : ModbusClient) (register_name : string)
    : M (option Z) :=
  called (ReadByName register_name) ;;;
  match REGISTER_MAP !! register_name with
  | None => ret None
  | Some address => read_holding_register self address
  end.

Definition write_register_by_name (self : ModbusClient)
    (register_name : string) (value : Z) : M bool :=
  called (WriteByName register_name value) ;;;
  match REGISTER_MAP !! register_name with
  | None => ret false
  | Some address => write_holding_register self address value
  end.

(** [current_value == expected_value] on an [Optional[int]]. *)
Definition opt_eqb (o : option Z) (v : Z) : bool :=
  match o with Some x => x =? v | None => false end.

(** The [while] loop of [wait_for_register_value]; [timeout] in seconds. *)
Fixpoint wait_value_loop (self : ModbusClient) (register_name : string)
    (expected_value : Z) (timeout : Z) (start_time : Z) (fuel : nat) : M bool :=
  match fuel with
  | O => fun w => (Spin, w)
  | S fuel' =>
      t <- time_time ;;
      if t - start_time <? 1000 * timeout then
        current_value <- read_register_by_name self register_name ;;
        if opt_eqb current_value expected_value then ret true
        else sleep 500 ;;;
             wait_value_loop self register_name expected_value timeout
               start_time fuel'
      else ret false
  end.

(** Iterations granted to the loop: one per millisecond of the timeout and
    one more for the final test (see [wait_value_loop_fuel]). *)
Definition wait_fuel (timeout : Z) : nat := S (Z.to_nat (1000 * timeout)).

Definition wait_for_register_value (self : ModbusClient)
    (register_name : string) (expected_value : Z) (timeout : Z) : M bool :=
  called (WaitValue register_name expected_value timeout) ;;;
  start_time <- time_time ;;
  wait_value_loop self register_name expected_value timeout start_time
    (wait_fuel timeout).

Definition SYSTEM_STATUS_address : Z := default 0 (REGISTER_MAP !! "SYSTEM_STATUS").

Definition check_connection (self : ModbusClient) : M bool :=
  if negb (is_connected self) then ret false
  else
    r <- tx_read SYSTEM_STATUS_address ;;
    match r with
    | Reply _ => ret true
    | ErrorReply => ret false
    | Throws => ret false
    end.


(* ------------------------------------------------------------------ *)
(** ** base_controller.py                                              *)
(* ------------------------------------------------------------------ *)

(** [base_controller.py] imports the shared client object as
    [modbus_client]; the functions below receive it as [mc]. *)

Fixpoint read_retry_loop (mc : ModbusClient) (register_name : string)
    (max_retries : Z) (n : nat) (attempt : Z) : M (option Z) :=
  match n with
  | O => ret None
  | S n' =>
      value <- try_except (read_register_by_name mc register_name)
                          (fun _ => ret None) ;;
      match value with
      | Some v => ret (Some v)
      | None =>
          (if attempt <? max_retries - 1 then sleep 500 else ret tt) ;;;
          read_retry_loop mc register_name max_retries n' (attempt + 1)
      end
  end.

Definition read_register_with_retry (mc : ModbusClient)
    (register_name : string) (max_retries : Z) : M (option Z) :=
  read_retry_loop mc register_name max_retries (Z.to_nat max_retries) 0.

(** [current_value in expected_values]. *)
Definition py_in (v : Z) (l : list Z) : bool := existsb (Z.eqb v) l.

(** The [while] loop of [wait_for_status_change]; [timeout] in seconds,
    [check_interval] in ms. *)
Fixpoint wait_status_loop (mc : ModbusClient) (register_name : string)
    (expected_values : list Z) (timeout check_interval : Z)
    (start_time : Z) (fuel : nat) : M (option Z) :=
  match fuel with
  | O => fun w => (Spin, w)
  | S fuel' =>
      t <- time_time ;;
      if t - start_time <? 1000 * timeout then
        current_value <- read_register_with_retry mc register_name 1 ;;
        match current_value with
        | Some v =>
            if py_in v expected_values then ret (Some v)
            else sleep check_interval ;;;
                 wait_status_loop mc register_name expected_values timeout
                   check_interval start_time fuel'
        | None =>
            sleep check_interval ;;;
            wait_status_loop mc register_name expected_values timeout
              check_interval start_time fuel'
        end
      else ret None
  end.

Definition wait_for_status_change (mc : ModbusClient) (register_name : string)
    (expected_values : list Z) (timeout check_interval : Z) (fuel : nat)
    : M (option Z) :=
  start_time <- time_time ;;
  wait_status_loop mc register_name expected_values timeout check_interval
    start_time fuel.

(* ------------------------------------------------------------------ *)
(** ** door_controller.py                                              *)
(* ------------------------------------------------------------------ *)

Definition OP (name : string) : Z := default 0 (OPERATION_CODES !! name).
Arguments OP : simpl never.

(** [open_door] / [close_door] with [active_client] already resolved
    ([client] if given, else the module's [modbus_client]). *)
Definition open_door (active_client : ModbusClient) (timeout : Z) : M bool :=
  called OpenDoor ;;;
  ok <- check_connection active_client ;;
  if negb ok then ret false
  else
    try_except
      (written <- write_register_by_name active_client "DOOR_CONTROL"
                    (OP "DOOR_OPEN") ;;
       if negb written then ret false
       else
         done <- wait_for_register_value active_client "DOOR_CONTROL"
                   (OP "DOOR_OPEN_COMPLETE") timeout ;;
         if done then ret true else ret false)
      (fun _ => ret false).

Definition close_door (active_client : ModbusClient) (timeout : Z) : M bool :=
  called CloseDoor ;;;
  ok <- check_connection active_client ;;
  if negb ok then ret false
  else
    try_except
      (written <- write_register_by_name active_client "DOOR_CONTROL"
                    (OP "DOOR_CLOSE") ;;
       if negb written then ret false
       else
         done <- wait_for_register_value active_client "DOOR_CONTROL"
                   (OP "DOOR_CLOSE_COMPLETE") timeout ;;
         if done then ret true else ret false)
      (fun _ => ret false).


(* ------------------------------------------------------------------ *)
(** ** Python strings                                                  *)
(* ------------------------------------------------------------------ *)

(** A [str] is a sequence of Unicode code points. *)
Definition pystr : Type := list Z.

Definition of_string (s : string) : pystr :=
  map (fun a => Z.of_N (Ascii.N_of_ascii a)) (list_ascii_of_string s).

(** What [str.isdigit] and [int] consult in the Unicode character
    database: the value of a decimal digit (category Nd), and the
    characters that are digits without being decimal (superscripts,
    circled digits and the like). *)
Record UCD : Type := mkUCD {
  decimal_value : Z -> option Z;
  digit_not_decimal : Z -> bool
}.

(** The database agrees with ASCII on '0'..'9'. *)
Definition ucd_ascii (u : UCD) : Prop :=
  forall c, 48 <= c <= 57 -> decimal_value u c = Some (c - 48).

Definition char_isdigit (u : UCD) (c : Z) : bool :=
  match decimal_value u c with
  | Some _ => true
  | None => digit_not_decimal u c
  end.

(** [s.isdigit()]: every character is a digit and there is at least one. *)
Definition isdigit (u : UCD) (s : pystr) : bool :=
  match s with
  | [] => false
  | _ => forallb (char_isdigit u) s
  end.

(** [int(s)] for a string made of [isdigit] characters only (so no sign,
    blank or underscore): the decimal value, or [ValueError] when the
    string is empty or holds a digit that is not decimal. *)
Fixpoint int_digits (u : UCD) (acc : Z) (s : pystr) : option Z :=
  match s with
  | [] => Some acc
  | c :: s' =>
      match decimal_value u c with
      | Some d => int_digits u (10 * acc + d) s'
      | None => None
      end
  end.

Definition py_int (u : UCD) (s : pystr) : M Z :=
  match s with
  | [] => raise ValueError
  | _ => match int_digits u 0 s with
         | Some n => ret n
         | None => raise ValueError
         end
  end.

(** ['%03d' % n], for [0 <= n <= 999]. *)
Definition three_digits (n : Z) : pystr :=
  [48 + n / 100; 48 + (n / 10) mod 10; 48 + n mod 10].

Definition ascii_digit (c : Z) : Prop := 48 <= c <= 57.

(* ------------------------------------------------------------------ *)
(** ** drone_storage_controller.py, user_send_controller.py            *)
(* ------------------------------------------------------------------ *)

(** Both modules use the name [modbus_client] freely, and neither
    imports nor defines it (their imports are [time], [typing],
    [loguru.logger], [BaseController], [door_controller] and the [config]
    tables).  The binding of that name in the module's namespace is the
    parameter [g] of every function below: [None] is the module as it
    stands, where evaluating the name raises [NameError]; [Some c] is the
    module with the name bound to the client object [c], as
    [base_controller.py] and [door_controller.py] have it. *)
Definition lookup_modbus_client (g : option ModbusClient) : M ModbusClient :=
  match g with
  | Some c => ret c
  | None => raise NameError
  end.

Variable ucd : UCD.

(** The common body of [set_pickup_code] and [set_send_code]. *)
Definition set_code (g : option ModbusClient)
    (front_register rear_register : string) (code : pystr) : M bool :=
  if negb (length code =? 6)%nat || negb (isdigit ucd code) then ret false
  else
    try_except
      (front_three <- py_int ucd (take 3 code) ;;
       rear_three <- py_int ucd (drop 3 code) ;;
       mc <- lookup_modbus_client g ;;
       ok_front <- write_register_by_name mc front_register front_three ;;
       if negb ok_front then ret false
       else
         mc <- lookup_modbus_client g ;;
         ok_rear <- write_register_by_name mc rear_register rear_three ;;
         if negb ok_rear then ret false
         else ret true)
      (fun _ => ret false).

(** [DroneStorageController.set_pickup_code]. *)
Definition set_pickup_code (g : option ModbusClient) (pickup_code : pystr)
    : M bool :=
  set_code g "PICKUP_CODE_FRONT" "PICKUP_CODE_REAR" pickup_code.

(** [UserSendController.set_send_code]. *)
Definition set_send_code (g : option ModbusClient) (send_code : pystr)
    : M bool :=
  set_code g "SEND_CODE_FRONT" "SEND_CODE_REAR" send_code.

(** [check_storage_capacity]: [Some true] room, [Some false] full, [None]
    check failed.  It reads through [self.read_register_with_retry], that
    is through [base_controller]'s client [mc]. *)
Definition check_storage_capacity (mc : ModbusClient) : M (option bool) :=
  try_except
    (status <- read_register_with_retry mc "STORAGE_STATUS" 3 ;;
     match status with
     | None => ret None
     | Some st =>
         if st =? OP "STORAGE_FULL" then ret (Some false)
         else if st =? OP "STORAGE_AVAILABLE" then ret (Some true)
         else ret None
     end)
    (fun _ => ret None).

Definition confirm_drone_landing (g : option ModbusClient) (timeout : Z)
    : M bool :=
  called ConfirmLanding ;;;
  try_except
    (mc <- lookup_modbus_client g ;;
     written <- write_register_by_name mc "LANDING_PAD_STATUS"
                  (OP "DRONE_PRESENT") ;;
     if negb written then ret false
     else
       mc <- lookup_modbus_client g ;;
       confirmed <- wait_for_register_value mc "LANDING_PAD_STATUS"
                      (OP "DRONE_PRESENT_CONFIRM") timeout ;;
       if confirmed then ret true else ret false)
    (fun _ => ret false).

Definition confirm_drone_takeoff (g : option ModbusClient) (timeout : Z)
    : M bool :=
  called ConfirmTakeoff ;;;
  try_except
    (mc <- lookup_modbus_client g ;;
     written <- write_register_by_name mc "LANDING_PAD_STATUS"
                  (OP "DRONE_ABSENT") ;;
     if negb written then ret false
     else
       mc <- lookup_modbus_client g ;;
       confirmed <- wait_for_register_value mc "LANDING_PAD_STATUS"
                      (OP "DRONE_ABSENT_CONFIRM") timeout ;;
       if confirmed then ret true else ret false)
    (fun _ => ret false).

Definition start_storage_operation (g : option ModbusClient) : M bool :=
  try_except
    (mc <- lookup_modbus_client g ;;
     written <- write_register_by_name mc "DRONE_PACKAGE_OP"
                  (OP "STORE_PACKAGE") ;;
     if negb written then ret false else ret true)
    (fun _ => ret false).

(** The three steps of one direction of [control_servo]: wait for the
    permission code, write the command, wait for the confirmation. *)
Definition servo_handshake (g : option ModbusClient)
    (can cmd confirm : string) (timeout : Z) : M bool :=
  mc <- lookup_modbus_client g ;;
  allowed <- wait_for_register_value mc "DRONE_SERVO" (OP can) timeout ;;
  if negb allowed then ret false
  else
    mc <- lookup_modbus_client g ;;
    written <- write_register_by_name mc "DRONE_SERVO" (OP cmd) ;;
    if negb written then ret false
    else
      mc <- lookup_modbus_client g ;;
      confirmed <- wait_for_register_value mc "DRONE_SERVO" (OP confirm)
                     timeout ;;
      if confirmed then ret true else ret false.

Definition control_servo (g : option ModbusClient) (action : string)
    (timeout : Z) : M bool :=
  called (ControlServo action) ;;;
  if negb (String.eqb action "open" || String.eqb action "close")
  then ret false
  else
    try_except
      (if String.eqb action "open"
       then servo_handshake g "SERVO_CAN_OPEN" "SERVO_OPEN"
              "SERVO_OPEN_CONFIRM" timeout
       else servo_handshake g "SERVO_CAN_CLOSE" "SERVO_CLOSE"
              "SERVO_CLOSE_CONFIRM" timeout)
      (fun _ => ret false).

Definition POS (name : string) : Z := default 0 (POSITION_CODES !! name).

(** [position_map.get(position_code)]. *)
Definition position_map_get (position_code : Z) : option Z :=
  if position_code =? POS "POSITION_1" then Some 1
  else if position_code =? POS "POSITION_2" then Some 2
  else if position_code =? POS "POSITION_3" then Some 3
  else None.

Definition get_storage_position (g : option ModbusClient) : M (option Z) :=
  try_except
    (mc <- lookup_modbus_client g ;;
     position_code <- read_register_by_name mc "DRONE_STORE_POS" ;;
     match position_code with
     | None => ret None
     | Some pc => ret (position_map_get pc)
     end)
    (fun _ => ret None).

(** Steps 8 to 10 of [execute_storage_process], which follow the
    [if / elif / else] on the package status. *)
Definition storage_finish (mc : ModbusClient) (g : option ModbusClient)
    : M (bool * option Z) :=
  took_off <- confirm_drone_takeoff g 60 ;;
  if negb took_off then ret (false, None)
  else
    closed <- close_door mc 30 ;;
    if negb closed then ret (false, None)
    else
      storage_position <- get_storage_position g ;;
      ret (true, storage_position).

(** Step 7 from the read of [package_status] on. *)
Definition storage_branch (mc : ModbusClient) (g : option ModbusClient)
    (package_status : option Z) : M (bool * option Z) :=
  if opt_eqb package_status (OP "PICKUP_IN_PROGRESS") then
    closed <- control_servo g "close" 30 ;;
    if negb closed then ret (false, None)
    else
      c <- lookup_modbus_client g ;;
      complete <- wait_for_register_value c "DRONE_PACKAGE_OP"
                    (OP "PICKUP_COMPLETE") 60 ;;
      if negb complete then ret (false, None)
      else storage_finish mc g
  else if opt_eqb package_status (OP "NO_PICKUP_COMPLETE") then
    closed <- control_servo g "close" 30 ;;
    if negb closed then ret (false, None)
    else storage_finish mc g
  else storage_finish mc g.

(** The recovery of the outer [except Exception]. *)
Definition storage_recover (mc : ModbusClient) (g : option ModbusClient)
    : M (bool * option Z) :=
  try_except (confirm_drone_takeoff g 60 ;;; close_door mc 30 ;;; ret tt)
             (fun _ => ret tt) ;;;
  ret (false, None).

(** Steps 1 to 6 of [execute_storage_process] with the rollback each of
    them runs when it fails: [true] when the servo is open and the run
    goes on to step 7, [false] where the source returns [(False, None)]. *)
Definition storage_prepare (mc : ModbusClient) (g : option ModbusClient)
    (pickup_code : pystr) : M bool :=
  capacity <- check_storage_capacity mc ;;
  if negb (default false capacity) then ret false
  else
    opened <- open_door mc 30 ;;
    if negb opened then ret false
    else
      landed <- confirm_drone_landing g 60 ;;
      if negb landed then close_door mc 30 ;;; ret false
      else
        started <- start_storage_operation g ;;
        if negb started then
          confirm_drone_takeoff g 60 ;;; close_door mc 30 ;;; ret false
        else
          code_set <- set_pickup_code g pickup_code ;;
          if negb code_set then
            confirm_drone_takeoff g 60 ;;; close_door mc 30 ;;; ret false
          else
            servo_open <- control_servo g "open" 30 ;;
            if negb servo_open then
              confirm_drone_takeoff g 60 ;;; close_door mc 30 ;;; ret false
            else ret true.

(** The read of step 7: [time.sleep(2)], then
    [modbus_client.read_register_by_name(self.package_op_register)]. *)
Definition read_package_status (g : option ModbusClient) : M (option Z) :=
  sleep 2000 ;;;
  c <- lookup_modbus_client g ;;
  read_register_by_name c "DRONE_PACKAGE_OP".

(** [execute_storage_process]; [mc] is the client of [base_controller]
    and [door_controller], [g] the binding of [modbus_client] in the
    controller's own module. *)
Definition execute_storage_process (mc : ModbusClient)
    (g : option ModbusClient) (pickup_code : pystr) : M (bool * option Z) :=
  try_except
    (ready <- storage_prepare mc g pickup_code ;;
     if negb ready then ret (false, None)
     else
       package_status <- read_package_status g ;;
       storage_branch mc g package_status)
    (fun _ => storage_recover mc g).

(* ------------------------------------------------------------------ *)
(** ** user_send_controller.py                                         *)
(* ------------------------------------------------------------------ *)

(** [check_send_capacity]; the source compares with the literals 10 and
    11. *)
Definition check_send_capacity (mc : ModbusClient) : M (option bool) :=
  try_except
    (status <- read_register_with_retry mc "SEND_STORAGE_STATUS" 3 ;;
     match status with
     | None => ret None
     | Some st =>
         if st =? 10 then ret (Some true)
         else if st =? 11 then ret (Some false)
         else ret None
     end)
    (fun _ => ret None).

(** The [while ... else] loops of the send flow, which poll USER_SEND_OP
    once a second until it reads [code]: [true] is the [break], [false]
    the [else] of the loop.  [timeout] in seconds. *)
Fixpoint send_op_loop (g : option ModbusClient) (code : Z)
    (timeout : Z) (start_time : Z) (fuel : nat) : M bool :=
  match fuel with
  | O => fun w => (Spin, w)
  | S fuel' =>
      t <- time_time ;;
      if t - start_time <? 1000 * timeout then
        mc <- lookup_modbus_client g ;;
        send_status <- read_register_by_name mc "USER_SEND_OP" ;;
        if opt_eqb send_status code then ret true
        else sleep 1000 ;;;
             send_op_loop g code timeout start_time fuel'
      else ret false
  end.

Definition await_send_op (g : option ModbusClient) (code : Z) (timeout : Z)
    : M bool :=
  start_time <- time_time ;;
  send_op_loop g code timeout start_time (wait_fuel timeout).

(** [position_map.get(position_code)] of the two send positions. *)
Definition send_position_map_get (position_code : Z) : option Z :=
  if position_code =? POS "POSITION_4" then Some 4
  else if position_code =? POS "POSITION_5" then Some 5
  else if position_code =? POS "POSITION_6" then Some 6
  else None.

(** The common body of [get_empty_box_position] and
    [get_send_box_position]. *)
Definition get_box_position (g : option ModbusClient) (register : string)
    : M (option Z) :=
  try_except
    (mc <- lookup_modbus_client g ;;
     position_code <- read_register_by_name mc register ;;
     match position_code with
     | None => ret None
     | Some pc => ret (send_position_map_get pc)
     end)
    (fun _ => ret None).

Definition get_empty_box_position (g : option ModbusClient) : M (option Z) :=
  get_box_position g "SEND_EMPTY_BOX_POS".

Definition get_send_box_position (g : option ModbusClient) : M (option Z) :=
  get_box_position g "SEND_BOX_POS".

(** The float [float(grams) / 1000.0], kept as the integer it is computed
    from; [Milli 0] is [0.0]. *)
Inductive pyfloat : Type := Milli (grams : Z).

Definition get_package_weight (g : option ModbusClient) : M (option pyfloat) :=
  try_except
    (mc <- lookup_modbus_client g ;;
     weight <- read_register_by_name mc "SEND_BOX_WEIGHT" ;;
     match weight with
     | None => ret None
     | Some wt => ret (Some (if 0 <? wt then Milli wt else Milli 0))
     end)
    (fun _ => ret None).

(** [start_empty_box_pickup]; the code is only logged. *)
Definition start_empty_box_pickup (g : option ModbusClient) (timeout : Z)
    : M (bool * option Z) :=
  try_except
    (started <- await_send_op g (OP "USER_SEND_EMPTY_BOX") timeout ;;
     if negb started then ret (false, None)
     else
       empty_box_position <- get_empty_box_position g ;;
       match empty_box_position with
       | None => ret (false, None)
       | Some _ =>
           mc <- lookup_modbus_client g ;;
           complete <- wait_for_register_value mc "USER_SEND_OP"
                         (OP "USER_SEND_COMPLETE") timeout ;;
           if complete then ret (true, empty_box_position)
           else ret (false, empty_box_position)
       end)
    (fun _ => ret (false, None)).

Definition start_send_box_storage (g : option ModbusClient) (timeout : Z)
    : M (bool * option Z * option pyfloat) :=
  try_except
    (opened <- await_send_op g (OP "USER_SEND_BOX_OPEN") timeout ;;
     if negb opened then ret (false, None, None)
     else
       confirmed <- await_send_op g (OP "USER_SEND_EMPTY_BOX") timeout ;;
       if negb confirmed then ret (false, None, None)
       else
         mc <- lookup_modbus_client g ;;
         complete <- wait_for_register_value mc "USER_SEND_OP"
                       (OP "USER_SEND_COMPLETE") 60 ;;
         if complete then
           storage_position <- get_send_box_position g ;;
           package_weight <- get_package_weight g ;;
           ret (true, storage_position, package_weight)
         else ret (false, None, None))
    (fun _ => ret (false, None, None)).

(** The [send_info] dict. *)
Record send_info : Type := mkSendInfo {
  info_send_code      : pystr;
  empty_box_position  : option Z;
  storage_position    : option Z;
  package_weight      : option pyfloat;
  timestamp           : Z
}.

(** [execute_complete_send_process].  The dict is updated in place, so
    the [except] clause returns it as it is when the exception arrives:
    the handler is given once for the steps before the first update and
    once for those after it. *)
Definition execute_complete_send_process (mc : ModbusClient)
    (g : option ModbusClient) (send_code : pystr) : M (bool * send_info) :=
  created <- time_time ;;
  let info0 := mkSendInfo send_code None None None created in
  try_except
    (capacity <- check_send_capacity mc ;;
     if negb (default false capacity) then ret (false, info0)
     else
       code_set <- set_send_code g send_code ;;
       if negb code_set then ret (false, info0)
       else
         picked <- start_empty_box_pickup g 120 ;;
         if negb (fst picked) then ret (false, info0)
         else
           let info1 := mkSendInfo send_code (snd picked) None None created in
           try_except
             (stored <- start_send_box_storage g 300 ;;
              if negb (fst (fst stored)) then ret (false, info1)
              else ret (true, mkSendInfo send_code (snd picked)
                                (snd (fst stored)) (snd stored) created))
             (fun _ => ret (false, info1)))
    (fun _ => ret (false, info0)).

(** [cancel_send_process]: the three resets are attempted one after the
    other, whatever the earlier ones returned. *)
Definition cancel_send_process (g : option ModbusClient) : M bool :=
  try_except
    (let success := true in
     mc <- lookup_modbus_client g ;;
     ok_op <- write_register_by_name mc "USER_SEND_OP" 0 ;;
     let success := if negb ok_op then false else success in
     mc <- lookup_modbus_client g ;;
     ok_front <- write_register_by_name mc "SEND_CODE_FRONT" 0 ;;
     let success := if negb ok_front then false else success in
     mc <- lookup_modbus_client g ;;
     ok_rear <- write_register_by_name mc "SEND_CODE_REAR" 0 ;;
     let success := if negb ok_rear then false else success in
     ret success)
    (fun _ => ret false).

End Machine.

(* Keep [simpl] from running the protocol functions or the tables. *)
Arguments read_holding_register : simpl never.
Arguments write_holding_register : simpl never.
Arguments read_register_by_name : simpl never.
Arguments write_register_by_name : simpl never.
Arguments wait_for_register_value : simpl never.
Arguments wait_fuel : simpl never.
Arguments check_connection : simpl never.
Arguments read_register_with_retry : simpl never.
Arguments open_door : simpl never.
Arguments close_door : simpl never.
Arguments confirm_drone_landing : simpl never.
Arguments confirm_drone_takeoff : simpl never.
Arguments start_storage_operation : simpl never.
Arguments control_servo : simpl never.
Arguments get_storage_position : simpl never.
Arguments set_code : simpl never.
Arguments storage_finish : simpl never.
Arguments storage_branch : simpl never.
Arguments storage_recover : simpl never.
Arguments read_package_status : simpl never.
Arguments check_send_capacity : simpl never.
Arguments await_send_op : simpl never.
Arguments get_box_position : simpl never.
Arguments get_package_weight : simpl never.
Arguments start_empty_box_pickup : simpl never.
Arguments start_send_box_storage : simpl never.

(* ------------------------------------------------------------------ *)
(** ** Concrete environments                                           *)
(* ------------------------------------------------------------------ *)

(** A device that answers the k-th request with the k-th entry of a
    script when that request is a read, accepts every write, and answers
    at once; past the script every read is an error reply. *)
Definition script_plc (script : list Z) : PLC :=
  mkPLC (fun k _ => match script !! k with
                     | Some v => Reply v
                     | None => ErrorReply
                     end)
        (fun _ _ _ => Reply tt)
        (fun _ => 0%nat).

(** A device on which every request is an error reply. *)
Definition dead_plc : PLC :=
  mkPLC (fun _ _ => ErrorReply) (fun _ _ _ => ErrorReply) (fun _ => 0%nat).

(** An excerpt of the Unicode character database: the decimal digits of
    ASCII (U+0030..), Arabic-Indic (U+0660..) and fullwidth (U+FF10..),
    and the superscripts U+00B2, U+00B3, U+00B9, which are digits but not
    decimal. *)
Definition ucd_excerpt : UCD :=
  mkUCD (fun c => if (48 <=? c) && (c <=? 57) then Some (c - 48)
                  else if (0x660 <=? c) && (c <=? 0x669) then Some (c - 0x660)
                  else if (0xFF10 <=? c) && (c <=? 0xFF19) then Some (c - 0xFF10)
                  else None)
        (fun c => (c =? 0xB2) || (c =? 0xB3) || (c =? 0xB9)).

Definition world0 : World := mkWorld 0 0 [].

(** A complete send run: the replies to requests 0 (send storage status),
    3 (empty box being taken), 4 (empty box position), 5 (taken), 6 (send
    box open), 7 (being stored), 8 (stored), 9 (send box position) and 10
    (weight in grams); requests 1 and 2 write the two halves of the
    code. *)
Definition send_script : list Z :=
  [10; 0; 0; 210; 104; 211; 220; 210; 211; 105; 1500].

(** A run in which storage has room, the door opens and, later, closes:
    the replies to requests 0 (storage status), 1 (connection check), 3
    (door open complete), 4 (connection check) and 6 (door close
    complete); requests 2 and 5 are writes. *)
Definition door_only_script : list Z := [20; 0; 0; 11; 0; 0; 21].

(** A complete run in which the package-operation register reads 0 at the
    branch (request 12): storage status, door open, landing, store
    command, code halves, servo open, branch read, takeoff, door close,
    position. *)
Definition unknown_status_script : list Z :=
  [20; 0; 0; 11; 0; 11; 0; 0; 0; 1; 0; 11; 0; 0; 21; 0; 0; 21; 101].

(** The shared client as [modbus_client = ModbusClient()] leaves it once
    connected. *)
Definition client0 : ModbusClient := mkClient true PLC_CONFIG_retry_count.

(* ------------------------------------------------------------------ *)
(** ** Reading the trace                                               *)
(* ------------------------------------------------------------------ *)

(** Number of events of a trace that satisfy [p]. *)
Fixpoint count (p : event -> bool) (l : list event) : nat :=
  match l with
  | [] => 0
  | e :: l' => (if p e then 1 else 0) + count p l'
  end.

(** [frame Q m]: whatever [m] returns, it only adds events satisfying [Q]
    to the trace, and neither the clock nor the request counter goes
    back. *)
Definition frame {A} (Q : event -> Prop) (m : M A) : Prop :=
  forall w, exists new,
    trace (snd (m w)) = new ++ trace w /\ Forall Q new /\
    now w <= now (snd (m w)) /\ (reqs w <= reqs (snd (m w)))%nat.

(** [returns m]: [m] always comes back with a value; [halts m]: it comes
    back with a value or an exception (no loop outlives its fuel). *)
Definition returns {A} (m : M A) : Prop :=
  forall w, exists a w', m w = (Val a, w').

Definition halts {A} (m : M A) : Prop :=
  forall w, fst (m w) <> Spin.

(** [adds_le p n m]: a run of [m] adds at most [n] events satisfying [p]
    to the trace. *)
Definition adds_le {A} (p : event -> bool) (n : nat) (m : M A) : Prop :=
  forall w, (count p (trace (snd (m w))) <= count p (trace w) + n)%nat.

(** Requests on the wire. *)
Definition is_wire (e : event) : bool :=
  match e with
  | TxRead _ _ | TxWrite _ _ _ => true
  | _ => false
  end.

(** Write attempts: a write request on the wire or a call of
    [write_register_by_name]. *)
Definition is_write (e : event) : bool :=
  match e with
  | TxWrite _ _ _ | Called (WriteByName _ _) => true
  | _ => false
  end.

(** Calls of [close_door]. *)
Definition is_close_door (e : event) : bool :=
  match e with
  | Called CloseDoor => true
  | _ => false
  end.

(** Calls of [write_register_by_name] that command the door to close. *)
Definition is_door_close_command (e : event) : bool :=
  match e with
  | Called (WriteByName name value) =>
      String.eqb name "DOOR_CONTROL" && (value =? OP "DOOR_CLOSE")
  | _ => false
  end.

(** Polls of register [name]: calls of [read_register_by_name]. *)
Definition is_poll (name : string) (e : event) : bool :=
  match e with
  | Called (ReadByName n) => String.eqb n name
  | _ => false
  end.

(** Number of polls of [name] recorded in the trace of [w]. *)
Definition polls (name : string) (w : World) : Z :=
  Z.of_nat (count (is_poll name) (trace w)).




(** The world right after [time.sleep(ms / 1000)] with [0 <= ms]. *)
Definition after_sleep (ms : Z) (w : World) : World :=
  mkWorld (now w + ms) (reqs w) (Slept ms :: trace w).

(* ------------------------------------------------------------------ *)
(** ** services/machine_manager.py: MachineConnection                  *)
(* ------------------------------------------------------------------ *)

Module Connection.

(** The bookkeeping attributes of a [MachineConnection].  The counters
    start at 0 and are only incremented or reset, hence naturals. *)
Record MachineConnection : Type := mkConnection {
  has_client       : bool;            (* [self.client is not None] *)
  last_used        : Z;
  connection_count : nat;
  error_count      : nat;
  last_error       : option string
}.

(** [MachineConnection.__init__] at time [t]. *)
Definition init (t : Z) : MachineConnection := mkConnection false t 0 0 None.

(** How the body of [get_client] can go: [self.client.connect()] answers
    [True] or [False], or something in the [try] block raises an
    exception whose text is [str(e)]. *)
Inductive attempt : Type :=
| Connected
| Refused
| Raised (text : string).

(** The text assigned by [self.last_error = ...] when the connect is
    refused. *)
Definition connect_failed_text : string := "连接失败".

(** [get_client] at time [t]: the new bookkeeping and whether a client is
    returned ([false] is [None]). *)
Definition get_client (t : Z) (a : attempt) (c : MachineConnection)
    : MachineConnection * bool :=
  match a with
  | Connected =>
      (mkConnection true t (S (connection_count c)) 0 (last_error c), true)
  | Refused =>
      (mkConnection true (last_used c) (connection_count c)
                    (S (error_count c)) (Some connect_failed_text), false)
  | Raised text =>
      (mkConnection (has_client c) (last_used c) (connection_count c)
                    (S (error_count c)) (Some text), false)
  end.

(** [self.error_count / (self.connection_count + self.error_count)]. *)
Definition error_rate (c : MachineConnection) : Q :=
  (inject_Z (Z.of_nat (error_count c))
   / inject_Z (Z.of_nat (connection_count c + error_count c)))%Q.

Definition Qltb (x y : Q) : bool := negb (Qle_bool y x).

Definition is_healthy (c : MachineConnection) : bool :=
  if (0 <? connection_count c)%nat then Qltb (error_rate c) (1 # 2)
  else (error_count c <? 5)%nat.

End Connection.

(* ------------------------------------------------------------------ *)
(** ** services/machine_manager.py: locks and interleaving             *)
(* ------------------------------------------------------------------ *)

Module Interleaving.

Inductive lock : Type :=
| ManagerLock                      (* [MachineManager._connection_lock] *)
| ClientLock (machine : string).   (* [MachineConnection._lock] *)

Inductive action : Type :=
| Acquire (l : lock)
| Release (l : lock)
| Connect (machine : string)            (* [self.client.connect()] *)
| Access (machine : string) (n : nat).  (* n-th register access of the caller *)

(** [get_machine_client(machine)]: the manager's lock is taken, inside it
    [connection.get_client()] takes the connection's lock around the
    connect, and both are released before the client is returned. *)
Definition get_machine_client (machine : string) : list action :=
  [ Acquire ManagerLock; Acquire (ClientLock machine); Connect machine;
    Release (ClientLock machine); Release ManagerLock ].

(** An operation on a cabinet: obtain the client, then use it for [k]
    register accesses; no lock is held while the client is used. *)
Definition operation (machine : string) (k : nat) : list action :=
  get_machine_client machine ++ map (Access machine) (seq 0 k).

Record thread : Type := mkThread {
  machine  : string;
  accesses : nat;
  pc       : nat      (* actions of [operation machine accesses] done *)
}.

Definition next (t : thread) : option action :=
  operation (machine t) (accesses t) !! pc t.

Definition advance (t : thread) : thread :=
  mkThread (machine t) (accesses t) (S (pc t)).

Record state : Type := mkState {
  threads      : list thread;
  manager_lock : option nat;          (* the thread holding it *)
  client_locks : gmap string nat;     (* holders of the connection locks *)
  log          : list (nat * action)  (* newest first *)
}.

Definition spawn (jobs : list (string * nat)) : state :=
  mkState (map (fun j => mkThread (fst j) (snd j) 0) jobs) None ∅ [].

Definition commit (tid : nat) (t : thread) (a : action)
    (m : option nat) (c : gmap string nat) (s : state) : state :=
  mkState (<[tid := advance t]> (threads s)) m c ((tid, a) :: log s).

(** One scheduling decision: thread [tid] runs its next action if it can;
    a thread that is finished, or blocked on a lock, leaves the state as
    it is. *)
Definition step (tid : nat) (s : state) : state :=
  match threads s !! tid with
  | None => s
  | Some t =>
      match next t with
      | None => s
      | Some (Acquire ManagerLock) =>
          match manager_lock s with
          | None => commit tid t (Acquire ManagerLock) (Some tid)
                      (client_locks s) s
          | Some _ => s
          end
      | Some (Acquire (ClientLock m)) =>
          match client_locks s !! m with
          | None => commit tid t (Acquire (ClientLock m)) (manager_lock s)
                      (<[m := tid]> (client_locks s)) s
          | Some _ => s
          end
      | Some (Release ManagerLock) =>
          commit tid t (Release ManagerLock) None (client_locks s) s
      | Some (Release (ClientLock m)) =>
          commit tid t (Release (ClientLock m)) (manager_lock s)
            (delete m (client_locks s)) s
      | Some a => commit tid t a (manager_lock s) (client_locks s) s
      end
  end.

Definition run (schedule : list nat) (s : state) : state :=
  fold_left (fun s tid => step tid s) schedule s.

(** Inside [with self._connection_lock] of [get_machine_client]. *)
Definition acquiring (t : thread) : bool :=
  (1 <=? pc t)%nat && (pc t <=? 4)%nat.

(** The register accesses of cabinet [m] in the order they happened, each
    with the thread that made it. *)
Fixpoint access_order (m : string) (l : list (nat * action)) : list nat :=
  match l with
  | [] => []
  | (tid, Access m' _) :: l' =>
      if String.eqb m' m then access_order m l' ++ [tid] else access_order m l'
  | _ :: l' => access_order m l'
  end.

(** A sequence of thread ids in which no thread comes back after another
    one has appeared: the accesses of each thread form one block. *)
Fixpoint serial (seen : list nat) (l : list nat) : bool :=
  match l with
  | [] => true
  | tid :: l' =>
      match seen with
      | [] => serial [tid] l'
      | cur :: _ =>
          if (tid =? cur)%nat then serial seen l'
          else if existsb (Nat.eqb tid) seen then false
          else serial (tid :: seen) l'
      end
  end.

Definition serialized (m : string) (s : state) : bool :=
  serial [] (access_order m (log s)).

(** Number of accesses the thread [tid] has in an order of accesses. *)
Definition accesses_of (tid : nat) (order : list nat) : nat :=
  count_occ Nat.eq_dec order tid.

End Interleaving.

(* ------------------------------------------------------------------ *)
(** ** Further reading of the wire                                     *)
(* ------------------------------------------------------------------ *)

(** The k-th request, a write of [v] to [a], is not accepted. *)
Definition write_fails (plc : PLC) (a v : Z) (k : nat) : Prop :=
  on_write plc k a v <> Reply tt.

(** Sleeps of the polling interval of [wait_for_register_value]. *)
Definition is_poll_sleep (e : event) : bool :=
  match e with
  | Slept ms => ms =? 500
  | _ => false
  end.

(** Write requests on the wire to an address other than [a], or with a
    value other than [v]. *)
Definition is_other_write (a v : Z) (e : event) : bool :=
  match e with
  | TxWrite a' v' _ => negb ((a' =? a) && (v' =? v))
  | _ => false
  end.

(** Write requests on the wire to an address other than [a]. *)
Definition is_write_outside (a : Z) (e : event) : bool :=
  match e with
  | TxWrite a' _ _ => negb (a' =? a)
  | _ => false
  end.

(** Calls of [confirm_drone_takeoff]. *)
Definition is_takeoff (e : event) : bool :=
  match e with
  | Called ConfirmTakeoff => true
  | _ => false
  end.

(** A device like [script_plc] whose writes are accepted only on the
    requests before the [bad]-th; from then on every write is an error
    reply. *)
Definition flaky_plc (script : list Z) (bad : nat) : PLC :=
  mkPLC (fun k _ => match script !! k with
                     | Some v => Reply v
                     | None => ErrorReply
                     end)
        (fun k _ _ => if (k <? bad)%nat then Reply tt else ErrorReply)
        (fun _ => 0%nat).

(** Storage has room, the door opens, the drone lands (requests 0 to 5);
    nothing is answered afterwards. *)
Definition landed_script : list Z := [20; 0; 0; 11; 0; 11].

(** Steps 1 to 6 succeed and the package-operation register reads 122 at
    the branch (request 12); nothing is answered afterwards. *)
Definition no_pickup_script : list Z :=
  [20; 0; 0; 11; 0; 11; 0; 0; 0; 1; 0; 11; 122].

(* ------------------------------------------------------------------ *)
(** ** services/machine_manager.py: sequences of connects, the manager *)
(* ------------------------------------------------------------------ *)

Module Manager.
Import Connection.

(** Successive calls of [get_client], each at its time and with its
    outcome; the bookkeeping after the last one. *)
Definition get_client_all (calls : list (Z * attempt)) (c : MachineConnection)
    : MachineConnection :=
  fold_left (fun c call => fst (get_client (fst call) (snd call) c)) calls c.

Definition is_success (a : attempt) : bool :=
  match a with Connected => true | _ => false end.

(** Number of successful connects among the calls. *)
Fixpoint successes (calls : list (Z * attempt)) : nat :=
  match calls with
  | [] => 0
  | call :: rest => (if is_success (snd call) then 1 else 0) + successes rest
  end.

(** Length of the run of failures that ends the calls, given that [n]
    failures in a row precede them. *)
Fixpoint failure_streak (n : nat) (calls : list (Z * attempt)) : nat :=
  match calls with
  | [] => n
  | call :: rest =>
      if is_success (snd call) then failure_streak 0 rest
      else failure_streak (S n) rest
  end.

(** [MachineConnection.disconnect]: the client is dropped (also when
    closing it raises); nothing else changes. *)
Definition disconnect (c : MachineConnection) : MachineConnection :=
  mkConnection false (last_used c) (connection_count c) (error_count c)
               (last_error c).

(** The manager: its connections and the time of the last sweep; times in
    milliseconds. *)
Record MachineManager : Type := mkManager {
  connections  : gmap string MachineConnection;
  last_cleanup : Z
}.

(** [self._cleanup_interval = 300] seconds. *)
Definition cleanup_interval : Z := 300000.

(** Idle threshold of the sweep: 600 seconds. *)
Definition idle_threshold : Z := 600000.

Definition sweep (current_time : Z) (c : MachineConnection) : MachineConnection :=
  if idle_threshold <? current_time - last_used c then disconnect c else c.

(** [_cleanup_idle_connections] at [current_time]. *)
Definition cleanup_idle_connections (current_time : Z) (m : MachineManager)
    : MachineManager :=
  if current_time - last_cleanup m <? cleanup_interval then m
  else mkManager (sweep current_time <$> connections m) current_time.

(** [get_machine_client(machine_name)] at [current_time].  [available]
    is [config_manager.is_machine_available]; [a] is how the
    [connection.get_client()] goes if it is reached.  The result is the
    new manager and whether a client is returned. *)
Definition get_machine_client (available : string -> bool)
    (current_time : Z) (a : attempt) (machine_name : string)
    (m : MachineManager) : MachineManager * bool :=
  let m1 := cleanup_idle_connections current_time m in
  let created :=
    match connections m1 !! machine_name with
    | Some _ => Some (connections m1)
    | None =>
        if available machine_name
        then Some (<[machine_name := init current_time]> (connections m1))
        else None
    end in
  match created with
  | None => (m1, false)
  | Some conns =>
      match conns !! machine_name with
      | Some c =>
          let '(c', client) := get_client current_time a c in
          (mkManager (<[machine_name := c']> conns) (last_cleanup m1), client)
      | None => (mkManager conns (last_cleanup m1), false)
      end
  end.

End Manager.

(* ------------------------------------------------------------------ *)
(** ** What a run has seen on the wire                                 *)
(* ------------------------------------------------------------------ *)

(** A read request of register [a] that replied the value [v]. *)
Definition is_read_reply (a v : Z) (e : event) : bool :=
  match e with
  | TxRead a' (Reply v') => (a' =? a) && (v' =? v)
  | _ => false
  end.

(** A write request of [v] to register [a] that the device accepted. *)
Definition is_accepted_write (a v : Z) (e : event) : bool :=
  match e with
  | TxWrite a' v' (Reply _) => (a' =? a) && (v' =? v)
  | _ => false
  end.

(** The world in which the body of a traced function starts. *)
Definition entered (c : call) (w : World) : World :=
  mkWorld (now w) (reqs w) (Called c :: trace w).

(* ================================================================== *)
(** * Properties                                                       *)
(* ================================================================== *)

(** ** Counting and framing the trace *)


Lemma count_app p l1 l2 : count p (l1 ++ l2) = (count p l1 + count p l2)%nat.
Proof. induction l1 as [|e l1 IH]; simpl; [reflexivity|]. rewrite IH. lia. Qed.

Lemma count_none p l : Forall (fun e => p e = false) l -> count p l = 0%nat.
Proof. induction 1 as [|e l He _ IH]; simpl; [reflexivity|]. rewrite He, IH. reflexivity. Qed.


Section Frame.

Context {A B : Type} (Q : event -> Prop).

Lemma frame_ret (a : A) : frame Q (ret a).
Proof. intros w. exists []. simpl. repeat split; auto; lia. Qed.

Lemma frame_raise (e : exn) : frame Q (@raise A e).
Proof. intros w. exists []. simpl. repeat split; auto; lia. Qed.

Lemma frame_spin : frame Q (fun w => (@Spin A, w)).
Proof. intros w. exists []. simpl. repeat split; auto; lia. Qed.

Lemma frame_bind (m : M A) (f : A -> M B) :
  frame Q m -> (forall a, frame Q (f a)) -> frame Q (bind m f).
Proof.
  intros Hm Hf w. unfold bind. destruct (Hm w) as (n1 & E1 & F1 & T1 & R1).
  destruct (m w) as [[a|e|] w1]; simpl in *.
  - destruct (Hf a w1) as (n2 & E2 & F2 & T2 & R2).
    exists (n2 ++ n1). rewrite E2, E1, app_assoc.
    repeat split; [apply Forall_app; auto | lia | lia].
  - exists n1. auto.
  - exists n1. auto.
Qed.

Lemma frame_try (m : M A) (h : exn -> M A) :
  frame Q m -> (forall e, frame Q (h e)) -> frame Q (try_except m h).
Proof.
  intros Hm Hh w. unfold try_except. destruct (Hm w) as (n1 & E1 & F1 & T1 & R1).
  destruct (m w) as [[a|e|] w1]; simpl in *.
  - exists n1. auto.
  - destruct (Hh e w1) as (n2 & E2 & F2 & T2 & R2).
    exists (n2 ++ n1). rewrite E2, E1, app_assoc.
    repeat split; [apply Forall_app; auto | lia | lia].
  - exists n1. auto.
Qed.

End Frame.

Lemma frame_push (Q : event -> Prop) e : Q e -> frame Q (push e).
Proof. intros H w. exists [e]. simpl. repeat split; auto; lia. Qed.

Lemma frame_time Q : frame Q time_time.
Proof. intros w. exists []. simpl. repeat split; auto; lia. Qed.

Lemma frame_sleep (Q : event -> Prop) ms : Q (Slept ms) -> frame Q (sleep ms).
Proof.
  intros H w. unfold sleep. destruct (Z.ltb_spec ms 0); simpl.
  - exists []. repeat split; auto; lia.
  - exists [Slept ms]. simpl. repeat split; auto; lia.
Qed.

Lemma frame_tx_read plc (Q : event -> Prop) a :
  (forall r, Q (TxRead a r)) -> frame Q (tx_read plc a).
Proof. intros H w. exists [TxRead a (on_read plc (reqs w) a)]. simpl. repeat split; auto; lia. Qed.

Lemma frame_tx_write plc (Q : event -> Prop) a v :
  (forall r, Q (TxWrite a v r)) -> frame Q (tx_write plc a v).
Proof. intros H w. exists [TxWrite a v (on_write plc (reqs w) a v)]. simpl. repeat split; auto; lia. Qed.

Lemma frame_weaken {A} (Q Q' : event -> Prop) (m : M A) :
  (forall e, Q e -> Q' e) -> frame Q m -> frame Q' m.
Proof.
  intros HQ Hm w. destruct (Hm w) as (n & E & F & T & R). exists n.
  repeat split; auto. eapply Forall_impl; eauto.
Qed.

Ltac framing :=
  repeat first
    [ apply frame_ret | apply frame_raise | apply frame_spin | apply frame_time
    | apply frame_bind; [| intros ?]
    | apply frame_try; [| intros ?]
    | apply frame_push | apply frame_sleep
    | apply frame_tx_read; intros ? | apply frame_tx_write; intros ?
    | match goal with
      | |- frame _ (if ?b then _ else _) => destruct b
      | |- frame _ (match ?x with _ => _ end) => destruct x
      end ].

Section ClientFrames.

Variable plc : PLC.
Variable Q : event -> Prop.
Hypothesis Q_slept : forall ms, Q (Slept ms).

Lemma frame_read_attempts self a n attempt :
  (forall r, Q (TxRead a r)) -> frame Q (read_attempts plc self a n attempt).
Proof.
  intros H. revert attempt. induction n as [|n IH]; intros attempt; simpl.
  - apply frame_ret.
  - framing; auto.
Qed.

Lemma frame_read_holding_register self a :
  (forall r, Q (TxRead a r)) -> frame Q (read_holding_register plc self a).
Proof.
  intros H. unfold read_holding_register. destruct (negb _).
  - apply frame_ret.
  - apply frame_read_attempts; auto.
Qed.

Lemma frame_write_attempts self a v n attempt :
  (forall r, Q (TxWrite a v r)) -> frame Q (write_attempts plc self a v n attempt).
Proof.
  intros H. revert attempt. induction n as [|n IH]; intros attempt; simpl.
  - apply frame_ret.
  - framing; auto.
Qed.

Lemma frame_write_holding_register self a v :
  (forall r, Q (TxWrite a v r)) -> frame Q (write_holding_register plc self a v).
Proof.
  intros H. unfold write_holding_register. destruct (negb _).
  - apply frame_ret.
  - apply frame_write_attempts; auto.
Qed.

Lemma frame_read_register_by_name self name :
  Q (Called (ReadByName name)) ->
  (forall a r, REGISTER_MAP !! name = Some a -> Q (TxRead a r)) ->
  frame Q (read_register_by_name plc self name).
Proof.
  intros Hc Hr. unfold read_register_by_name, called.
  apply frame_bind; [apply frame_push; auto|]. intros _.
  destruct (REGISTER_MAP !! name) as [a|] eqn:E.
  - apply frame_read_holding_register. intros r. eapply Hr; eauto.
  - apply frame_ret.
Qed.

Lemma frame_write_register_by_name self name v :
  Q (Called (WriteByName name v)) ->
  (forall a r, REGISTER_MAP !! name = Some a -> Q (TxWrite a v r)) ->
  frame Q (write_register_by_name plc self name v).
Proof.
  intros Hc Hr. unfold write_register_by_name, called.
  apply frame_bind; [apply frame_push; auto|]. intros _.
  destruct (REGISTER_MAP !! name) as [a|] eqn:E.
  - apply frame_write_holding_register. intros r. eapply Hr; eauto.
  - apply frame_ret.
Qed.

Lemma frame_wait_value_loop self name expected timeout start fuel :
  Q (Called (ReadByName name)) ->
  (forall a r, REGISTER_MAP !! name = Some a -> Q (TxRead a r)) ->
  frame Q (wait_value_loop plc self name expected timeout start fuel).
Proof.
  intros Hc Hr. induction fuel as [|fuel IH]; simpl.
  - apply frame_spin.
  - apply frame_bind; [apply frame_time|]. intros t.
    destruct (_ <? _); [|apply frame_ret].
    apply frame_bind; [apply frame_read_register_by_name; auto|]. intros cur.
    destruct (opt_eqb _ _); [apply frame_ret|].
    apply frame_bind; [apply frame_sleep; auto|]. intros _. exact IH.
Qed.

Lemma frame_wait_for_register_value self name expected timeout :
  Q (Called (WaitValue name expected timeout)) ->
  Q (Called (ReadByName name)) ->
  (forall a r, REGISTER_MAP !! name = Some a -> Q (TxRead a r)) ->
  frame Q (wait_for_register_value plc self name expected timeout).
Proof.
  intros Hw Hc Hr. unfold wait_for_register_value, called.
  apply frame_bind; [apply frame_push; auto|]. intros _.
  apply frame_bind; [apply frame_time|]. intros t.
  apply frame_wait_value_loop; auto.
Qed.

Lemma frame_check_connection self :
  (forall r, Q (TxRead SYSTEM_STATUS_address r)) ->
  frame Q (check_connection plc self).
Proof. intros H. unfold check_connection. framing; auto. Qed.

Lemma frame_read_retry_loop mc name max_retries n attempt :
  Q (Called (ReadByName name)) ->
  (forall a r, REGISTER_MAP !! name = Some a -> Q (TxRead a r)) ->
  frame Q (read_retry_loop plc mc name max_retries n attempt).
Proof.
  intros Hc Hr. revert attempt. induction n as [|n IH]; intros attempt; simpl.
  - apply frame_ret.
  - apply frame_bind.
    + apply frame_try; [apply frame_read_register_by_name; auto|].
      intros _. apply frame_ret.
    + intros [v|]; [apply frame_ret|].
      apply frame_bind; [|intros _; apply IH].
      destruct (_ <? _); [apply frame_sleep|apply frame_ret]; auto.
Qed.

Lemma frame_read_register_with_retry mc name max_retries :
  Q (Called (ReadByName name)) ->
  (forall a r, REGISTER_MAP !! name = Some a -> Q (TxRead a r)) ->
  frame Q (read_register_with_retry plc mc name max_retries).
Proof. intros. apply frame_read_retry_loop; auto. Qed.

End ClientFrames.



(* ------------------------------------------------------------------ *)
(** ** Symbolic register names                                         *)
(* ------------------------------------------------------------------ *)

(** C10.  For a register name that is not a key of [REGISTER_MAP],
    [read_register_by_name] returns [None] and [write_register_by_name]
    returns [False]; the request counter and the clock stay as they were
    and the only event added to the trace is the call itself, so nothing
    is put on the wire and no register of the device changes. *)
Theorem unknown_register_name_rejected
    (plc : PLC) (self : ModbusClient) (name : string) (value : Z) (w : World) :
  REGISTER_MAP !! name = None ->
  read_register_by_name plc self name w
    = (Val None, mkWorld (now w) (reqs w) (Called (ReadByName name) :: trace w))
  /\ write_register_by_name plc self name value w
    = (Val false,
       mkWorld (now w) (reqs w) (Called (WriteByName name value) :: trace w)).
Proof.
  intros Hname.
  unfold read_register_by_name, write_register_by_name, called, push, bind.
  rewrite Hname. split; reflexivity.
Qed.

Lemma unknown_register_name_rejected_witness :
  REGISTER_MAP !! "NO_SUCH_REGISTER" = None
  /\ read_register_by_name dead_plc client0 "NO_SUCH_REGISTER" world0
     = (Val None, mkWorld 0 0 [Called (ReadByName "NO_SUCH_REGISTER")])
  /\ write_register_by_name dead_plc client0 "NO_SUCH_REGISTER" 7 world0
     = (Val false, mkWorld 0 0 [Called (WriteByName "NO_SUCH_REGISTER" 7)]).
Proof.
  split; [vm_compute; reflexivity|].
  apply (unknown_register_name_rejected dead_plc client0 "NO_SUCH_REGISTER" 7 world0).
  vm_compute; reflexivity.
Defined.

(* ------------------------------------------------------------------ *)
(** ** Bounded retry of a single read                                  *)
(* ------------------------------------------------------------------ *)

(** The k-th request, a read of [a], does not come back with a value. *)
Definition read_fails (plc : PLC) (a : Z) (k : nat) : Prop :=
  forall v, on_read plc k a <> Reply v.

Lemma read_fails_shift plc a k (P : nat -> Prop) :
  on_read plc k a = ErrorReply \/ on_read plc k a = Throws ->
  (forall i, P i -> read_fails plc a (S k + i)) ->
  forall i, (i = 0%nat \/ exists i', i = S i' /\ P i') ->
  read_fails plc a (k + i).
Proof.
  intros E H i [->|(i' & -> & Hi)].
  - intros v. rewrite Nat.add_0_r. destruct E as [E|E]; rewrite E; discriminate.
  - replace (k + S i')%nat with (S k + i')%nat by lia. auto.
Qed.

Lemma read_attempts_cons plc a (w1 : World) k n
    (r : option Z) (w' : World) (j : nat) :
  on_read plc k a = ErrorReply \/ on_read plc k a = Throws ->
  reqs w1 = S k ->
  (j <= n)%nat /\ reqs w' = (reqs w1 + j)%nat /\
  (forall i, (i + 1 < j)%nat -> read_fails plc a (reqs w1 + i)) /\
  match r with
  | Some v => (1 <= j)%nat /\ on_read plc (reqs w1 + j - 1) a = Reply v
  | None => j = n /\ forall i, (i < n)%nat -> read_fails plc a (reqs w1 + i)
  end ->
  (S j <= S n)%nat /\ reqs w' = (k + S j)%nat /\
  (forall i, (i + 1 < S j)%nat -> read_fails plc a (k + i)) /\
  match r with
  | Some v => (1 <= S j)%nat /\ on_read plc (k + S j - 1) a = Reply v
  | None => S j = S n /\ forall i, (i < S n)%nat -> read_fails plc a (k + i)
  end.
Proof.
  intros E Hk (Hj & Hreq & Hpre & Hres). rewrite Hk in *.
  split; [lia|]. split; [lia|]. split.
  - intros i Hi.
    apply (read_fails_shift plc a k (fun i' => (i' + 1 < j)%nat) E Hpre).
    destruct i as [|i']; [left; reflexivity | right; exists i'; split; [reflexivity|lia]].
  - destruct r as [v|].
    + destruct Hres as [H1 H2]. split; [lia|].
      replace (k + S j - 1)%nat with (S k + j - 1)%nat by lia. exact H2.
    + destruct Hres as [H1 H2]. split; [lia|]. intros i Hi.
      apply (read_fails_shift plc a k (fun i' => (i' < n)%nat) E H2).
      destruct i as [|i']; [left; reflexivity | right; exists i'; split; [reflexivity|lia]].
Qed.

Lemma read_attempts_spec plc self a n attempt w :
  exists r w' j,
    read_attempts plc self a n attempt w = (Val r, w') /\
    (j <= n)%nat /\ reqs w' = (reqs w + j)%nat /\
    (forall i, (i + 1 < j)%nat -> read_fails plc a (reqs w + i)) /\
    match r with
    | Some v => (1 <= j)%nat /\ on_read plc (reqs w + j - 1) a = Reply v
    | None => j = n /\ forall i, (i < n)%nat -> read_fails plc a (reqs w + i)
    end.
Proof.
  revert attempt w. induction n as [|n IH]; intros attempt w.
  - exists None, w, 0%nat. simpl.
    split; [reflexivity|]. split; [lia|]. split; [lia|].
    split; [intros; lia|]. split; [reflexivity | intros; lia].
  - simpl. unfold bind at 1. unfold tx_read at 1.
    set (w1 := mkWorld _ _ _).
    destruct (on_read plc (reqs w) a) as [v| |] eqn:E.
    + exists (Some v), w1, 1%nat. unfold ret. simpl.
      split; [reflexivity|]. split; [lia|]. split; [lia|].
      split; [intros; lia|]. split; [lia|].
      replace (reqs w + 1 - 1)%nat with (reqs w) by lia. exact E.
    + destruct (IH (attempt + 1) w1) as (r & w' & j & Hrun & Hrest).
      exists r, w', (S j). split; [exact Hrun|].
      eapply (read_attempts_cons plc a _ (reqs w)); [eauto | | exact Hrest]; try reflexivity; try exact Hr2.
    + set (m := if attempt <? retry_count self - 1 then sleep 100 else ret tt).
      assert (Hm : exists w2, m w1 = (Val tt, w2) /\ reqs w2 = reqs w1).
      { subst m. destruct (_ <? _); [|exists w1; split; reflexivity].
        unfold sleep. simpl. eexists; split; reflexivity. }
      destruct Hm as (w2 & Hm & Hr2). unfold bind. rewrite Hm.
      destruct (IH (attempt + 1) w2) as (r & w' & j & Hrun & Hrest).
      exists r, w', (S j). split; [exact Hrun|].
      eapply (read_attempts_cons plc a _ (reqs w)); [eauto | | exact Hrest]; try reflexivity; try exact Hr2.
Qed.

(** C7, as the code has it.  [read_holding_register] always returns.  It
    puts at most [retry_count] read requests on the wire.  When it returns
    a value, that value is the reply to its last request and every earlier
    request of the call failed: the first success ends the call.  When it
    returns [None], either the client is not connected and no request was
    made at all, or the client is connected and exactly [retry_count]
    requests were made and every one of them failed. *)
Theorem read_holding_register_retry
    (plc : PLC) (self : ModbusClient) (a : Z) (w : World) :
  exists r w' j,
    read_holding_register plc self a w = (Val r, w') /\
    reqs w' = (reqs w + j)%nat /\
    (j <= Z.to_nat (retry_count self))%nat /\
    (forall i, (i + 1 < j)%nat -> read_fails plc a (reqs w + i)) /\
    match r with
    | Some v => (1 <= j)%nat /\ on_read plc (reqs w + j - 1) a = Reply v
    | None =>
        (is_connected self = false /\ j = 0%nat)
        \/ (is_connected self = true /\ j = Z.to_nat (retry_count self) /\
            forall i, (i < j)%nat -> read_fails plc a (reqs w + i))
    end.
Proof.
  unfold read_holding_register. destruct (is_connected self) eqn:Hc; simpl.
  - destruct (read_attempts_spec plc self a (Z.to_nat (retry_count self)) 0 w)
      as (r & w' & j & Hrun & Hj & Hreq & Hpre & Hres).
    exists r, w', j. split; [exact Hrun|]. split; [exact Hreq|].
    split; [exact Hj|]. split; [exact Hpre|].
    destruct r as [v|]; [exact Hres|]. right. destruct Hres as [-> H].
    split; [reflexivity|]. split; [reflexivity|exact H].
  - exists None, w, 0%nat. unfold ret.
    split; [reflexivity|]. split; [lia|]. split; [lia|].
    split; [intros; lia|]. left. split; reflexivity.
Qed.

(** C7 as stated fails on a client that is not connected: with
    [retry_count = 3] the call signals failure although not a single
    attempt was made, let alone three failed ones. *)
Lemma read_holding_register_unconnected_no_attempt :
  read_holding_register dead_plc (mkClient false 3) 0xBB8 world0
    = (Val None, world0)
  /\ ~ (reqs world0 = reqs world0 + Z.to_nat 3)%nat.
Proof. split; [reflexivity | vm_compute; discriminate]. Qed.

(* ------------------------------------------------------------------ *)
(** ** Framing the controllers                                         *)
(* ------------------------------------------------------------------ *)

Lemma frame_count {A} (p : event -> bool) (m : M A) :
  frame (fun e => p e = false) m ->
  forall w, count p (trace (snd (m w))) = count p (trace w).
Proof.
  intros H w. destruct (H w) as (new & E & F & _ & _).
  rewrite E, count_app, (count_none p new F). reflexivity.
Qed.

(** A computation only adds to the trace, so no count goes down. *)
Lemma count_mono {A} (Q : event -> Prop) (p : event -> bool) (m : M A) w :
  frame Q m -> (count p (trace w) <= count p (trace (snd (m w))))%nat.
Proof.
  intros F. destruct (F w) as (new & E & _). rewrite E, count_app. lia.
Qed.

(** [adds_le p n m]: [m] adds at most [n] events satisfying [p]. *)
Lemma adds_le_frame {A} p (m : M A) :
  frame (fun e => p e = false) m -> adds_le p 0 m.
Proof. intros F w. rewrite (frame_count p m F w). lia. Qed.

Lemma adds_le_weaken {A} p a b (m : M A) :
  (a <= b)%nat -> adds_le p a m -> adds_le p b m.
Proof. intros Hab H w. specialize (H w). lia. Qed.

Lemma adds_le_push p e : adds_le p 1 (push e).
Proof. intros w. simpl. destruct (p e); lia. Qed.

Lemma adds_le_bind {A B} p a b (m : M A) (f : A -> M B) :
  adds_le p a m -> (forall x, adds_le p b (f x)) -> adds_le p (a + b) (bind m f).
Proof.
  intros Hm Hf w. unfold bind. specialize (Hm w).
  destruct (m w) as [[x|e|] w1]; simpl in *; [|lia|lia].
  specialize (Hf x w1). lia.
Qed.

Lemma adds_le_try {A} p a b (m : M A) (h : exn -> M A) :
  adds_le p a m -> (forall e, adds_le p b (h e)) ->
  adds_le p (a + b) (try_except m h).
Proof.
  intros Hm Hh w. unfold try_except. specialize (Hm w).
  destruct (m w) as [[x|e|] w1]; simpl in *; [lia| |lia].
  specialize (Hh e w1). lia.
Qed.

Lemma frame_lookup_modbus_client Q g : frame Q (lookup_modbus_client g).
Proof. destruct g; [apply frame_ret | apply frame_raise]. Qed.

(** Side conditions of the framing lemmas at a concrete event test. *)
Ltac frame_side :=
  first
    [ reflexivity
    | intros; reflexivity
    | intros ? ? ?H; vm_compute in H; inversion H; subst; reflexivity
    | vm_compute; reflexivity
    | intros; vm_compute; reflexivity ].

Ltac frame_step :=
  lazymatch goal with
  | |- frame _ (ret _) => apply frame_ret
  | |- frame _ (raise _) => apply frame_raise
  | |- frame _ time_time => apply frame_time
  | |- frame _ (lookup_modbus_client _) => apply frame_lookup_modbus_client
  | |- frame _ (push _) => apply frame_push
  | |- frame _ (called _) => apply frame_push
  | |- frame _ (sleep _) => apply frame_sleep
  | |- frame _ (check_connection _ _) => apply frame_check_connection
  | |- frame _ (wait_for_register_value _ _ _ _ _) =>
      apply frame_wait_for_register_value
  | |- frame _ (read_register_with_retry _ _ _ _) =>
      apply frame_read_register_with_retry
  | |- frame _ (read_register_by_name _ _ _) =>
      apply frame_read_register_by_name
  | |- frame _ (write_register_by_name _ _ _ _) =>
      apply frame_write_register_by_name
  | |- frame _ (try_except _ _) => apply frame_try; [| intros ?]
  | |- frame _ (bind _ _) => apply frame_bind; [| intros ?]
  | |- frame _ (if ?b then _ else _) => destruct b
  | |- frame _ (match ?x with _ => _ end) => destruct x
  end.

Ltac frame_tac := repeat frame_step; try frame_side.

Section ControllerFrames.

Variable plc : PLC.
Variable ucd : UCD.
Variables (mc : ModbusClient) (g : option ModbusClient).

Lemma frame_check_storage_capacity_close :
  frame (fun e => is_close_door e = false) (check_storage_capacity plc mc).
Proof. unfold check_storage_capacity. frame_tac. Qed.

Lemma frame_check_storage_capacity_command :
  frame (fun e => is_door_close_command e = false) (check_storage_capacity plc mc).
Proof. unfold check_storage_capacity. frame_tac. Qed.

End ControllerFrames.

(* ------------------------------------------------------------------ *)
(** ** The polling wait of the client                                  *)
(* ------------------------------------------------------------------ *)

Section ClientWait.

Variable plc : PLC.
Variable self : ModbusClient.

Lemma read_attempts_some a n attempt w v w' :
  read_attempts plc self a n attempt w = (Val (Some v), w') ->
  exists rest k, trace w' = TxRead a (Reply v) :: rest /\ on_read plc k a = Reply v.
Proof.
  revert attempt w. induction n as [|n IH]; intros attempt w; simpl.
  - unfold ret. intros H. inversion H.
  - unfold bind at 1. unfold tx_read at 1.
    destruct (on_read plc (reqs w) a) as [v0| |] eqn:E.
    + unfold ret. intros H. inversion H; subst. eauto.
    + apply IH.
    + unfold bind.
      destruct (attempt <? retry_count self - 1); simpl; apply IH.
Qed.

(** One call of [read_register_by_name]: it returns, time does not go
    back, it counts as one poll of [name], and a value it returns is the
    reply to the request it made last. *)
Lemma read_register_by_name_spec name w :
  exists r w1,
    read_register_by_name plc self name w = (Val r, w1) /\
    now w <= now w1 /\
    count (is_poll name) (trace w1) = S (count (is_poll name) (trace w)) /\
    forall v, r = Some v ->
      exists a rest k, REGISTER_MAP !! name = Some a /\
        trace w1 = TxRead a (Reply v) :: rest /\ on_read plc k a = Reply v.
Proof.
  unfold read_register_by_name, called. unfold bind at 1. unfold push at 1.
  set (w0 := mkWorld _ _ _).
  assert (Hc0 : count (is_poll name) (trace w0) = S (count (is_poll name) (trace w))).
  { subst w0. simpl. rewrite String.eqb_refl. reflexivity. }
  destruct (REGISTER_MAP !! name) as [a|] eqn:Ea.
  - unfold read_holding_register. destruct (negb (is_connected self)).
    + exists None, w0. unfold ret. split; [reflexivity|]. split; [simpl; lia|].
      split; [exact Hc0|]. discriminate.
    + destruct (read_attempts_spec plc self a (Z.to_nat (retry_count self)) 0 w0)
        as (r & w1 & j & Hrun & _).
      exists r, w1. split; [exact Hrun|].
      assert (F : frame (fun e => is_poll name e = false)
                    (read_attempts plc self a (Z.to_nat (retry_count self)) 0)).
      { apply frame_read_attempts; intros; reflexivity. }
      pose proof (frame_count _ _ F w0) as Hcount.
      destruct (F w0) as (_ & _ & _ & Hnow & _).
      rewrite Hrun in Hcount, Hnow. simpl in Hcount, Hnow.
      split; [subst w0; simpl in Hnow; lia|].
      split; [rewrite Hcount; exact Hc0|].
      intros v ->. destruct (read_attempts_some _ _ _ _ _ _ Hrun) as (rest & k & Ht & Hk).
      exists a, rest, k. auto.
  - exists None, w0. unfold ret. split; [reflexivity|]. split; [simpl; lia|].
    split; [exact Hc0|]. discriminate.
Qed.

Lemma opt_eqb_true o v : opt_eqb o v = true -> o = Some v.
Proof.
  destruct o as [x|]; simpl; [|discriminate].
  intros H. apply Z.eqb_eq in H. congruence.
Qed.

(** The loop of [wait_for_register_value] entered at world [w] with more
    fuel than milliseconds left before the deadline. *)
Lemma wait_value_loop_spec name expected timeout start fuel : forall w,
  (Z.to_nat (1000 * timeout - (now w - start)) < fuel)%nat ->
  exists b w',
    wait_value_loop plc self name expected timeout start fuel w = (Val b, w') /\
    (b = false -> 1000 * timeout <= now w' - start) /\
    (b = true ->
       exists a rest k, REGISTER_MAP !! name = Some a /\
         trace w' = TxRead a (Reply expected) :: rest /\
         on_read plc k a = Reply expected) /\
    500 * (Z.of_nat (count (is_poll name) (trace w'))
           - Z.of_nat (count (is_poll name) (trace w)))
      <= Z.max 0 (1000 * timeout - (now w - start) + 499).
Proof.
  induction fuel as [|fuel IH]; intros w Hfuel; [lia|].
  simpl. unfold bind at 1. unfold time_time at 1.
  destruct (Z.ltb_spec (now w - start) (1000 * timeout)) as [Hlt|Hge].
  - destruct (read_register_by_name_spec name w) as (r & w1 & Hrun & Hnow & Hcnt & Hval).
    unfold bind at 1. rewrite Hrun.
    destruct (opt_eqb r expected) eqn:Heq.
    + exists true, w1. unfold ret. split; [reflexivity|].
      split; [discriminate|]. split.
      * intros _. apply opt_eqb_true in Heq. apply Hval. exact Heq.
      * rewrite Hcnt. lia.
    + unfold bind at 1. unfold sleep at 1. simpl.
      set (w2 := mkWorld _ _ _).
      assert (Hnow2 : now w2 = now w1 + 500) by reflexivity.
      assert (Hcnt2 : count (is_poll name) (trace w2) = count (is_poll name) (trace w1))
        by reflexivity.
      destruct (IH w2) as (b & w' & Hloop & Hdead & Hmatch & Hpolls); [lia|].
      exists b, w'. split; [exact Hloop|]. split; [exact Hdead|].
      split; [exact Hmatch|]. rewrite Hcnt2, Hcnt in Hpolls. lia.
  - exists false, w. unfold ret. split; [reflexivity|]. split; [intros _; lia|].
    split; [discriminate|]. lia.
Qed.

(** [wait_for_register_value] always returns; [False] comes no earlier
    than the deadline, [True] only right after a read that replied the
    expected value, and between entry and exit the register is polled at
    most once per started half second of the timeout. *)
Lemma wait_for_register_value_spec name expected timeout w :
  exists b w',
    wait_for_register_value plc self name expected timeout w = (Val b, w') /\
    (b = false -> now w + 1000 * timeout <= now w') /\
    (b = true ->
       exists a rest k, REGISTER_MAP !! name = Some a /\
         trace w' = TxRead a (Reply expected) :: rest /\
         on_read plc k a = Reply expected) /\
    500 * (Z.of_nat (count (is_poll name) (trace w'))
           - Z.of_nat (count (is_poll name) (trace w)))
      <= Z.max 0 (1000 * timeout + 499).
Proof.
  unfold wait_for_register_value, called. unfold bind at 1. unfold push at 1.
  set (w0 := mkWorld _ _ _). unfold bind at 1. unfold time_time at 1.
  destruct (wait_value_loop_spec name expected timeout (now w0) (wait_fuel timeout) w0)
    as (b & w' & Hloop & Hdead & Hmatch & Hpolls).
  { unfold wait_fuel. lia. }
  exists b, w'. split; [exact Hloop|]. subst w0. simpl in *.
  split; [intros Hb; specialize (Hdead Hb); lia|].
  split; [exact Hmatch|].
  replace (1000 * timeout - (now w - now w) + 499) with (1000 * timeout + 499) in Hpolls by lia.
  exact Hpolls.
Qed.

End ClientWait.

(* ------------------------------------------------------------------ *)
(** ** The polling wait of the base controller                         *)
(* ------------------------------------------------------------------ *)

Section ControllerWait.

Variable plc : PLC.
Variable mc : ModbusClient.

(** With [max_retries=1] the retrying read is a single
    [read_register_by_name]. *)
Lemma read_register_with_retry_once name w :
  read_register_with_retry plc mc name 1 w = read_register_by_name plc mc name w.
Proof.
  unfold read_register_with_retry. simpl. unfold bind at 1. unfold try_except.
  destruct (read_register_by_name_spec plc mc name w) as (r & w1 & Hrun & _).
  rewrite Hrun. destruct r as [v|]; reflexivity.
Qed.

(** The loop of [wait_for_status_change] with a positive interval,
    entered with more fuel than milliseconds left before the deadline. *)
Lemma wait_status_loop_spec name expected timeout interval start fuel :
  0 < interval -> forall w,
  (Z.to_nat (1000 * timeout - (now w - start)) < fuel)%nat ->
  exists res w',
    wait_status_loop plc mc name expected timeout interval start fuel w
      = (Val res, w') /\
    (res = None -> 1000 * timeout <= now w' - start) /\
    (forall v, res = Some v ->
       py_in v expected = true /\
       exists a rest k, REGISTER_MAP !! name = Some a /\
         trace w' = TxRead a (Reply v) :: rest /\ on_read plc k a = Reply v) /\
    interval * (Z.of_nat (count (is_poll name) (trace w'))
                - Z.of_nat (count (is_poll name) (trace w)))
      <= Z.max 0 (1000 * timeout - (now w - start) + interval - 1).
Proof.
  intros Hint. induction fuel as [|fuel IH]; intros w Hfuel; [lia|].
  simpl. unfold bind at 1. unfold time_time at 1.
  destruct (Z.ltb_spec (now w - start) (1000 * timeout)) as [Hlt|Hge].
  - unfold bind at 1. rewrite read_register_with_retry_once.
    destruct (read_register_by_name_spec plc mc name w)
      as (r & w1 & Hrun & Hnow & Hcnt & Hval).
    rewrite Hrun.
    assert (Hsleep : sleep interval w1
                     = (Val tt, mkWorld (now w1 + interval) (reqs w1)
                                        (Slept interval :: trace w1))).
    { unfold sleep. destruct (Z.ltb_spec interval 0); [lia|reflexivity]. }
    set (w2 := mkWorld (now w1 + interval) (reqs w1) (Slept interval :: trace w1)) in *.
    assert (Hgo : exists res w',
      (sleep interval ;;; wait_status_loop plc mc name expected timeout interval
                            start fuel)%py w1 = (Val res, w') /\
      (res = None -> 1000 * timeout <= now w' - start) /\
      (forall v, res = Some v ->
         py_in v expected = true /\
         exists a rest k, REGISTER_MAP !! name = Some a /\
           trace w' = TxRead a (Reply v) :: rest /\ on_read plc k a = Reply v) /\
      interval * (Z.of_nat (count (is_poll name) (trace w'))
                  - Z.of_nat (count (is_poll name) (trace w)))
        <= Z.max 0 (1000 * timeout - (now w - start) + interval - 1)).
    { unfold bind. rewrite Hsleep.
      destruct (IH w2) as (res & w' & Hloop & Hdead & Hmatch & Hpolls).
      { subst w2. simpl. lia. }
      exists res, w'. split; [exact Hloop|]. split; [exact Hdead|].
      split; [exact Hmatch|].
      assert (count (is_poll name) (trace w2) = count (is_poll name) (trace w1))
        as Hc2 by reflexivity.
      rewrite Hc2, Hcnt in Hpolls. subst w2. simpl in Hpolls. lia. }
    destruct r as [v|]; [|exact Hgo].
    destruct (py_in v expected) eqn:Hin; [|exact Hgo].
    exists (Some v), w1. unfold ret. split; [reflexivity|].
    split; [discriminate|]. split.
    + intros v' Hv'. inversion Hv'; subst v'. split; [exact Hin|].
      apply Hval. reflexivity.
    + rewrite Hcnt. lia.
  - exists None, w. unfold ret. split; [reflexivity|]. split; [intros _; lia|].
    split; [discriminate|]. lia.
Qed.

(** Whatever the fuel and for any interval that [time.sleep] accepts, the
    loop of [wait_for_status_change] leaves in one of three ways only: a
    matching value just read, [None] at or after the deadline, or still
    polling when the fuel ran out. *)
Lemma wait_status_loop_exits name expected timeout interval start fuel :
  0 <= interval -> forall w,
  match wait_status_loop plc mc name expected timeout interval start fuel w with
  | (Val None, w') => 1000 * timeout <= now w' - start
  | (Val (Some v), w') =>
      py_in v expected = true /\
      exists a rest, REGISTER_MAP !! name = Some a /\
        trace w' = TxRead a (Reply v) :: rest
  | (Spin, _) => True
  | (Raise _, _) => False
  end.
Proof.
  intros Hint. induction fuel as [|fuel IH]; intros w; [exact I|].
  simpl. unfold bind at 1. unfold time_time at 1.
  destruct (Z.ltb_spec (now w - start) (1000 * timeout)) as [Hlt|Hge];
    [|unfold ret; lia].
  unfold bind at 1. rewrite read_register_with_retry_once.
  destruct (read_register_by_name_spec plc mc name w)
    as (r & w1 & Hrun & Hnow & Hcnt & Hval).
  rewrite Hrun.
  assert (Hgo :
    match (sleep interval ;;; wait_status_loop plc mc name expected timeout
                                interval start fuel)%py w1 with
    | (Val None, w') => 1000 * timeout <= now w' - start
    | (Val (Some v), w') =>
        py_in v expected = true /\
        exists a rest, REGISTER_MAP !! name = Some a /\
          trace w' = TxRead a (Reply v) :: rest
    | (Spin, _) => True
    | (Raise _, _) => False
    end).
  { unfold bind, sleep. destruct (Z.ltb_spec interval 0); [lia|]. apply IH. }
  destruct r as [v|]; [|exact Hgo].
  destruct (py_in v expected) eqn:Hin; [|exact Hgo].
  unfold ret. split; [exact Hin|].
  destruct (Hval v eq_refl) as (a & rest & k & Ha & Ht & _). eauto.
Qed.

End ControllerWait.

(* ------------------------------------------------------------------ *)
(** ** Waiting: read failures and the deadline                         *)
(* ------------------------------------------------------------------ *)

Lemma ceil_div_bound n t i : 0 < i -> 0 <= t -> i * n <= Z.max 0 (t + i - 1) -> n <= t / i + 1.
Proof.
  intros Hi Ht H. rewrite Z.max_r in H by lia.
  assert (t / i * i <= t < (t / i + 1) * i) as [H1 H2].
  { pose proof (Z.div_mod t i ltac:(lia)). pose proof (Z.mod_pos_bound t i Hi). nia. }
  nia.
Qed.

Section FailedPoll.

Variable plc : PLC.
Variable self : ModbusClient.

Lemma frame_wait_status_loop_any name expected timeout interval start fuel :
  frame (fun _ => True)
    (wait_status_loop plc self name expected timeout interval start fuel).
Proof.
  induction fuel as [|fuel IH]; simpl; [apply frame_spin|].
  repeat frame_step; auto.
Qed.

(** Entered before the deadline, the loop of [wait_for_register_value]
    polls the register at least once. *)
Lemma wait_value_loop_polls name expected timeout start fuel w :
  now w - start < 1000 * timeout ->
  (count (is_poll name) (trace w)
   < count (is_poll name)
       (trace (snd (wait_value_loop plc self name expected timeout start
                      (S fuel) w))))%nat.
Proof.
  intros Hlt. simpl. unfold bind at 1. unfold time_time at 1.
  destruct (Z.ltb_spec (now w - start) (1000 * timeout)); [|lia].
  unfold bind at 1.
  destruct (read_register_by_name_spec plc self name w)
    as (r & w1 & Hrun & _ & Hcnt & _).
  rewrite Hrun. destruct (opt_eqb r expected).
  - unfold ret. cbn [snd]. lia.
  - unfold bind at 1. unfold sleep at 1. simpl.
    match goal with |- context [snd (?m ?w2)] =>
      pose proof (count_mono (fun _ => True) (is_poll name) m w2
                    ltac:(apply frame_wait_value_loop; auto)) as Hm
    end.
    simpl in Hm. lia.
Qed.

(** The same for the loop of [wait_for_status_change]. *)
Lemma wait_status_loop_polls name expected timeout interval start fuel w :
  now w - start < 1000 * timeout ->
  (count (is_poll name) (trace w)
   < count (is_poll name)
       (trace (snd (wait_status_loop plc self name expected timeout interval
                      start (S fuel) w))))%nat.
Proof.
  intros Hlt. simpl. unfold bind at 1. unfold time_time at 1.
  destruct (Z.ltb_spec (now w - start) (1000 * timeout)); [|lia].
  unfold bind at 1. rewrite read_register_with_retry_once.
  destruct (read_register_by_name_spec plc self name w)
    as (r & w1 & Hrun & _ & Hcnt & _).
  rewrite Hrun.
  assert (Hgo : (count (is_poll name) (trace w1)
                 <= count (is_poll name)
                      (trace (snd ((sleep interval ;;;
                                    wait_status_loop plc self name expected
                                      timeout interval start fuel)%py w1))))%nat).
  { unfold bind, sleep. destruct (interval <? 0); [cbn [snd]; lia|].
    match goal with |- context [snd (?m ?w2)] =>
      pose proof (count_mono (fun _ => True) (is_poll name) m w2
                    (frame_wait_status_loop_any name expected timeout interval
                       start fuel)) as Hm
    end.
    simpl in Hm. exact Hm. }
  destruct r as [v|]; [|lia].
  destruct (py_in v expected); [unfold ret; cbn [snd]; lia|lia].
Qed.

(** The loop of [wait_for_register_value] at a turn whose poll yields no
    value. *)
Lemma wait_value_loop_after_failed_poll
    name expected timeout start fuel w w1 :
  now w - start < 1000 * timeout ->
  (Z.to_nat (1000 * timeout - (now w - start)) < fuel)%nat ->
  read_register_by_name plc self name w = (Val None, w1) ->
  exists b w',
    wait_value_loop plc self name expected timeout start fuel w = (Val b, w')
    /\ (exists later, trace w' = later ++ Slept 500 :: trace w1)
    /\ (now w1 + 500 - start < 1000 * timeout ->
        polls name w + 2 <= polls name w')
    /\ (b = false -> start + 1000 * timeout <= now w')
    /\ (b = true ->
        polls name w + 2 <= polls name w'
        /\ exists a rest, REGISTER_MAP !! name = Some a
                          /\ trace w' = TxRead a (Reply expected) :: rest).
Proof.
  intros Hin Hfuel Hread.
  destruct (read_register_by_name_spec plc self name w)
    as (r & w1' & Hrun & Hnow & Hcnt & _).
  rewrite Hread in Hrun. inversion Hrun; subst r w1'. clear Hrun.
  destruct fuel as [|fuel]; [lia|].
  assert (E : wait_value_loop plc self name expected timeout start (S fuel) w
              = wait_value_loop plc self name expected timeout start fuel
                  (after_sleep 500 w1)).
  { simpl. unfold bind at 1. unfold time_time at 1.
    destruct (Z.ltb_spec (now w - start) (1000 * timeout)); [|lia].
    unfold bind at 1. rewrite Hread. cbn [opt_eqb].
    unfold bind at 1. unfold sleep at 1. simpl. reflexivity. }
  destruct (wait_value_loop_spec plc self name expected timeout start
              fuel (after_sleep 500 w1))
    as (b & w' & Hloop & Hdead & Hmatch & _).
  { unfold after_sleep. cbn [now]. lia. }
  pose proof (frame_wait_value_loop plc (fun _ => True) (fun _ => I) self name
                expected timeout start fuel I
                (fun _ _ _ => I) (after_sleep 500 w1)) as (later & Hlater & _).
  rewrite Hloop in Hlater. cbn [snd] in Hlater.
  assert (Hagain : now w1 + 500 - start < 1000 * timeout ->
                   polls name w + 2 <= polls name w').
  { intros Hrem.
    destruct fuel as [|n]; [unfold after_sleep in Hfuel; lia|].
    pose proof (wait_value_loop_polls name expected timeout start n
                  (after_sleep 500 w1)) as Hp.
    rewrite Hloop in Hp. unfold after_sleep in Hp. cbn [now snd] in Hp.
    specialize (Hp Hrem). simpl in Hp. unfold polls. lia. }
  exists b, w'. split; [rewrite E; exact Hloop|].
  split; [exists later; exact Hlater|].
  split; [exact Hagain|].
  split; [intros Hb; specialize (Hdead Hb); lia|].
  intros Hb. split.
  - apply Hagain.
    destruct (Z.lt_ge_cases (now w1 + 500 - start) (1000 * timeout))
      as [Hrem|Hout]; [exact Hrem|].
    exfalso. subst b.
    destruct fuel as [|n]; [simpl in Hloop; inversion Hloop|].
    revert Hloop. simpl. unfold bind at 1. unfold time_time at 1.
    unfold after_sleep. cbn [now].
    destruct (Z.ltb_spec (now w1 + 500 - start) (1000 * timeout)); [lia|].
    unfold ret. intros Hfalse. inversion Hfalse.
  - destruct (Hmatch Hb) as (a & rest & k & Ha & Htr & _). eauto.
Qed.

(** The loop of [wait_for_status_change] at a turn whose poll yields no
    value. *)
Lemma wait_status_loop_after_failed_poll
    name expected_values timeout interval start fuel w w1 :
  0 < interval ->
  now w - start < 1000 * timeout ->
  (Z.to_nat (1000 * timeout - (now w - start)) < fuel)%nat ->
  read_register_by_name plc self name w = (Val None, w1) ->
  exists r w',
    wait_status_loop plc self name expected_values timeout interval start
      fuel w = (Val r, w')
    /\ (exists later, trace w' = later ++ Slept interval :: trace w1)
    /\ (now w1 + interval - start < 1000 * timeout ->
        polls name w + 2 <= polls name w')
    /\ (r = None -> start + 1000 * timeout <= now w')
    /\ (forall v, r = Some v ->
        py_in v expected_values = true
        /\ polls name w + 2 <= polls name w'
        /\ exists a rest, REGISTER_MAP !! name = Some a
                          /\ trace w' = TxRead a (Reply v) :: rest).
Proof.
  intros Hint Hin Hfuel Hread.
  destruct (read_register_by_name_spec plc self name w)
    as (r0 & w1' & Hrun & Hnow & Hcnt & _).
  rewrite Hread in Hrun. inversion Hrun; subst r0 w1'. clear Hrun.
  destruct fuel as [|fuel]; [lia|].
  assert (E : wait_status_loop plc self name expected_values timeout
                interval start (S fuel) w
              = wait_status_loop plc self name expected_values timeout interval
                  start fuel (after_sleep interval w1)).
  { simpl. unfold bind at 1. unfold time_time at 1.
    destruct (Z.ltb_spec (now w - start) (1000 * timeout)); [|lia].
    unfold bind at 1. rewrite read_register_with_retry_once, Hread.
    unfold bind, sleep, after_sleep.
    destruct (Z.ltb_spec interval 0); [lia|reflexivity]. }
  destruct (wait_status_loop_spec plc self name expected_values timeout
              interval start fuel Hint (after_sleep interval w1))
    as (r & w' & Hloop & Hdead & Hmatch & _).
  { unfold after_sleep. cbn [now]. lia. }
  pose proof (frame_wait_status_loop_any name expected_values timeout interval
                start fuel (after_sleep interval w1)) as (later & Hlater & _).
  rewrite Hloop in Hlater. cbn [snd] in Hlater.
  assert (Hagain : now w1 + interval - start < 1000 * timeout ->
                   polls name w + 2 <= polls name w').
  { intros Hrem.
    destruct fuel as [|n]; [unfold after_sleep in Hfuel; lia|].
    pose proof (wait_status_loop_polls name expected_values timeout interval
                  start n (after_sleep interval w1)) as Hp.
    rewrite Hloop in Hp. unfold after_sleep in Hp. cbn [now snd] in Hp.
    specialize (Hp Hrem). simpl in Hp. unfold polls. lia. }
  exists r, w'. split; [rewrite E; exact Hloop|].
  split; [exists later; exact Hlater|].
  split; [exact Hagain|].
  split; [intros Hr; specialize (Hdead Hr); lia|].
  intros v Hv. destruct (Hmatch v Hv) as (Hok & a & rest & k & Ha & Htr & _).
  split; [exact Hok|]. split; [|eauto].
  apply Hagain.
  destruct (Z.lt_ge_cases (now w1 + interval - start) (1000 * timeout))
    as [Hrem|Hout]; [exact Hrem|].
  exfalso. subst r.
  destruct fuel as [|n]; [simpl in Hloop; inversion Hloop|].
  revert Hloop. simpl. unfold bind at 1. unfold time_time at 1.
  unfold after_sleep. cbn [now].
  destruct (Z.ltb_spec (now w1 + interval - start) (1000 * timeout)); [lia|].
  unfold ret. intros Hnone. inversion Hnone.
Qed.

End FailedPoll.

(** C2.  In both wait primitives a poll that yields no value does not end
    the wait.  Take any turn of the polling loop, entered in world [w]
    before the deadline [start + timeout], whose poll of the register
    yields no value and leaves world [w1].  Then the wait still comes to a
    result; the events of the failed poll are followed in the trace by
    the sleep of the polling interval (0.5 s in
    [wait_for_register_value], [check_interval] in
    [wait_for_status_change]); if the deadline has not passed after that
    sleep, the register is polled again; the timeout result ([False],
    resp. [None]) comes only at or after the deadline; and a positive
    result ([True], resp. a value of the expected set) comes only from a
    later poll, whose read replied that value and is the newest event of
    the trace.  The first two parts state this of the two loops at any
    turn, the last two of the two primitives when the turn is their
    first.  For [wait_for_status_change] the interval is positive and the
    loop is given more turns than the time left has milliseconds. *)
Theorem failed_poll_keeps_waiting
    (plc : PLC) (self : ModbusClient) (name : string)
    (expected : Z) (expected_values : list Z) (timeout interval start : Z)
    (fuel : nat) (w w1 : World) :
  0 < interval ->
  now w - start < 1000 * timeout ->
  (Z.to_nat (1000 * timeout - (now w - start)) < fuel)%nat ->
  read_register_by_name plc self name w = (Val None, w1) ->
  (exists b w',
     wait_value_loop plc self name expected timeout start fuel w = (Val b, w')
     /\ (exists later, trace w' = later ++ Slept 500 :: trace w1)
     /\ (now w1 + 500 - start < 1000 * timeout ->
         polls name w + 2 <= polls name w')
     /\ (b = false -> start + 1000 * timeout <= now w')
     /\ (b = true ->
         polls name w + 2 <= polls name w'
         /\ exists a rest, REGISTER_MAP !! name = Some a
                           /\ trace w' = TxRead a (Reply expected) :: rest))
  /\ (exists r w',
        wait_status_loop plc self name expected_values timeout interval start
          fuel w = (Val r, w')
        /\ (exists later, trace w' = later ++ Slept interval :: trace w1)
        /\ (now w1 + interval - start < 1000 * timeout ->
            polls name w + 2 <= polls name w')
        /\ (r = None -> start + 1000 * timeout <= now w')
        /\ (forall v, r = Some v ->
            py_in v expected_values = true
            /\ polls name w + 2 <= polls name w'
            /\ exists a rest, REGISTER_MAP !! name = Some a
                              /\ trace w' = TxRead a (Reply v) :: rest))
  /\ (forall w0,
        w = entered (WaitValue name expected timeout) w0 ->
        start = now w0 ->
        exists b w',
          wait_for_register_value plc self name expected timeout w0
          = (Val b, w')
          /\ (exists later, trace w' = later ++ Slept 500 :: trace w1)
          /\ (now w1 + 500 - now w0 < 1000 * timeout ->
              polls name w0 + 2 <= polls name w')
          /\ (b = false -> now w0 + 1000 * timeout <= now w')
          /\ (b = true ->
              polls name w0 + 2 <= polls name w'
              /\ exists a rest, REGISTER_MAP !! name = Some a
                                /\ trace w' = TxRead a (Reply expected) :: rest))
  /\ (start = now w ->
      exists r w',
        wait_for_status_change plc self name expected_values timeout interval
          fuel w = (Val r, w')
        /\ (exists later, trace w' = later ++ Slept interval :: trace w1)
        /\ (now w1 + interval - now w < 1000 * timeout ->
            polls name w + 2 <= polls name w')
        /\ (r = None -> now w + 1000 * timeout <= now w')
        /\ (forall v, r = Some v ->
            py_in v expected_values = true
            /\ polls name w + 2 <= polls name w'
            /\ exists a rest, REGISTER_MAP !! name = Some a
                              /\ trace w' = TxRead a (Reply v) :: rest)).
Proof.
  intros Hint Hin Hfuel Hread. split; [|split; [|split]].
  - apply wait_value_loop_after_failed_poll; assumption.
  - apply wait_status_loop_after_failed_poll; assumption.
  - intros w0 Hw Hstart. subst w start.
    unfold wait_for_register_value, called.
    unfold bind at 1. unfold push at 1. unfold bind at 1. unfold time_time at 1.
    cbn [now]. unfold entered in *. cbn [now] in Hin.
    destruct (wait_value_loop_after_failed_poll plc self name expected timeout
                (now w0) (wait_fuel timeout)
                (mkWorld (now w0) (reqs w0)
                   (Called (WaitValue name expected timeout) :: trace w0))
                w1 Hin ltac:(unfold wait_fuel; cbn [now]; lia) Hread)
      as (b & w' & H).
    exists b, w'. exact H.
  - intros Hstart. subst start.
    unfold wait_for_status_change. unfold bind at 1. unfold time_time at 1.
    apply wait_status_loop_after_failed_poll; assumption.
Qed.

Lemma failed_poll_keeps_waiting_witness :
  exists b w',
    wait_for_register_value dead_plc client0 "DOOR_CONTROL" 11 1 world0
    = (Val b, w')
    /\ (exists later,
          trace w'
          = later ++ Slept 500
              :: trace (snd (read_register_by_name dead_plc client0
                               "DOOR_CONTROL"
                               (entered (WaitValue "DOOR_CONTROL" 11 1)
                                  world0))))
    /\ (now (snd (read_register_by_name dead_plc client0 "DOOR_CONTROL"
                    (entered (WaitValue "DOOR_CONTROL" 11 1) world0)))
        + 500 - now world0 < 1000 * 1 ->
        polls "DOOR_CONTROL" world0 + 2 <= polls "DOOR_CONTROL" w')
    /\ (b = false -> now world0 + 1000 * 1 <= now w')
    /\ (b = true ->
        polls "DOOR_CONTROL" world0 + 2 <= polls "DOOR_CONTROL" w'
        /\ exists a rest, REGISTER_MAP !! "DOOR_CONTROL" = Some a
                          /\ trace w' = TxRead a (Reply 11) :: rest).
Proof.
  refine (proj1 (proj2 (proj2
    (failed_poll_keeps_waiting dead_plc client0 "DOOR_CONTROL" 11 [11]
       1 500 0 1001 (entered (WaitValue "DOOR_CONTROL" 11 1) world0)
       (snd (read_register_by_name dead_plc client0 "DOOR_CONTROL"
               (entered (WaitValue "DOOR_CONTROL" 11 1) world0)))
       _ _ _ _))) world0 eq_refl eq_refl).
  - lia.
  - vm_compute. reflexivity.
  - vm_compute. lia.
  - vm_compute. reflexivity.
Defined.

(** C6.  When no read of the register ever replies a value of the
    expected set, both wait primitives return their timeout result
    ([False], resp. [None]); they return it at or after the deadline, and
    the number of polls between entry and exit is at most
    timeout / interval + 1 (the interval is 0.5 s in
    [wait_for_register_value]).  For [wait_for_status_change] the interval
    is positive and the loop is given more turns than the timeout has
    milliseconds. *)
Theorem wait_times_out_at_deadline
    (plc : PLC) (self : ModbusClient) (name : string)
    (expected : Z) (expected_values : list Z) (timeout interval : Z)
    (fuel : nat) (w : World) :
  0 <= timeout ->
  0 < interval ->
  (Z.to_nat (1000 * timeout) < fuel)%nat ->
  (forall a k v, REGISTER_MAP !! name = Some a -> on_read plc k a = Reply v ->
     v <> expected /\ py_in v expected_values = false) ->
  (exists w',
     wait_for_register_value plc self name expected timeout w = (Val false, w')
     /\ now w + 1000 * timeout <= now w'
     /\ polls name w' - polls name w <= 1000 * timeout / 500 + 1)
  /\ (exists w',
        wait_for_status_change plc self name expected_values timeout interval
          fuel w = (Val None, w')
        /\ now w + 1000 * timeout <= now w'
        /\ polls name w' - polls name w <= 1000 * timeout / interval + 1).
Proof.
  intros Ht Hint Hfuel Hnever. split.
  - destruct (wait_for_register_value_spec plc self name expected timeout w)
      as (b & w' & Hrun & Hdead & Hmatch & Hpolls).
    destruct b.
    + destruct (Hmatch eq_refl) as (a & rest & k & Ha & _ & Hk).
      destruct (Hnever a k expected Ha Hk) as [Hne _]. congruence.
    + exists w'. split; [exact Hrun|]. split; [apply Hdead; reflexivity|].
      unfold polls. apply ceil_div_bound; lia.
  - unfold wait_for_status_change. unfold bind at 1. unfold time_time at 1.
    destruct (wait_status_loop_spec plc self name expected_values timeout
                interval (now w) fuel Hint w)
      as (res & w' & Hrun & Hdead & Hmatch & Hpolls); [lia|].
    destruct res as [v|].
    + destruct (Hmatch v eq_refl) as (Hin & a & rest & k & Ha & _ & Hk).
      destruct (Hnever a k v Ha Hk) as [_ Hout]. congruence.
    + exists w'. split; [exact Hrun|]. split; [specialize (Hdead eq_refl); lia|].
      unfold polls. apply ceil_div_bound; try lia.
Qed.

Lemma wait_times_out_at_deadline_witness :
  (exists w',
     wait_for_register_value dead_plc client0 "DOOR_CONTROL" 11 1 world0
       = (Val false, w')
     /\ now world0 + 1000 * 1 <= now w'
     /\ polls "DOOR_CONTROL" w' - polls "DOOR_CONTROL" world0
        <= 1000 * 1 / 500 + 1)
  /\ (exists w',
        wait_for_status_change dead_plc client0 "DOOR_CONTROL" [11] 1 500
          1001 world0 = (Val None, w')
        /\ now world0 + 1000 * 1 <= now w'
        /\ polls "DOOR_CONTROL" w' - polls "DOOR_CONTROL" world0
           <= 1000 * 1 / 500 + 1).
Proof.
  apply (wait_times_out_at_deadline dead_plc client0 "DOOR_CONTROL" 11 [11]
           1 500 1001 world0).
  - lia.
  - lia.
  - vm_compute. lia.
  - intros a k v _ H. simpl in H. discriminate.
Defined.

(* ------------------------------------------------------------------ *)
(** ** Which computations come back                                    *)
(* ------------------------------------------------------------------ *)

Lemma returns_halts {A} (m : M A) : returns m -> halts m.
Proof. intros H w. destruct (H w) as (a & w' & ->). discriminate. Qed.

Lemma returns_ret {A} (a : A) : returns (ret a).
Proof. intros w. exists a, w. reflexivity. Qed.

Lemma halts_raise {A} e : halts (@raise A e).
Proof. intros w. discriminate. Qed.

Lemma returns_bind {A B} (m : M A) (f : A -> M B) :
  returns m -> (forall a, returns (f a)) -> returns (bind m f).
Proof.
  intros Hm Hf w. unfold bind. destruct (Hm w) as (a & w1 & ->). apply Hf.
Qed.

Lemma halts_bind {A B} (m : M A) (f : A -> M B) :
  halts m -> (forall a, halts (f a)) -> halts (bind m f).
Proof.
  intros Hm Hf w. unfold bind. specialize (Hm w).
  destruct (m w) as [[a|e|] w1]; simpl in *; [apply Hf | discriminate | congruence].
Qed.

Lemma returns_try {A} (m : M A) (h : exn -> M A) :
  halts m -> (forall e, returns (h e)) -> returns (try_except m h).
Proof.
  intros Hm Hh w. unfold try_except. specialize (Hm w).
  destruct (m w) as [[a|e|] w1]; simpl in *; [eauto | apply Hh | congruence].
Qed.

Lemma returns_push e : returns (push e).
Proof. intros w. eexists _, _. reflexivity. Qed.

Lemma halts_sleep ms : halts (sleep ms).
Proof. intros w. unfold sleep. destruct (ms <? 0); discriminate. Qed.

Lemma halts_lookup_modbus_client g : halts (lookup_modbus_client g).
Proof. destruct g; intros w; discriminate. Qed.

Section Returns.

Variable plc : PLC.

Lemma returns_write_attempts self a v n attempt :
  returns (write_attempts plc self a v n attempt).
Proof.
  revert attempt. induction n as [|n IH]; intros attempt; simpl.
  - apply returns_ret.
  - apply returns_bind; [intros w; eexists _, _; reflexivity|].
    intros [[]| |]; [apply returns_ret | apply IH |].
    apply returns_bind; [|intros _; apply IH].
    destruct (_ <? _); [|apply returns_ret].
    intros w. eexists _, _. reflexivity.
Qed.

Lemma returns_write_register_by_name self name v :
  returns (write_register_by_name plc self name v).
Proof.
  unfold write_register_by_name, called.
  apply returns_bind; [apply returns_push|]. intros _.
  destruct (REGISTER_MAP !! name); [|apply returns_ret].
  unfold write_holding_register. destruct (negb _); [apply returns_ret|].
  apply returns_write_attempts.
Qed.

Lemma returns_read_register_by_name self name :
  returns (read_register_by_name plc self name).
Proof.
  intros w. destruct (read_register_by_name_spec plc self name w) as (r & w1 & H & _).
  eauto.
Qed.

Lemma returns_wait_for_register_value self name expected timeout :
  returns (wait_for_register_value plc self name expected timeout).
Proof.
  intros w.
  destruct (wait_for_register_value_spec plc self name expected timeout w)
    as (b & w' & H & _).
  eauto.
Qed.

Lemma returns_check_connection self : returns (check_connection plc self).
Proof.
  unfold check_connection. destruct (negb _); [apply returns_ret|].
  apply returns_bind; [intros w; eexists _, _; reflexivity|].
  intros [v| |]; apply returns_ret.
Qed.

End Returns.

Ltac halt_known :=
  lazymatch goal with
  | |- returns (ret _) => apply returns_ret
  | |- returns (push _) => apply returns_push
  | |- returns (called _) => apply returns_push
  | |- returns (check_connection _ _) => apply returns_check_connection
  | |- returns (wait_for_register_value _ _ _ _ _) =>
      apply returns_wait_for_register_value
  | |- returns (read_register_by_name _ _ _) =>
      apply returns_read_register_by_name
  | |- returns (write_register_by_name _ _ _ _) =>
      apply returns_write_register_by_name
  end.

Ltac halt_step :=
  lazymatch goal with
  | |- halts (raise _) => apply halts_raise
  | |- halts (sleep _) => apply halts_sleep
  | |- halts (lookup_modbus_client _) => apply halts_lookup_modbus_client
  | |- returns (try_except _ _) => apply returns_try; [| intros ?]
  | |- halts (try_except _ _) => apply returns_halts; apply returns_try; [| intros ?]
  | |- returns (bind _ _) => apply returns_bind; [| intros ?]
  | |- halts (bind _ _) => apply halts_bind; [| intros ?]
  | |- returns (if ?b then _ else _) => destruct b
  | |- halts (if ?b then _ else _) => destruct b
  | |- returns (match ?x with _ => _ end) => destruct x
  | |- halts (match ?x with _ => _ end) => destruct x
  | |- halts _ => apply returns_halts; halt_known
  | |- returns _ => halt_known
  end.

Ltac halt_tac := repeat halt_step.

Section ControllerReturns.

Variable plc : PLC.
Variables (mc : ModbusClient) (g : option ModbusClient).

Lemma returns_close_door timeout : returns (close_door plc mc timeout).
Proof. unfold close_door, called. halt_tac. Qed.

Lemma returns_confirm_drone_takeoff timeout :
  returns (confirm_drone_takeoff plc g timeout).
Proof. unfold confirm_drone_takeoff, called. halt_tac. Qed.

Lemma returns_get_storage_position : returns (get_storage_position plc g).
Proof. unfold get_storage_position. halt_tac. Qed.


End ControllerReturns.

(* ------------------------------------------------------------------ *)
(** ** The storage state machine                                       *)
(* ------------------------------------------------------------------ *)

Lemma OP_STORAGE_FULL : OP "STORAGE_FULL" = 10.
Proof. vm_compute. reflexivity. Qed.

Lemma OP_PICKUP_IN_PROGRESS : OP "PICKUP_IN_PROGRESS" = 120.
Proof. vm_compute. reflexivity. Qed.

Lemma OP_NO_PICKUP_COMPLETE : OP "NO_PICKUP_COMPLETE" = 122.
Proof. vm_compute. reflexivity. Qed.


Section Storage.

Variable plc : PLC.
Variable ucd : UCD.
Variables (mc : ModbusClient) (g : option ModbusClient).

Lemma frame_open_door_close timeout :
  frame (fun e => is_close_door e = false) (open_door plc mc timeout).
Proof. unfold open_door. frame_tac. Qed.

Lemma frame_open_door_command timeout :
  frame (fun e => is_door_close_command e = false) (open_door plc mc timeout).
Proof. unfold open_door. frame_tac. Qed.

Lemma frame_confirm_drone_landing_close timeout :
  frame (fun e => is_close_door e = false) (confirm_drone_landing plc g timeout).
Proof. unfold confirm_drone_landing. frame_tac. Qed.

Lemma frame_confirm_drone_landing_command timeout :
  frame (fun e => is_door_close_command e = false)
        (confirm_drone_landing plc g timeout).
Proof. unfold confirm_drone_landing. frame_tac. Qed.

(** One call of [close_door] is one entry [CloseDoor] in the trace. *)
Lemma close_door_counts_once timeout w :
  count is_close_door (trace (snd (close_door plc mc timeout w)))
  = S (count is_close_door (trace w)).
Proof.
  unfold close_door, called. unfold bind at 1. unfold push at 1.
  set (w0 := mkWorld _ _ _).
  match goal with |- context [snd (?m w0)] =>
    assert (F : frame (fun e => is_close_door e = false) m) by frame_tac;
    rewrite (frame_count _ _ F w0)
  end.
  reflexivity.
Qed.

(** One call of [close_door] calls [write_register_by_name] with the
    close command at most once. *)
Lemma close_door_commands_at_most_once timeout w :
  (count is_door_close_command (trace (snd (close_door plc mc timeout w)))
   <= S (count is_door_close_command (trace w)))%nat.
Proof.
  assert (H : adds_le is_door_close_command 1 (close_door plc mc timeout)).
  { unfold close_door.
    apply (adds_le_bind _ 0 1); [apply adds_le_frame; frame_tac|]. intros _.
    apply (adds_le_bind _ 0 1); [apply adds_le_frame; frame_tac|]. intros ok.
    destruct (negb ok); [apply (adds_le_weaken _ 0); [lia|apply adds_le_frame; frame_tac]|].
    apply (adds_le_try _ 1 0).
    - apply (adds_le_bind _ 1 0).
      + unfold write_register_by_name.
        apply (adds_le_bind _ 1 0); [apply adds_le_push|]. intros _.
        apply adds_le_frame.
        destruct (REGISTER_MAP !! "DOOR_CONTROL");
          [apply frame_write_holding_register; intros; reflexivity
          | apply frame_ret].
      + intros written. apply adds_le_frame. frame_tac.
    - intros _. apply adds_le_frame. frame_tac. }
  specialize (H w). lia.
Qed.


Lemma frame_read_register_with_retry_write name n :
  frame (fun e => is_write e = false) (read_register_with_retry plc mc name n).
Proof. frame_tac. Qed.

End Storage.

(** C4.  When the capacity check reads the full code (10) from the
    storage-status register, [execute_storage_process] returns
    [(False, None)] in the very world the read left: nothing runs after
    the check, and between entry and exit the trace gains no write
    attempt, neither a write request on the wire nor a call of
    [write_register_by_name], for any register. *)
Theorem storage_full_fails_without_write
    (plc : PLC) (ucd : UCD) (mc : ModbusClient) (g : option ModbusClient)
    (pickup_code : pystr) (w w1 : World) :
  read_register_with_retry plc mc "STORAGE_STATUS" 3 w = (Val (Some 10), w1) ->
  execute_storage_process plc ucd mc g pickup_code w = (Val (false, None), w1)
  /\ count is_write (trace w1) = count is_write (trace w)
  /\ exists new, trace w1 = new ++ trace w
                 /\ Forall (fun e => is_write e = false) new.
Proof.
  intros Hread. split; [|split].
  - unfold execute_storage_process, try_except, storage_prepare.
    unfold bind at 1. unfold bind at 1.
    unfold check_storage_capacity, try_except. unfold bind at 1.
    rewrite Hread. rewrite OP_STORAGE_FULL. reflexivity.
  - pose proof (frame_count is_write _
                  (frame_read_register_with_retry_write plc mc "STORAGE_STATUS" 3) w)
      as H.
    rewrite Hread in H. exact H.
  - destruct (frame_read_register_with_retry_write plc mc "STORAGE_STATUS" 3 w)
      as (new & E & F & _).
    rewrite Hread in E. exists new. split; assumption.
Qed.

Lemma storage_full_fails_without_write_witness :
  execute_storage_process (script_plc [10]) ucd_excerpt client0 (Some client0)
    (of_string "123456") world0
  = (Val (false, None),
     mkWorld 0 1 [TxRead 0xBBE (Reply 10); Called (ReadByName "STORAGE_STATUS")])
  /\ count is_write [TxRead 0xBBE (Reply 10); Called (ReadByName "STORAGE_STATUS")]
     = count is_write (trace world0)
  /\ exists new,
       [TxRead 0xBBE (Reply 10); Called (ReadByName "STORAGE_STATUS")]
       = new ++ trace world0
       /\ Forall (fun e => is_write e = false) new.
Proof.
  apply (storage_full_fails_without_write (script_plc [10]) ucd_excerpt client0
           (Some client0) (of_string "123456") world0
           (mkWorld 0 1 [TxRead 0xBBE (Reply 10);
                         Called (ReadByName "STORAGE_STATUS")])).
  vm_compute. reflexivity.
Defined.

(** C5.  When the door has been opened and the landing confirmation then
    fails, [execute_storage_process] calls [close_door] once, on the world
    the failed confirmation left, and returns [(False, None)] with
    whatever that call answered.  Over the whole run the trace gains
    exactly one [close_door] call, and at most one call of
    [write_register_by_name] carrying the close command. *)
Theorem landing_failure_closes_door_once
    (plc : PLC) (ucd : UCD) (mc : ModbusClient) (g : option ModbusClient)
    (pickup_code : pystr) (w w1 w2 w3 : World) :
  check_storage_capacity plc mc w = (Val (Some true), w1) ->
  open_door plc mc 30 w1 = (Val true, w2) ->
  confirm_drone_landing plc g 60 w2 = (Val false, w3) ->
  exists closed w4,
    close_door plc mc 30 w3 = (Val closed, w4)
    /\ execute_storage_process plc ucd mc g pickup_code w
       = (Val (false, None), w4)
    /\ count is_close_door (trace w4) = S (count is_close_door (trace w))
    /\ (count is_door_close_command (trace w4)
        <= S (count is_door_close_command (trace w)))%nat.
Proof.
  intros Hcap Hopen Hland.
  destruct (returns_close_door plc mc 30 w3) as (closed & w4 & Hclose).
  exists closed, w4. split; [exact Hclose|]. split; [|split].
  - unfold execute_storage_process, try_except, storage_prepare.
    unfold bind at 1. unfold bind at 1. rewrite Hcap. simpl.
    unfold bind at 1. rewrite Hopen. simpl.
    unfold bind at 1. rewrite Hland. simpl.
    unfold bind at 1. rewrite Hclose. reflexivity.
  - pose proof (close_door_counts_once plc mc 30 w3) as H4.
    rewrite Hclose in H4. simpl in H4. rewrite H4. f_equal.
    pose proof (frame_count _ _ (frame_confirm_drone_landing_close plc g 60) w2) as H3.
    pose proof (frame_count _ _ (frame_open_door_close plc mc 30) w1) as H2.
    pose proof (frame_count _ _ (frame_check_storage_capacity_close plc mc) w) as H1.
    rewrite Hland in H3. rewrite Hopen in H2. rewrite Hcap in H1.
    simpl in *. congruence.
  - pose proof (close_door_commands_at_most_once plc mc 30 w3) as H4.
    rewrite Hclose in H4. simpl in H4.
    pose proof (frame_count _ _ (frame_confirm_drone_landing_command plc g 60) w2) as H3.
    pose proof (frame_count _ _ (frame_open_door_command plc mc 30) w1) as H2.
    pose proof (frame_count _ _ (frame_check_storage_capacity_command plc mc) w) as H1.
    rewrite Hland in H3. rewrite Hopen in H2. rewrite Hcap in H1.
    simpl in *. lia.
Qed.

Lemma landing_failure_closes_door_once_witness :
  exists closed w4,
    close_door (script_plc door_only_script) client0 30
      (snd (confirm_drone_landing (script_plc door_only_script) None 60
         (snd (open_door (script_plc door_only_script) client0 30
            (snd (check_storage_capacity (script_plc door_only_script)
                    client0 world0))))))
    = (Val closed, w4)
    /\ execute_storage_process (script_plc door_only_script) ucd_excerpt
         client0 None (of_string "123456") world0
       = (Val (false, None), w4)
    /\ count is_close_door (trace w4) = S (count is_close_door (trace world0))
    /\ (count is_door_close_command (trace w4)
        <= S (count is_door_close_command (trace world0)))%nat.
Proof.
  apply (landing_failure_closes_door_once (script_plc door_only_script)
           ucd_excerpt client0 None (of_string "123456") world0
           (snd (check_storage_capacity (script_plc door_only_script)
                   client0 world0))
           (snd (open_door (script_plc door_only_script) client0 30
              (snd (check_storage_capacity (script_plc door_only_script)
                      client0 world0))))).
  - vm_compute. reflexivity.
  - vm_compute. reflexivity.
  - vm_compute. reflexivity.
Defined.

(* ------------------------------------------------------------------ *)
(** ** Setting the pickup and the send code                            *)
(* ------------------------------------------------------------------ *)

(** In the modules as they stand the name [modbus_client] is unbound:
    whatever the code, [set_code] returns [False] and leaves the world
    untouched.  A malformed code is refused by the format test; a
    well-formed one reaches the lookup of the name, whose [NameError] the
    function's own [except Exception] turns into [False]. *)
Lemma set_code_name_unbound plc ucd front rear code w :
  set_code plc ucd None front rear code w = (Val false, w).
Proof.
  unfold set_code. destruct (negb _ || negb _); [reflexivity|].
  unfold try_except, bind, py_int.
  destruct (take 3 code); [reflexivity|].
  destruct (int_digits ucd 0 (_ :: _)); [|reflexivity].
  destruct (drop 3 code); [reflexivity|].
  destruct (int_digits ucd 0 (_ :: _)); reflexivity.
Qed.

(** C3, the code at the failing input.  For the well-formed code
    "123456", on any device and in any world, [set_pickup_code] and
    [set_send_code] of the modules as they stand return [False] and add
    nothing to the trace: the halves 123 and 456 are computed, but no
    write of either is attempted. *)
Theorem set_code_unbound_client_writes_nothing (plc : PLC) (w : World) :
  set_pickup_code plc ucd_excerpt None (of_string "123456") w = (Val false, w)
  /\ set_send_code plc ucd_excerpt None (of_string "123456") w = (Val false, w)
  /\ int_digits ucd_excerpt 0 (take 3 (of_string "123456")) = Some 123
  /\ int_digits ucd_excerpt 0 (drop 3 (of_string "123456")) = Some 456.
Proof.
  split; [apply set_code_name_unbound|]. split; [apply set_code_name_unbound|].
  split; reflexivity.
Qed.

(** A string that fails the format test is refused before anything else
    happens, whatever [modbus_client] is bound to. *)
Lemma set_code_rejects_malformed plc ucd g front rear code w :
  length code <> 6%nat \/ isdigit ucd code = false ->
  set_code plc ucd g front rear code w = (Val false, w).
Proof.
  intros H. unfold set_code.
  assert (negb (length code =? 6)%nat || negb (isdigit ucd code) = true) as ->.
  { destruct H as [H|H].
    - apply Nat.eqb_neq in H. rewrite H. reflexivity.
    - rewrite H. apply orb_true_r. }
  reflexivity.
Qed.

Lemma ascii_digit_decimal ucd c :
  ucd_ascii ucd -> ascii_digit c -> decimal_value ucd c = Some (c - 48).
Proof. intros H Hc. apply H. exact Hc. Qed.

(** Splitting six ASCII digits into two numbers and printing both back
    with three digits gives the six digits again. *)
Lemma split_code_round_trip ucd code :
  ucd_ascii ucd -> length code = 6%nat -> Forall ascii_digit code ->
  exists front rear,
    int_digits ucd 0 (take 3 code) = Some front
    /\ int_digits ucd 0 (drop 3 code) = Some rear
    /\ 0 <= front <= 999 /\ 0 <= rear <= 999
    /\ isdigit ucd code = true
    /\ three_digits front ++ three_digits rear = code.
Proof.
  intros Hu Hlen Hall.
  destruct code as [|c0 [|c1 [|c2 [|c3 [|c4 [|c5 [|c6 rest]]]]]]];
    simpl in Hlen; try discriminate.
  inversion Hall as [|? ? H0 Hall1]; subst.
  inversion Hall1 as [|? ? H1 Hall2]; subst.
  inversion Hall2 as [|? ? H2 Hall3]; subst.
  inversion Hall3 as [|? ? H3 Hall4]; subst.
  inversion Hall4 as [|? ? H4 Hall5]; subst.
  inversion Hall5 as [|? ? H5 _]; subst.
  pose proof (ascii_digit_decimal ucd _ Hu H0) as E0.
  pose proof (ascii_digit_decimal ucd _ Hu H1) as E1.
  pose proof (ascii_digit_decimal ucd _ Hu H2) as E2.
  pose proof (ascii_digit_decimal ucd _ Hu H3) as E3.
  pose proof (ascii_digit_decimal ucd _ Hu H4) as E4.
  pose proof (ascii_digit_decimal ucd _ Hu H5) as E5.
  unfold ascii_digit in *.
  exists (10 * (10 * (10 * 0 + (c0 - 48)) + (c1 - 48)) + (c2 - 48)),
         (10 * (10 * (10 * 0 + (c3 - 48)) + (c4 - 48)) + (c5 - 48)).
  split; [simpl; rewrite E0, E1, E2; reflexivity|].
  split; [simpl; rewrite E3, E4, E5; reflexivity|].
  split; [lia|]. split; [lia|].
  split.
  { unfold isdigit, char_isdigit. simpl.
    rewrite E0, E1, E2, E3, E4, E5. reflexivity. }
  unfold three_digits. simpl.
  repeat f_equal.
  all: match goal with
       | |- context [Z.div] => idtac
       | |- context [Z.modulo] => idtac
       | _ => idtac
       end.
  all: Z.div_mod_to_equations; lia.
Qed.

(* ------------------------------------------------------------------ *)
(** ** Health of a connection                                          *)
(* ------------------------------------------------------------------ *)

Module ConnectionFacts.
Import Connection.

Lemma Qltb_lt x y : Qltb x y = true <-> (x < y)%Q.
Proof.
  unfold Qltb. rewrite negb_true_iff. split.
  - intros H. apply Qnot_le_lt. intros Hle.
    apply Qle_bool_iff in Hle. congruence.
  - intros H. destruct (Qle_bool y x) eqn:E; [|reflexivity].
    apply Qle_bool_iff in E. exfalso. exact (Qlt_not_le _ _ H E).
Qed.

(** With at least one error or one success on record, the error rate is
    below one half exactly when the errors are fewer than the successes. *)
Lemma error_rate_below_half c :
  (0 < connection_count c + error_count c)%nat ->
  (error_rate c < 1 # 2)%Q <-> (error_count c < connection_count c)%nat.
Proof.
  intros Hpos. unfold error_rate.
  destruct (Z.of_nat (connection_count c + error_count c)) as [|p|p] eqn:E;
    try lia.
  unfold Qlt, Qdiv, Qmult, Qinv, inject_Z. simpl.
  assert (Z.pos p = Z.of_nat (connection_count c) + Z.of_nat (error_count c)) by lia.
  lia.
Qed.

End ConnectionFacts.

(** C8, as the code has it.  [is_healthy] has two regimes.  With at
    least one successful connect on record a connection is healthy
    exactly when its error rate
    error_count / (connection_count + error_count) is below 0.5, that is
    when the errors counted since the last success are fewer than the
    successes.  A connection that never connected is healthy exactly when
    it has fewer than five errors; its rate is not looked at.
    [get_client] keeps the counters as follows, for every connection: a
    successful connect returns the client, adds one to
    [connection_count] and resets [error_count] to 0; a refused connect
    and an exception both return [None], add one to [error_count], leave
    [connection_count] alone and record the last error. *)
Theorem health_follows_error_rate
    (t : Z) (text : string) (c : Connection.MachineConnection) :
  (Connection.is_healthy c = true
   <-> ((0 < Connection.connection_count c)%nat
        /\ (Connection.error_rate c < 1 # 2)%Q)
       \/ (Connection.connection_count c = 0%nat
           /\ (Connection.error_count c < 5)%nat))
  /\ (Connection.is_healthy c = true
      <-> ((0 < Connection.connection_count c)%nat
           /\ (Connection.error_count c < Connection.connection_count c)%nat)
          \/ (Connection.connection_count c = 0%nat
              /\ (Connection.error_count c < 5)%nat))
  /\ (let '(c', client) := Connection.get_client t Connection.Connected c in
      client = true
      /\ Connection.error_count c' = 0%nat
      /\ Connection.connection_count c' = S (Connection.connection_count c))
  /\ (let '(c', client) := Connection.get_client t Connection.Refused c in
      client = false
      /\ Connection.error_count c' = S (Connection.error_count c)
      /\ Connection.connection_count c' = Connection.connection_count c
      /\ Connection.last_error c' = Some Connection.connect_failed_text)
  /\ (let '(c', client) := Connection.get_client t (Connection.Raised text) c in
      client = false
      /\ Connection.error_count c' = S (Connection.error_count c)
      /\ Connection.connection_count c' = Connection.connection_count c
      /\ Connection.last_error c' = Some text).
Proof.
  assert (Hh : Connection.is_healthy c = true
               <-> ((0 < Connection.connection_count c)%nat
                    /\ (Connection.error_rate c < 1 # 2)%Q)
                   \/ (Connection.connection_count c = 0%nat
                       /\ (Connection.error_count c < 5)%nat)).
  { unfold Connection.is_healthy.
    destruct (Nat.ltb_spec 0 (Connection.connection_count c)) as [Hpos|Hzero].
    - rewrite ConnectionFacts.Qltb_lt. split.
      + intros H. left. split; assumption.
      + intros [[_ H]|[H _]]; [exact H|lia].
    - rewrite Nat.ltb_lt. split.
      + intros H. right. split; [lia|exact H].
      + intros [[H _]|[_ H]]; [lia|exact H]. }
  split; [exact Hh|]. split.
  - rewrite Hh. split.
    + intros [[Hpos H]|H]; [left|right; exact H]. split; [exact Hpos|].
      apply ConnectionFacts.error_rate_below_half; [lia|exact H].
    + intros [[Hpos H]|H]; [left|right; exact H]. split; [exact Hpos|].
      apply ConnectionFacts.error_rate_below_half; [lia|exact H].
  - simpl. repeat split; reflexivity.
Qed.

(** C8 as stated fails for a connection that never connected.  Three
    refused connects after [__init__] leave 0 successes and 3 errors: the
    error rate is 3/3 = 1, not below 0.5, and [is_healthy] answers
    [True]. *)
Lemma never_connected_is_healthy_at_rate_one :
  fst (Connection.get_client 3 Connection.Refused
         (fst (Connection.get_client 2 Connection.Refused
                 (fst (Connection.get_client 1 Connection.Refused
                         (Connection.init 0))))))
  = Connection.mkConnection true 0 0 3 (Some Connection.connect_failed_text)
  /\ Connection.is_healthy
       (Connection.mkConnection true 0 0 3 (Some Connection.connect_failed_text))
     = true
  /\ (Connection.error_rate
        (Connection.mkConnection true 0 0 3 (Some Connection.connect_failed_text))
      == 1)%Q
  /\ ~ (Connection.error_rate
          (Connection.mkConnection true 0 0 3
             (Some Connection.connect_failed_text)) < 1 # 2)%Q.
Proof.
  split; [reflexivity|]. split; [reflexivity|]. split; [reflexivity|].
  intros H. vm_compute in H. discriminate.
Qed.

(* ------------------------------------------------------------------ *)
(** ** What the locks of the manager exclude                           *)
(* ------------------------------------------------------------------ *)

Module InterleavingFacts.
Import Interleaving.

(** The manager's lock is held by exactly the thread that is inside
    [with self._connection_lock]. *)
Definition lock_invariant (s : state) : Prop :=
  forall tid t, threads s !! tid = Some t ->
    (acquiring t = true <-> manager_lock s = Some tid).

Lemma lock_invariant_spawn jobs : lock_invariant (spawn jobs).
Proof.
  intros tid t Ht. unfold spawn in *. simpl in *.
  rewrite list_lookup_fmap in Ht.
  destruct (jobs !! tid) as [j|]; simpl in Ht; [|discriminate].
  inversion Ht; subst. simpl. split; discriminate.
Qed.

Lemma lookup_commit tid t a m c s tid' t' :
  threads s !! tid = Some t ->
  threads (commit tid t a m c s) !! tid' = Some t' ->
  (tid' = tid /\ t' = advance t) \/ (tid' <> tid /\ threads s !! tid' = Some t').
Proof.
  intros Ht H. unfold commit in H. simpl in H.
  destruct (decide (tid' = tid)) as [->|Hne].
  - left. split; [reflexivity|].
    rewrite list_lookup_insert_eq in H by (eapply lookup_lt_Some; eauto).
    congruence.
  - right. split; [exact Hne|].
    rewrite list_lookup_insert_ne in H by congruence. exact H.
Qed.

(** A committed action that keeps the thread on the same side of the
    critical section and does not touch the manager's lock. *)
Lemma lock_invariant_commit_same tid t a c s :
  lock_invariant s -> threads s !! tid = Some t ->
  acquiring (advance t) = acquiring t ->
  lock_invariant (commit tid t a (manager_lock s) c s).
Proof.
  intros Hinv Ht Hsame tid' t' H.
  destruct (lookup_commit _ _ _ _ _ _ _ _ Ht H) as [[-> ->]|[Hne H']].
  - rewrite Hsame. simpl. apply Hinv. exact Ht.
  - simpl. apply Hinv. exact H'.
Qed.

Lemma lock_invariant_step tid s :
  lock_invariant s -> lock_invariant (step tid s).
Proof.
  intros Hinv. unfold step.
  destruct (threads s !! tid) as [t|] eqn:Ht; [|exact Hinv].
  unfold next, operation, get_machine_client.
  destruct t as [m k p].
  destruct p as [|[|[|[|[|n]]]]]; simpl.
  - (* acquire the manager's lock *)
    destruct (manager_lock s) as [holder|] eqn:Hlock; [exact Hinv|].
    intros tid' t' H.
    destruct (lookup_commit _ _ _ _ _ _ _ _ Ht H) as [[-> ->]|[Hne H']]; simpl.
    + split; reflexivity.
    + pose proof (Hinv _ _ H') as Hold. rewrite Hlock in Hold.
      split; [intros Ha; apply Hold in Ha; discriminate | intros Hb; congruence].
  - (* acquire the connection's lock *)
    destruct (client_locks s !! m); [exact Hinv|].
    apply lock_invariant_commit_same; auto.
  - apply lock_invariant_commit_same; auto.
  - apply lock_invariant_commit_same; auto.
  - (* release the manager's lock *)
    pose proof (proj1 (Hinv _ _ Ht) eq_refl) as Hheld.
    intros tid' t' H.
    destruct (lookup_commit _ _ _ _ _ _ _ _ Ht H) as [[-> ->]|[Hne H']]; simpl.
    + split; discriminate.
    + pose proof (Hinv _ _ H') as Hold. rewrite Hheld in Hold.
      split; [intros Ha; apply Hold in Ha; congruence | discriminate].
  - (* a register access, or nothing left *)
    rewrite list_lookup_fmap.
    destruct (seq 0 k !! n) as [i|]; simpl; [|exact Hinv].
    apply lock_invariant_commit_same; auto.
Qed.

Lemma lock_invariant_run schedule : forall s,
  lock_invariant s -> lock_invariant (run schedule s).
Proof.
  unfold run. induction schedule as [|tid schedule IH]; intros s Hinv; simpl.
  - exact Hinv.
  - apply IH. apply lock_invariant_step. exact Hinv.
Qed.

End InterleavingFacts.

Module InterleavingOrder.
Import Interleaving.

(** A connection's lock is held by a thread that stands at the connect of
    that connection, or right after it. *)
Definition client_lock_invariant (s : state) : Prop :=
  forall m tid, client_locks s !! m = Some tid ->
    exists t, threads s !! tid = Some t /\ machine t = m
              /\ (pc t = 2 \/ pc t = 3)%nat.

Lemma client_lock_invariant_spawn jobs : client_lock_invariant (spawn jobs).
Proof.
  intros m tid H. unfold spawn, client_locks in H.
  rewrite lookup_empty in H. discriminate.
Qed.

Lemma client_lock_invariant_commit tid t a ml cl s :
  threads s !! tid = Some t ->
  client_lock_invariant s ->
  (forall m' tid', cl !! m' = Some tid' ->
     (tid' = tid /\ machine t = m'
      /\ (pc (advance t) = 2 \/ pc (advance t) = 3)%nat)
     \/ (tid' <> tid /\ client_locks s !! m' = Some tid')) ->
  client_lock_invariant (commit tid t a ml cl s).
Proof.
  intros Ht Hinv Hcl m' tid' H. unfold commit, client_locks in H.
  destruct (Hcl _ _ H) as [(-> & Hm & Hpc)|(Hne & Hold)].
  - exists (advance t). split.
    + unfold commit. cbn [threads]. apply list_lookup_insert_eq.
      eapply lookup_lt_Some; eauto.
    + split; [exact Hm|exact Hpc].
  - destruct (Hinv _ _ Hold) as (t' & Ht' & Hm' & Hpc').
    exists t'. split; [|auto].
    unfold commit. cbn [threads].
    rewrite list_lookup_insert_ne by congruence. exact Ht'.
Qed.

Lemma client_lock_invariant_step tid s :
  client_lock_invariant s -> client_lock_invariant (step tid s).
Proof.
  intros Hinv. unfold step.
  destruct (threads s !! tid) as [t|] eqn:Ht; [|exact Hinv].
  assert (Hself : forall m', client_locks s !! m' = Some tid ->
                    machine t = m' /\ (pc t = 2 \/ pc t = 3)%nat).
  { intros m' H. destruct (Hinv _ _ H) as (t' & Ht' & Hm & Hpc).
    rewrite Ht in Ht'. inversion Ht'; subst. auto. }
  unfold next, operation, get_machine_client.
  destruct t as [m k p]. cbn [machine accesses pc] in *.
  destruct p as [|[|[|[|[|n]]]]]; simpl.
  - (* acquire the manager's lock *)
    destruct (manager_lock s); [exact Hinv|].
    apply client_lock_invariant_commit; [exact Ht|exact Hinv|].
    intros m' tid' H. right. split; [|exact H].
    intros ->. destruct (Hself _ H) as [_ [Hp|Hp]]; discriminate.
  - (* acquire the connection's lock *)
    destruct (client_locks s !! m) eqn:Hfree; [exact Hinv|].
    apply client_lock_invariant_commit; [exact Ht|exact Hinv|].
    intros m' tid' H.
    destruct (decide (m' = m)) as [->|Hne].
    + rewrite lookup_insert_eq in H. inversion H; subst. left. cbn. auto.
    + rewrite lookup_insert_ne in H by congruence. right. split; [|exact H].
      intros ->. destruct (Hself _ H) as [_ [Hp|Hp]]; discriminate.
  - (* connect *)
    apply client_lock_invariant_commit; [exact Ht|exact Hinv|].
    intros m' tid' H.
    destruct (decide (tid' = tid)) as [->|Hne]; [left|right; auto].
    destruct (Hself _ H) as [Hm _]. cbn. auto.
  - (* release the connection's lock *)
    apply client_lock_invariant_commit; [exact Ht|exact Hinv|].
    intros m' tid' H.
    destruct (decide (m' = m)) as [->|Hne];
      [rewrite lookup_delete_eq in H; discriminate|].
    rewrite lookup_delete_ne in H by congruence. right. split; [|exact H].
    intros ->. destruct (Hself _ H) as [Hm _]. congruence.
  - (* release the manager's lock *)
    apply client_lock_invariant_commit; [exact Ht|exact Hinv|].
    intros m' tid' H. right. split; [|exact H].
    intros ->. destruct (Hself _ H) as [_ [Hp|Hp]]; discriminate.
  - (* a register access, or nothing left *)
    rewrite list_lookup_fmap.
    destruct (seq 0 k !! n) as [i|]; simpl; [|exact Hinv].
    apply client_lock_invariant_commit; [exact Ht|exact Hinv|].
    intros m' tid' H. right. split; [|exact H].
    intros ->. destruct (Hself _ H) as [_ [Hp|Hp]]; discriminate.
Qed.

Lemma client_lock_invariant_run schedule : forall s,
  client_lock_invariant s -> client_lock_invariant (run schedule s).
Proof.
  unfold run. induction schedule as [|tid schedule IH]; intros s H; cbn.
  - exact H.
  - apply IH. apply client_lock_invariant_step. exact H.
Qed.

(** A thread outside [with self._connection_lock] holds no lock. *)
Lemma idle_thread_holds_no_lock jobs schedule tid t :
  threads (run schedule (spawn jobs)) !! tid = Some t ->
  acquiring t = false ->
  manager_lock (run schedule (spawn jobs)) <> Some tid
  /\ forall m, client_locks (run schedule (spawn jobs)) !! m <> Some tid.
Proof.
  intros Ht Hidle. split.
  - intros Hheld.
    apply (InterleavingFacts.lock_invariant_run schedule _
             (InterleavingFacts.lock_invariant_spawn jobs) tid t Ht) in Hheld.
    congruence.
  - intros m Hheld.
    destruct (client_lock_invariant_run schedule _
                (client_lock_invariant_spawn jobs) m tid Hheld)
      as (t' & Ht' & _ & Hpc).
    rewrite Ht in Ht'. inversion Ht'; subst t'.
    unfold acquiring in Hidle. destruct Hpc as [Hp|Hp]; rewrite Hp in Hidle;
      discriminate.
Qed.

Lemma run_app l1 l2 s : run (l1 ++ l2) s = run l2 (run l1 s).
Proof. unfold run. apply fold_left_app. Qed.

(** A scheduling decision for a thread whose next action can go ahead. *)
Lemma step_commit tid t a s :
  threads s !! tid = Some t -> next t = Some a ->
  match a with
  | Acquire ManagerLock => manager_lock s = None
  | Acquire (ClientLock m) => client_locks s !! m = None
  | _ => True
  end ->
  step tid s
  = commit tid t a
      (match a with
       | Acquire ManagerLock => Some tid
       | Release ManagerLock => None
       | _ => manager_lock s
       end)
      (match a with
       | Acquire (ClientLock m) => <[m:=tid]> (client_locks s)
       | Release (ClientLock m) => delete m (client_locks s)
       | _ => client_locks s
       end) s.
Proof.
  intros H1 H2 H3. unfold step. rewrite H1, H2.
  destruct a as [[|m]|[|m]|m|m n]; try reflexivity; rewrite H3; reflexivity.
Qed.

Lemma lookup_commit_self tid t a ml cl s :
  threads s !! tid = Some t ->
  threads (commit tid t a ml cl s) !! tid = Some (advance t).
Proof.
  intros Ht. unfold commit. cbn [threads]. apply list_lookup_insert_eq.
  eapply lookup_lt_Some; eauto.
Qed.

(** A thread that finds both locks free goes through
    [get_machine_client] in five steps of its own, and leaves both locks
    free. *)
Lemma acquire_block tid m k s :
  threads s !! tid = Some (mkThread m k 0) ->
  manager_lock s = None ->
  client_locks s !! m = None ->
  threads (run [tid; tid; tid; tid; tid] s) = <[tid := mkThread m k 5]> (threads s)
  /\ manager_lock (run [tid; tid; tid; tid; tid] s) = None
  /\ client_locks (run [tid; tid; tid; tid; tid] s) !! m = None
  /\ forall m', access_order m' (log (run [tid; tid; tid; tid; tid] s))
                = access_order m' (log s).
Proof.
  intros Ht Hm Hc. unfold run. cbn [fold_left].
  rewrite (step_commit tid (mkThread m k 0) (Acquire ManagerLock) s Ht
             eq_refl Hm).
  set (s1 := commit tid _ (Acquire ManagerLock) _ _ s).
  assert (T1 : threads s1 !! tid = Some (mkThread m k 1))
    by (apply lookup_commit_self; exact Ht).
  rewrite (step_commit tid (mkThread m k 1) (Acquire (ClientLock m)) s1 T1
             eq_refl Hc).
  set (s2 := commit tid _ (Acquire (ClientLock m)) _ _ s1).
  assert (T2 : threads s2 !! tid = Some (mkThread m k 2))
    by (apply lookup_commit_self; exact T1).
  rewrite (step_commit tid (mkThread m k 2) (Connect m) s2 T2 eq_refl I).
  set (s3 := commit tid _ (Connect m) _ _ s2).
  assert (T3 : threads s3 !! tid = Some (mkThread m k 3))
    by (apply lookup_commit_self; exact T2).
  rewrite (step_commit tid (mkThread m k 3) (Release (ClientLock m)) s3 T3
             eq_refl I).
  set (s4 := commit tid _ (Release (ClientLock m)) _ _ s3).
  assert (T4 : threads s4 !! tid = Some (mkThread m k 4))
    by (apply lookup_commit_self; exact T3).
  rewrite (step_commit tid (mkThread m k 4) (Release ManagerLock) s4 T4
             eq_refl I).
  split; [|split; [|split]].
  - unfold commit. cbn [threads]. subst s4 s3 s2 s1. unfold commit.
    cbn [threads advance machine accesses pc].
    rewrite !list_insert_insert_eq. reflexivity.
  - reflexivity.
  - unfold commit. cbn [client_locks]. subst s4. unfold commit.
    cbn [client_locks]. apply lookup_delete_eq.
  - intros m'. reflexivity.
Qed.

(** The action of a thread that has its client and [a] accesses behind
    it. *)
Lemma next_access m k a :
  (a < k)%nat -> next (mkThread m k (5 + a)) = Some (Access m a).
Proof.
  intros H. unfold next, operation, get_machine_client.
  cbn [machine accesses pc]. change (5 + a)%nat with (S (S (S (S (S a))))).
  simpl. rewrite list_lookup_fmap, (lookup_seq_lt 0 k a H). reflexivity.
Qed.

(** Two threads that have their clients make their accesses in whatever
    order the scheduler picks. *)
Lemma run_accesses m k1 k2 : forall order a b ml cl lg,
  Forall (fun tid => tid < 2)%nat order ->
  (a + accesses_of 0 order <= k1)%nat ->
  (b + accesses_of 1 order <= k2)%nat ->
  access_order m
    (log (run order
            (mkState [mkThread m k1 (5 + a); mkThread m k2 (5 + b)] ml cl lg)))
  = access_order m lg ++ order.
Proof.
  induction order as [|tid order IH]; intros a b ml cl lg Hall Ha Hb.
  - cbn. rewrite app_nil_r. reflexivity.
  - inversion Hall as [|? ? Htid Hrest]; subst.
    unfold run. cbn [fold_left].
    destruct tid as [|[|tid]]; [| |lia].
    + assert (Hlt : (a < k1)%nat) by (unfold accesses_of in Ha; cbn in Ha; lia).
      rewrite (step_commit 0 (mkThread m k1 (5 + a)) (Access m a)
                 (mkState [mkThread m k1 (5 + a); mkThread m k2 (5 + b)]
                    ml cl lg)
                 eq_refl (next_access m k1 a Hlt) I).
      change (access_order m
                (log (run order
                        (mkState [mkThread m k1 (5 + S a); mkThread m k2 (5 + b)]
                           ml cl ((0%nat, Access m a) :: lg))))
              = access_order m lg ++ 0%nat :: order).
      rewrite IH; [| exact Hrest
                   | unfold accesses_of in *; cbn in Ha; lia
                   | unfold accesses_of in *; cbn in Hb; lia].
      cbn [access_order]. rewrite String.eqb_refl, <- app_assoc. reflexivity.
    + assert (Hlt : (b < k2)%nat) by (unfold accesses_of in Hb; cbn in Hb; lia).
      rewrite (step_commit 1 (mkThread m k2 (5 + b)) (Access m b)
                 (mkState [mkThread m k1 (5 + a); mkThread m k2 (5 + b)]
                    ml cl lg)
                 eq_refl (next_access m k2 b Hlt) I).
      change (access_order m
                (log (run order
                        (mkState [mkThread m k1 (5 + a); mkThread m k2 (5 + S b)]
                           ml cl ((1%nat, Access m b) :: lg))))
              = access_order m lg ++ 1%nat :: order).
      rewrite IH; [| exact Hrest
                   | unfold accesses_of in *; cbn in Ha; lia
                   | unfold accesses_of in *; cbn in Hb; lia].
      cbn [access_order]. rewrite String.eqb_refl, <- app_assoc. reflexivity.
Qed.

(** Every order of the accesses of two operations on one cabinet is the
    order of some schedule: both threads obtain their client, one after
    the other, then the scheduler follows the order. *)
Lemma any_order_is_scheduled m k1 k2 order :
  Forall (fun tid => tid < 2)%nat order ->
  (accesses_of 0 order <= k1)%nat ->
  (accesses_of 1 order <= k2)%nat ->
  access_order m
    (log (run ([0; 0; 0; 0; 0] ++ [1; 1; 1; 1; 1] ++ order)%nat
            (spawn [(m, k1); (m, k2)])))
  = order.
Proof.
  intros Hall H0 H1. rewrite !run_app.
  set (s0 := spawn [(m, k1); (m, k2)]).
  destruct (acquire_block 0 m k1 s0 eq_refl eq_refl (lookup_empty _))
    as (T1 & M1 & C1 & L1).
  set (s1 := run [0; 0; 0; 0; 0]%nat s0) in *.
  assert (T1' : threads s1 !! 1%nat = Some (mkThread m k2 0))
    by (rewrite T1; reflexivity).
  destruct (acquire_block 1 m k2 s1 T1' M1 C1) as (T2 & M2 & C2 & L2).
  set (s2 := run [1; 1; 1; 1; 1]%nat s1) in *.
  rewrite T1 in T2.
  specialize (L2 m). rewrite (L1 m) in L2.
  destruct s2 as [th ml cl lg]. cbn [threads log] in T2, L2. subst th.
  change (<[1%nat := mkThread m k2 5]>
            (<[0%nat := mkThread m k1 5]> (threads s0)))
    with [mkThread m k1 (5 + 0); mkThread m k2 (5 + 0)].
  rewrite run_accesses; [|exact Hall|exact H0|exact H1].
  rewrite L2. reflexivity.
Qed.

End InterleavingOrder.

(** C9, as the code has it.  Operations on the same cabinet are not
    serialized.  The locks of [get_machine_client], the manager's
    [_connection_lock] and inside it the connection's [_lock], are held
    around the lookup and the connect only: under every schedule of any
    operations, a thread that is not inside
    [with self._connection_lock] (it has not started, is making its
    register accesses, or has finished) holds neither of them.  The
    register accesses are made with no lock held, and for two operations
    on one cabinet name every order of their accesses, with at most [k1]
    of the first and [k2] of the second, is the order of some schedule;
    so when the first makes at least two accesses and the second at
    least one, there is a schedule in which the accesses are not
    serialized. *)
Theorem same_cabinet_accesses_are_unordered
    (jobs : list (string * nat)) (schedule : list nat)
    (tid : nat) (t : Interleaving.thread)
    (m : string) (k1 k2 : nat) (order : list nat) :
  (Interleaving.threads (Interleaving.run schedule (Interleaving.spawn jobs))
     !! tid = Some t ->
   Interleaving.acquiring t = false ->
   Interleaving.manager_lock
     (Interleaving.run schedule (Interleaving.spawn jobs)) <> Some tid
   /\ forall m',
        Interleaving.client_locks
          (Interleaving.run schedule (Interleaving.spawn jobs)) !! m'
        <> Some tid)
  /\ (Forall (fun tid => tid < 2)%nat order ->
      (Interleaving.accesses_of 0 order <= k1)%nat ->
      (Interleaving.accesses_of 1 order <= k2)%nat ->
      exists schedule',
        Interleaving.access_order m
          (Interleaving.log
             (Interleaving.run schedule'
                (Interleaving.spawn [(m, k1); (m, k2)])))
        = order)
  /\ ((2 <= k1)%nat -> (1 <= k2)%nat ->
      exists schedule',
        Interleaving.serialized m
          (Interleaving.run schedule' (Interleaving.spawn [(m, k1); (m, k2)]))
        = false).
Proof.
  split; [|split].
  - apply InterleavingOrder.idle_thread_holds_no_lock.
  - intros Hall H0 H1. eexists.
    apply InterleavingOrder.any_order_is_scheduled; assumption.
  - intros Hk1 Hk2. eexists. unfold Interleaving.serialized.
    rewrite (InterleavingOrder.any_order_is_scheduled m k1 k2 [0; 1; 0]%nat).
    + reflexivity.
    + repeat constructor.
    + cbn. lia.
    + cbn. lia.
Qed.

Lemma same_cabinet_accesses_are_unordered_witness :
  (Interleaving.manager_lock
     (Interleaving.run [0; 0; 0; 0; 0; 1; 1]%nat
        (Interleaving.spawn [("A", 2%nat); ("A", 2%nat)])) <> Some 0%nat
   /\ forall m',
        Interleaving.client_locks
          (Interleaving.run [0; 0; 0; 0; 0; 1; 1]%nat
             (Interleaving.spawn [("A", 2%nat); ("A", 2%nat)])) !! m'
        <> Some 0%nat)
  /\ (exists schedule',
        Interleaving.access_order "A"
          (Interleaving.log
             (Interleaving.run schedule'
                (Interleaving.spawn [("A", 2%nat); ("A", 2%nat)])))
        = [1; 0; 0; 1]%nat)
  /\ (exists schedule',
        Interleaving.serialized "A"
          (Interleaving.run schedule'
             (Interleaving.spawn [("A", 2%nat); ("A", 2%nat)]))
        = false).
Proof.
  destruct (same_cabinet_accesses_are_unordered
              [("A", 2%nat); ("A", 2%nat)] [0; 0; 0; 0; 0; 1; 1]%nat 0%nat
              (Interleaving.mkThread "A" 2 5) "A" 2%nat 2%nat [1; 1; 1; 1]%nat)
    as (Hlocks & _ & _).
  destruct (same_cabinet_accesses_are_unordered
              [("A", 2%nat); ("A", 2%nat)] [0; 0; 0; 0; 0; 1; 1]%nat 0%nat
              (Interleaving.mkThread "A" 2 5) "A" 2%nat 2%nat [1; 0; 0; 1]%nat)
    as (_ & Horder & Hserial).
  split; [|split].
  - apply Hlocks; vm_compute; reflexivity.
  - apply Horder.
    + repeat constructor.
    + vm_compute. lia.
    + vm_compute. lia.
  - apply Hserial; lia.
Defined.

(** C9 as stated fails: two operations on cabinet "A", two register
    accesses each.  Each thread obtains its client in turn, then the
    scheduler alternates; both threads run to their end and the accesses
    happen in the order thread 0, thread 1, thread 0, thread 1, so the
    first access of the second operation precedes the last access of the
    first. *)
Lemma same_cabinet_accesses_interleave :
  Interleaving.access_order "A"
    (Interleaving.log
       (Interleaving.run [0; 0; 0; 0; 0; 1; 1; 1; 1; 1; 0; 1; 0; 1]%nat
          (Interleaving.spawn [("A", 2%nat); ("A", 2%nat)])))
  = [0; 1; 0; 1]%nat
  /\ Interleaving.serialized "A"
       (Interleaving.run [0; 0; 0; 0; 0; 1; 1; 1; 1; 1; 0; 1; 0; 1]%nat
          (Interleaving.spawn [("A", 2%nat); ("A", 2%nat)]))
     = false
  /\ map Interleaving.pc
       (Interleaving.threads
          (Interleaving.run [0; 0; 0; 0; 0; 1; 1; 1; 1; 1; 0; 1; 0; 1]%nat
             (Interleaving.spawn [("A", 2%nat); ("A", 2%nat)])))
     = [7; 7]%nat.
Proof. vm_compute. repeat split; reflexivity. Qed.

(* ================================================================== *)
(** * Further properties of the client                                 *)
(* ================================================================== *)

Lemma write_fails_shift plc a v k (P : nat -> Prop) :
  on_write plc k a v = ErrorReply \/ on_write plc k a v = Throws ->
  (forall i, P i -> write_fails plc a v (S k + i)) ->
  forall i, (i = 0%nat \/ exists i', i = S i' /\ P i') ->
  write_fails plc a v (k + i).
Proof.
  intros E H i [->|(i' & -> & Hi)].
  - unfold write_fails. rewrite Nat.add_0_r.
    destruct E as [E|E]; rewrite E; discriminate.
  - replace (k + S i')%nat with (S k + i')%nat by lia. auto.
Qed.

Lemma write_attempts_spec plc self a v n attempt w :
  exists ok w' j,
    write_attempts plc self a v n attempt w = (Val ok, w') /\
    (j <= n)%nat /\ reqs w' = (reqs w + j)%nat /\
    (forall i, (i + 1 < j)%nat -> write_fails plc a v (reqs w + i)) /\
    if ok : bool
    then (1 <= j)%nat /\ on_write plc (reqs w + j - 1) a v = Reply tt
    else j = n /\ forall i, (i < n)%nat -> write_fails plc a v (reqs w + i).
Proof.
  revert attempt w. induction n as [|n IH]; intros attempt w.
  - exists false, w, 0%nat. simpl.
    split; [reflexivity|]. split; [lia|]. split; [lia|].
    split; [intros; lia|]. split; [reflexivity | intros; lia].
  - simpl. unfold bind at 1. unfold tx_write at 1.
    set (w1 := mkWorld _ _ _).
    assert (Hstep : forall w2, reqs w2 = S (reqs w) ->
              on_write plc (reqs w) a v = ErrorReply
              \/ on_write plc (reqs w) a v = Throws ->
              exists ok w' j,
                write_attempts plc self a v n (attempt + 1) w2 = (Val ok, w') /\
                (j <= S n)%nat /\ reqs w' = (reqs w + j)%nat /\
                (forall i, (i + 1 < j)%nat -> write_fails plc a v (reqs w + i)) /\
                if ok : bool
                then (1 <= j)%nat /\ on_write plc (reqs w + j - 1) a v = Reply tt
                else j = S n /\
                     forall i, (i < S n)%nat -> write_fails plc a v (reqs w + i)).
    { intros w2 Hr2 E.
      destruct (IH (attempt + 1) w2) as (ok & w' & j & Hrun & Hj & Hreq & Hpre & Hres).
      exists ok, w', (S j). rewrite Hr2 in *.
      split; [exact Hrun|]. split; [lia|]. split; [lia|]. split.
      - intros i Hi.
        apply (write_fails_shift plc a v (reqs w) (fun i' => (i' + 1 < j)%nat) E Hpre).
        destruct i as [|i']; [left; reflexivity
                             | right; exists i'; split; [reflexivity|lia]].
      - destruct ok.
        + destruct Hres as [H1 H2]. split; [lia|].
          replace (reqs w + S j - 1)%nat with (S (reqs w) + j - 1)%nat by lia.
          exact H2.
        + destruct Hres as [H1 H2]. split; [lia|]. intros i Hi.
          apply (write_fails_shift plc a v (reqs w) (fun i' => (i' < n)%nat) E H2).
          destruct i as [|i']; [left; reflexivity
                               | right; exists i'; split; [reflexivity|lia]]. }
    destruct (on_write plc (reqs w) a v) as [[]| |] eqn:E.
    + exists true, w1, 1%nat. unfold ret.
      split; [reflexivity|]. split; [lia|]. split; [subst w1; simpl; lia|].
      split; [intros; lia|]. split; [lia|].
      replace (reqs w + 1 - 1)%nat with (reqs w) by lia. exact E.
    + apply Hstep; [reflexivity | left; reflexivity].
    + unfold bind at 1.
      destruct (attempt <? retry_count self - 1).
      * unfold sleep. simpl. apply Hstep; [reflexivity | right; reflexivity].
      * unfold ret. apply Hstep; [reflexivity | right; reflexivity].
Qed.

(** X1.  [write_holding_register] always returns, after at most
    [retry_count] write requests.  [True] means that its last request was
    accepted and every earlier one of the call failed.  [False] means
    either that the client is not connected and nothing was sent, or that
    it is connected and exactly [retry_count] requests were sent and all
    failed. *)
Theorem write_holding_register_retry
    (plc : PLC) (self : ModbusClient) (a v : Z) (w : World) :
  exists ok w' j,
    write_holding_register plc self a v w = (Val ok, w') /\
    reqs w' = (reqs w + j)%nat /\
    (j <= Z.to_nat (retry_count self))%nat /\
    (forall i, (i + 1 < j)%nat -> write_fails plc a v (reqs w + i)) /\
    if ok : bool
    then (1 <= j)%nat /\ on_write plc (reqs w + j - 1) a v = Reply tt
    else (is_connected self = false /\ j = 0%nat)
         \/ (is_connected self = true /\ j = Z.to_nat (retry_count self) /\
             forall i, (i < j)%nat -> write_fails plc a v (reqs w + i)).
Proof.
  unfold write_holding_register. destruct (is_connected self) eqn:Hc; simpl.
  - destruct (write_attempts_spec plc self a v (Z.to_nat (retry_count self)) 0 w)
      as (ok & w' & j & Hrun & Hj & Hreq & Hpre & Hres).
    exists ok, w', j. split; [exact Hrun|]. split; [exact Hreq|].
    split; [exact Hj|]. split; [exact Hpre|].
    destruct ok; [exact Hres|]. right. destruct Hres as [-> H].
    split; [reflexivity|]. split; [reflexivity|exact H].
  - exists false, w, 0%nat. unfold ret.
    split; [reflexivity|]. split; [lia|]. split; [lia|].
    split; [intros; lia|]. left. split; reflexivity.
Qed.

Lemma SYSTEM_STATUS_address_value : SYSTEM_STATUS_address = 0xBCD.
Proof. vm_compute. reflexivity. Qed.

(** X2.  A wait on a register that already holds the expected value
    returns [True] at once: on a connected client with a positive
    [retry_count] and a positive timeout, when the first read request of
    the wait replies the expected value, the wait ends after that single
    request and single poll, without any sleep; the clock has advanced by
    the latency of that request only. *)
Theorem wait_returns_at_once_on_match
    (plc : PLC) (self : ModbusClient) (name : string) (a expected timeout : Z)
    (w : World) :
  is_connected self = true ->
  0 < retry_count self ->
  0 < timeout ->
  REGISTER_MAP !! name = Some a ->
  on_read plc (reqs w) a = Reply expected ->
  wait_for_register_value plc self name expected timeout w
  = (Val true,
     mkWorld (now w + Z.of_nat (latency plc (reqs w))) (S (reqs w))
       (TxRead a (Reply expected) :: Called (ReadByName name)
        :: Called (WaitValue name expected timeout) :: trace w)).
Proof.
  intros Hconn Hretry Htime Hname Hreply.
  unfold wait_for_register_value, called. unfold bind at 1. unfold push at 1.
  unfold bind at 1. unfold time_time at 1. cbn [now reqs trace].
  unfold wait_fuel. cbn [wait_value_loop].
  unfold bind at 1. unfold time_time at 1. cbn [now reqs trace].
  destruct (Z.ltb_spec (now w - now w) (1000 * timeout)) as [_|Hge]; [|lia].
  unfold bind at 1.
  unfold read_register_by_name, called. unfold bind at 1. unfold push at 1.
  rewrite Hname. unfold read_holding_register. rewrite Hconn. cbn [negb].
  destruct (Z.to_nat (retry_count self)) as [|k] eqn:Hk; [lia|].
  cbn [read_attempts]. unfold bind at 1. unfold tx_read at 1.
  cbn [now reqs trace]. rewrite Hreply. unfold ret at 1.
  cbn [opt_eqb]. rewrite Z.eqb_refl. reflexivity.
Qed.

Lemma wait_returns_at_once_on_match_witness :
  wait_for_register_value (script_plc [11]) client0 "DOOR_CONTROL" 11 30 world0
  = (Val true,
     mkWorld (now world0 + Z.of_nat (latency (script_plc [11]) (reqs world0)))
       (S (reqs world0))
       (TxRead 0xBB8 (Reply 11) :: Called (ReadByName "DOOR_CONTROL")
        :: Called (WaitValue "DOOR_CONTROL" 11 30) :: trace world0)).
Proof.
  apply (wait_returns_at_once_on_match (script_plc [11]) client0 "DOOR_CONTROL"
           0xBB8 11 30 world0).
  - reflexivity.
  - reflexivity.
  - reflexivity.
  - vm_compute. reflexivity.
  - reflexivity.
Defined.

(** X3.  With a timeout that is zero or negative the wait gives up
    before its first poll: it returns [False] in the world it was called
    in, with nothing but the call itself added to the trace. *)
Theorem wait_without_time_polls_nothing
    (plc : PLC) (self : ModbusClient) (name : string) (expected timeout : Z)
    (w : World) :
  timeout <= 0 ->
  wait_for_register_value plc self name expected timeout w
  = (Val false,
     mkWorld (now w) (reqs w)
       (Called (WaitValue name expected timeout) :: trace w)).
Proof.
  intros Htime.
  unfold wait_for_register_value, called. unfold bind at 1. unfold push at 1.
  unfold bind at 1. unfold time_time at 1. cbn [now reqs trace].
  unfold wait_fuel. cbn [wait_value_loop].
  unfold bind at 1. unfold time_time at 1. cbn [now reqs trace].
  destruct (Z.ltb_spec (now w - now w) (1000 * timeout)) as [Hlt|_]; [lia|].
  reflexivity.
Qed.

Lemma wait_without_time_polls_nothing_witness :
  wait_for_register_value (script_plc [11]) client0 "DOOR_CONTROL" 11 0 world0
  = (Val false,
     mkWorld (now world0) (reqs world0)
       (Called (WaitValue "DOOR_CONTROL" 11 0) :: trace world0)).
Proof.
  apply (wait_without_time_polls_nothing (script_plc [11]) client0
           "DOOR_CONTROL" 11 0 world0).
  lia.
Defined.

(* ================================================================== *)
(** * Further properties of the base controller                        *)
(* ================================================================== *)

Lemma read_retry_loop_spec plc mc name max_retries n : forall attempt w,
  exists r w' j,
    read_retry_loop plc mc name max_retries n attempt w = (Val r, w') /\
    (j <= n)%nat /\
    count (is_poll name) (trace w')
    = (count (is_poll name) (trace w) + j)%nat /\
    (r = None -> j = n) /\
    (forall v, r = Some v ->
       (1 <= j)%nat /\
       exists a rest, REGISTER_MAP !! name = Some a /\
         trace w' = TxRead a (Reply v) :: rest).
Proof.
  induction n as [|n IH]; intros attempt w.
  - exists None, w, 0%nat. cbn [read_retry_loop]. unfold ret.
    split; [reflexivity|]. split; [lia|]. split; [lia|].
    split; [reflexivity|]. discriminate.
  - cbn [read_retry_loop]. unfold bind at 1. unfold try_except at 1.
    destruct (read_register_by_name_spec plc mc name w)
      as (r & w1 & Hrun & _ & Hcnt & Hval).
    rewrite Hrun. destruct r as [v|].
    + exists (Some v), w1, 1%nat. unfold ret.
      split; [reflexivity|]. split; [lia|]. split; [lia|].
      split; [discriminate|]. intros v' Hv'. inversion Hv'; subst v'.
      split; [lia|]. destruct (Hval v eq_refl) as (a & rest & k & Ha & Ht & _).
      eauto.
    + assert (Hs : exists w2,
               (if attempt <? max_retries - 1 then sleep 500 else ret tt) w1
               = (Val tt, w2)
               /\ count (is_poll name) (trace w2) = count (is_poll name) (trace w1)).
      { destruct (attempt <? max_retries - 1).
        - unfold sleep. cbn. eexists. split; reflexivity.
        - unfold ret. eexists. split; reflexivity. }
      destruct Hs as (w2 & Hs & Hc2). unfold bind at 1. rewrite Hs.
      destruct (IH (attempt + 1) w2) as (r & w' & j & Hloop & Hj & Hc & Hnone & Hsome).
      exists r, w', (S j). split; [exact Hloop|]. split; [lia|].
      split; [lia|]. split; [intros Hr; specialize (Hnone Hr); lia|].
      intros v Hv. destruct (Hsome v Hv) as (H1 & Hrest). split; [lia|exact Hrest].
Qed.

(** X4.  [read_register_with_retry] always returns, after at most
    [max_retries] polls of the register.  A value it returns is the reply
    to the read request it made last; [None] comes only after exactly
    [max_retries] polls (none at all when [max_retries] is zero or
    negative).  It never attempts a write. *)
Theorem read_register_with_retry_bounded
    (plc : PLC) (mc : ModbusClient) (name : string) (max_retries : Z)
    (w : World) :
  exists r w',
    read_register_with_retry plc mc name max_retries w = (Val r, w') /\
    polls name w <= polls name w' <= polls name w + Z.max 0 max_retries /\
    (r = None -> polls name w' = polls name w + Z.max 0 max_retries) /\
    (forall v, r = Some v ->
       polls name w < polls name w' /\
       exists a rest, REGISTER_MAP !! name = Some a /\
         trace w' = TxRead a (Reply v) :: rest) /\
    count is_write (trace w') = count is_write (trace w).
Proof.
  unfold read_register_with_retry.
  destruct (read_retry_loop_spec plc mc name max_retries
              (Z.to_nat max_retries) 0 w)
    as (r & w' & j & Hrun & Hj & Hc & Hnone & Hsome).
  exists r, w'. split; [exact Hrun|]. unfold polls. rewrite Hc.
  split; [lia|]. split; [intros Hr; specialize (Hnone Hr); lia|]. split.
  - intros v Hv. destruct (Hsome v Hv) as (H1 & Hrest). split; [lia|exact Hrest].
  - pose proof (frame_count is_write _
                  (frame_read_register_with_retry_write plc mc name max_retries) w)
      as H.
    unfold read_register_with_retry in H. rewrite Hrun in H. exact H.
Qed.

(* ================================================================== *)
(** * What a run has seen on the wire                                  *)
(* ================================================================== *)

Section Seen.

Variable plc : PLC.
Variable self : ModbusClient.

Lemma read_attempts_seen a v n attempt w w' :
  read_attempts plc self a n attempt w = (Val (Some v), w') ->
  (count (is_read_reply a v) (trace w)
   < count (is_read_reply a v) (trace w'))%nat.
Proof.
  revert attempt w. induction n as [|n IH]; intros attempt w; simpl.
  - unfold ret. intros H. inversion H.
  - unfold bind at 1. unfold tx_read at 1.
    destruct (on_read plc (reqs w) a) as [v0| |] eqn:E.
    + unfold ret. intros H. inversion H; subst. simpl.
      rewrite !Z.eqb_refl. simpl. lia.
    + intros H. apply IH in H. simpl in H. exact H.
    + unfold bind.
      destruct (attempt <? retry_count self - 1); simpl;
        intros H; apply IH in H; simpl in H; exact H.
Qed.

(** A value returned by [read_register_by_name] was replied to a read
    request made by that very call. *)
Lemma read_register_by_name_seen name a v w w' :
  REGISTER_MAP !! name = Some a ->
  read_register_by_name plc self name w = (Val (Some v), w') ->
  (count (is_read_reply a v) (trace w)
   < count (is_read_reply a v) (trace w'))%nat.
Proof.
  intros Ha. unfold read_register_by_name, called.
  unfold bind at 1. unfold push at 1. rewrite Ha.
  unfold read_holding_register.
  destruct (negb (is_connected self)); [unfold ret; intros H; inversion H|].
  intros H. apply read_attempts_seen in H. simpl in H. exact H.
Qed.

Lemma wait_value_loop_seen name a expected timeout start fuel : forall w w',
  REGISTER_MAP !! name = Some a ->
  wait_value_loop plc self name expected timeout start fuel w = (Val true, w') ->
  (count (is_read_reply a expected) (trace w)
   < count (is_read_reply a expected) (trace w'))%nat.
Proof.
  induction fuel as [|fuel IH]; intros w w' Ha; simpl.
  - intros H. inversion H.
  - unfold bind at 1. unfold time_time at 1.
    destruct (now w - start <? 1000 * timeout);
      [|unfold ret; intros H; inversion H].
    unfold bind at 1.
    destruct (returns_read_register_by_name plc self name w) as (r & w1 & Hr).
    rewrite Hr.
    destruct (opt_eqb r expected) eqn:He.
    + unfold ret. intros H. inversion H; subst w'.
      apply opt_eqb_true in He. subst r.
      eapply read_register_by_name_seen; eauto.
    + unfold bind at 1. unfold sleep at 1. simpl.
      intros H. apply (IH _ _ Ha) in H. simpl in H.
      pose proof (count_mono (fun _ => True) (is_read_reply a expected)
                    (read_register_by_name plc self name) w
                    ltac:(apply frame_read_register_by_name; auto)) as Hm.
      rewrite Hr in Hm. simpl in Hm. lia.
Qed.

(** When [wait_for_register_value] returns [True], a read request of
    that very wait replied the expected value. *)
Lemma wait_for_register_value_seen name a expected timeout w w' :
  REGISTER_MAP !! name = Some a ->
  wait_for_register_value plc self name expected timeout w = (Val true, w') ->
  (count (is_read_reply a expected) (trace w)
   < count (is_read_reply a expected) (trace w'))%nat.
Proof.
  intros Ha. unfold wait_for_register_value, called.
  unfold bind at 1. unfold push at 1. unfold bind at 1. unfold time_time at 1.
  intros H. apply (wait_value_loop_seen _ _ _ _ _ _ _ _ Ha) in H.
  simpl in H. exact H.
Qed.

Lemma write_attempts_seen a v n attempt w w' :
  write_attempts plc self a v n attempt w = (Val true, w') ->
  (count (is_accepted_write a v) (trace w)
   < count (is_accepted_write a v) (trace w'))%nat.
Proof.
  revert attempt w. induction n as [|n IH]; intros attempt w; simpl.
  - unfold ret. intros H. inversion H.
  - unfold bind at 1. unfold tx_write at 1.
    destruct (on_write plc (reqs w) a v) as [u| |] eqn:E.
    + unfold ret. intros H. inversion H; subst. simpl.
      rewrite !Z.eqb_refl. simpl. lia.
    + intros H. apply IH in H. simpl in H. exact H.
    + unfold bind.
      destruct (attempt <? retry_count self - 1); simpl;
        intros H; apply IH in H; simpl in H; exact H.
Qed.

(** When [write_register_by_name] returns [True], a write request of
    that very call was accepted by the device. *)
Lemma write_register_by_name_seen name a v w w' :
  REGISTER_MAP !! name = Some a ->
  write_register_by_name plc self name v w = (Val true, w') ->
  (count (is_accepted_write a v) (trace w)
   < count (is_accepted_write a v) (trace w'))%nat.
Proof.
  intros Ha. unfold write_register_by_name, called.
  unfold bind at 1. unfold push at 1. rewrite Ha.
  unfold write_holding_register.
  destruct (negb (is_connected self)); [unfold ret; intros H; inversion H|].
  intros H. apply write_attempts_seen in H. simpl in H. exact H.
Qed.

Lemma seen_write_register_by_name (p : event -> bool) name v w :
  (count p (trace w)
   <= count p (trace (snd (write_register_by_name plc self name v w))))%nat.
Proof.
  apply (count_mono (fun _ => True)).
  apply frame_write_register_by_name; auto.
Qed.

Lemma seen_wait_for_register_value (p : event -> bool) name expected timeout w :
  (count p (trace w)
   <= count p (trace (snd (wait_for_register_value plc self name expected
                             timeout w))))%nat.
Proof.
  apply (count_mono (fun _ => True)).
  apply frame_wait_for_register_value; auto.
Qed.

End Seen.

(* ================================================================== *)
(** * Further properties of the door                                   *)
(* ================================================================== *)

Section Door.

Variable plc : PLC.
Variable mc : ModbusClient.

Lemma write_attempts_true a v n attempt w w' :
  write_attempts plc mc a v n attempt w = (Val true, w') ->
  exists k, on_write plc k a v = Reply tt.
Proof.
  intros H.
  destruct (write_attempts_spec plc mc a v n attempt w)
    as (ok & w2 & j & Hrun & _ & _ & _ & Hres).
  rewrite H in Hrun. inversion Hrun; subst ok w2.
  destruct Hres as [_ Hk]. eauto.
Qed.

(** An accepted [write_register_by_name]: the name is known, the client
    is connected and some write request of the value was accepted. *)
Lemma write_register_by_name_true name v w w' :
  write_register_by_name plc mc name v w = (Val true, w') ->
  is_connected mc = true /\
  exists a k, REGISTER_MAP !! name = Some a /\ on_write plc k a v = Reply tt.
Proof.
  unfold write_register_by_name, called. unfold bind at 1. unfold push at 1.
  destruct (REGISTER_MAP !! name) as [a|]; [|unfold ret; intros H; inversion H].
  unfold write_holding_register.
  destruct (is_connected mc); cbn [negb]; [|unfold ret; intros H; inversion H].
  intros H. split; [reflexivity|].
  destruct (write_attempts_true _ _ _ _ _ _ H) as (k & Hk). eauto.
Qed.

Lemma check_connection_true w w' :
  check_connection plc mc w = (Val true, w') -> is_connected mc = true.
Proof.
  unfold check_connection. destruct (is_connected mc); [reflexivity|].
  cbn [negb]. unfold ret. intros H. inversion H.
Qed.

(** The write-then-wait body shared by [open_door] and [close_door]:
    when it gives [True], a write of the command made by this run was
    accepted, a read made by this run replied the completion code, and
    that read is the newest event. *)
Lemma door_handshake_true command complete timeout (w w' : World) :
  try_except
    (written <- write_register_by_name plc mc "DOOR_CONTROL" command ;;
     if negb written then ret false
     else
       done <- wait_for_register_value plc mc "DOOR_CONTROL" complete timeout ;;
       if done then ret true else ret false)
    (fun _ => ret false) w = (Val true, w') ->
  (count (is_accepted_write 0xBB8 command) (trace w)
   < count (is_accepted_write 0xBB8 command) (trace w'))%nat
  /\ (count (is_read_reply 0xBB8 complete) (trace w)
      < count (is_read_reply 0xBB8 complete) (trace w'))%nat
  /\ (exists rest, trace w' = TxRead 0xBB8 (Reply complete) :: rest).
Proof.
  assert (Ha : REGISTER_MAP !! "DOOR_CONTROL" = Some 0xBB8)
    by (vm_compute; reflexivity).
  unfold try_except. unfold bind at 1.
  destruct (returns_write_register_by_name plc mc "DOOR_CONTROL" command w)
    as (written & w1 & Hw).
  rewrite Hw. destruct written; cbn [negb];
    [|unfold ret; intros H; inversion H].
  unfold bind at 1.
  destruct (wait_for_register_value_spec plc mc "DOOR_CONTROL" complete timeout w1)
    as (fin & w2 & Hwait & _ & Hmatch & _).
  rewrite Hwait. destruct fin; [|unfold ret; intros H; inversion H].
  unfold ret. intros H. inversion H; subst w'.
  pose proof (write_register_by_name_seen plc mc _ _ _ _ _ Ha Hw) as Hw1.
  pose proof (wait_for_register_value_seen plc mc _ _ _ _ _ _ Ha Hwait) as Hr2.
  pose proof (seen_wait_for_register_value plc mc
                (is_accepted_write 0xBB8 command) "DOOR_CONTROL" complete
                timeout w1) as Hw2.
  pose proof (seen_write_register_by_name plc mc
                (is_read_reply 0xBB8 complete) "DOOR_CONTROL" command w) as Hr1.
  rewrite Hwait in Hw2. rewrite Hw in Hr1. cbn [snd] in Hw2, Hr1.
  split; [lia|]. split; [lia|].
  destruct (Hmatch eq_refl) as (a' & rest & k' & Ha' & Ht & _).
  assert (a' = 0xBB8) as -> by congruence.
  eauto.
Qed.

(** What [True] from a door operation rests on, given the command it
    writes and the completion code it waits for. *)
Lemma door_operation_true (marker : call) command complete timeout w w' :
  (called marker ;;;
   ok <- check_connection plc mc ;;
   if negb ok then ret false
   else
     try_except
       (written <- write_register_by_name plc mc "DOOR_CONTROL" command ;;
        if negb written then ret false
        else
          done <- wait_for_register_value plc mc "DOOR_CONTROL" complete
                    timeout ;;
          if done then ret true else ret false)
       (fun _ => ret false))%py w = (Val true, w') ->
  is_connected mc = true
  /\ (count (is_accepted_write 0xBB8 command) (trace w)
      < count (is_accepted_write 0xBB8 command) (trace w'))%nat
  /\ (count (is_read_reply 0xBB8 complete) (trace w)
      < count (is_read_reply 0xBB8 complete) (trace w'))%nat
  /\ (exists rest, trace w' = TxRead 0xBB8 (Reply complete) :: rest).
Proof.
  unfold called. unfold bind at 1. unfold push at 1. unfold bind at 1.
  destruct (returns_check_connection plc mc
              (mkWorld (now w) (reqs w) (Called marker :: trace w)))
    as (ok & w0 & Hc).
  rewrite Hc. destruct ok; cbn [negb]; [|unfold ret; intros H; inversion H].
  intros H.
  destruct (door_handshake_true _ _ _ _ _ H) as (Hw & Hr & Hhead).
  assert (F : frame (fun _ => True) (check_connection plc mc))
    by (apply frame_check_connection; auto).
  pose proof (count_mono _ (is_accepted_write 0xBB8 command) _
                (mkWorld (now w) (reqs w) (Called marker :: trace w)) F) as M1.
  pose proof (count_mono _ (is_read_reply 0xBB8 complete) _
                (mkWorld (now w) (reqs w) (Called marker :: trace w)) F) as M2.
  rewrite Hc in M1, M2. simpl in M1, M2.
  split; [eapply check_connection_true; eauto|].
  split; [lia|]. split; [lia|exact Hhead].
Qed.

End Door.

(** X5.  A door operation reports success only on evidence of its own.
    When [open_door] returns [True], the client is connected, a write of
    the open command 10 to the door register 0xBB8 made by this call was
    accepted, a read of 0xBB8 made by this call replied 11 (open
    complete), and that read is the newest event of the trace.  When
    [close_door] returns [True], the same holds with the command 20 and
    the reply 21. *)
Theorem door_success_is_confirmed
    (plc : PLC) (mc : ModbusClient) (timeout : Z) (w w' : World) :
  (open_door plc mc timeout w = (Val true, w') ->
   is_connected mc = true
   /\ (count (is_accepted_write 0xBB8 10) (trace w)
       < count (is_accepted_write 0xBB8 10) (trace w'))%nat
   /\ (count (is_read_reply 0xBB8 11) (trace w)
       < count (is_read_reply 0xBB8 11) (trace w'))%nat
   /\ (exists rest, trace w' = TxRead 0xBB8 (Reply 11) :: rest))
  /\ (close_door plc mc timeout w = (Val true, w') ->
      is_connected mc = true
      /\ (count (is_accepted_write 0xBB8 20) (trace w)
          < count (is_accepted_write 0xBB8 20) (trace w'))%nat
      /\ (count (is_read_reply 0xBB8 21) (trace w)
          < count (is_read_reply 0xBB8 21) (trace w'))%nat
      /\ (exists rest, trace w' = TxRead 0xBB8 (Reply 21) :: rest)).
Proof.
  split.
  - replace 10 with (OP "DOOR_OPEN") by (vm_compute; reflexivity).
    replace 11 with (OP "DOOR_OPEN_COMPLETE") by (vm_compute; reflexivity).
    unfold open_door. apply door_operation_true.
  - replace 20 with (OP "DOOR_CLOSE") by (vm_compute; reflexivity).
    replace 21 with (OP "DOOR_CLOSE_COMPLETE") by (vm_compute; reflexivity).
    unfold close_door. apply door_operation_true.
Qed.

Lemma door_success_is_confirmed_witness :
  (is_connected client0 = true
   /\ (count (is_accepted_write 0xBB8 10) (trace world0)
       < count (is_accepted_write 0xBB8 10)
           (trace (snd (open_door (script_plc [0; 0; 11]%Z) client0 30 world0))))%nat
   /\ (count (is_read_reply 0xBB8 11) (trace world0)
       < count (is_read_reply 0xBB8 11)
           (trace (snd (open_door (script_plc [0; 0; 11]%Z) client0 30 world0))))%nat
   /\ (exists rest,
         trace (snd (open_door (script_plc [0; 0; 11]%Z) client0 30 world0))
         = TxRead 0xBB8 (Reply 11) :: rest))
  /\ (is_connected client0 = true
      /\ (count (is_accepted_write 0xBB8 20) (trace world0)
          < count (is_accepted_write 0xBB8 20)
              (trace (snd (close_door (script_plc [0; 0; 21]%Z) client0 30
                             world0))))%nat
      /\ (count (is_read_reply 0xBB8 21) (trace world0)
          < count (is_read_reply 0xBB8 21)
              (trace (snd (close_door (script_plc [0; 0; 21]%Z) client0 30
                             world0))))%nat
      /\ (exists rest,
            trace (snd (close_door (script_plc [0; 0; 21]%Z) client0 30 world0))
            = TxRead 0xBB8 (Reply 21) :: rest)).
Proof.
  split.
  - apply (door_success_is_confirmed (script_plc [0; 0; 11]%Z) client0 30 world0
             (snd (open_door (script_plc [0; 0; 11]%Z) client0 30 world0))).
    vm_compute. reflexivity.
  - apply (door_success_is_confirmed (script_plc [0; 0; 21]%Z) client0 30 world0
             (snd (close_door (script_plc [0; 0; 21]%Z) client0 30 world0))).
    vm_compute. reflexivity.
Defined.

(** X6.  The door operations write nothing but their own command: every
    write request that [open_door] puts on the wire is a write of 10 to
    register 0xBB8, and every one of [close_door] a write of 20 to
    0xBB8. *)
Theorem door_writes_only_its_command
    (plc : PLC) (mc : ModbusClient) (timeout : Z) (w : World) :
  count (is_other_write 0xBB8 10) (trace (snd (open_door plc mc timeout w)))
  = count (is_other_write 0xBB8 10) (trace w)
  /\ count (is_other_write 0xBB8 20) (trace (snd (close_door plc mc timeout w)))
     = count (is_other_write 0xBB8 20) (trace w).
Proof.
  split.
  - apply frame_count. unfold open_door. frame_tac.
  - apply frame_count. unfold close_door. frame_tac.
Qed.

(** X7.  When the connection check fails, because the client is not
    connected or because the probe read of the system status (0xBCD) is
    not answered with a value, [open_door] and [close_door] return
    [False] without any write attempt: the door is not commanded. *)
Theorem door_unreachable_fails_without_write
    (plc : PLC) (mc : ModbusClient) (timeout : Z) (w : World) :
  is_connected mc = false
  \/ (forall v, on_read plc (reqs w) 0xBCD <> Reply v) ->
  fst (open_door plc mc timeout w) = Val false
  /\ fst (close_door plc mc timeout w) = Val false
  /\ count is_write (trace (snd (open_door plc mc timeout w)))
     = count is_write (trace w)
  /\ count is_write (trace (snd (close_door plc mc timeout w)))
     = count is_write (trace w).
Proof.
  intros Hdown.
  assert (Hcheck : forall e,
            exists w1,
              check_connection plc mc
                (mkWorld (now w) (reqs w) (e :: trace w)) = (Val false, w1)
              /\ count is_write (trace w1) = count is_write (e :: trace w)).
  { intros e. unfold check_connection.
    destruct (is_connected mc) eqn:Hc; cbn [negb].
    - destruct Hdown as [Hd|Hd]; [discriminate|].
      unfold bind, tx_read. cbn [now reqs trace].
      rewrite SYSTEM_STATUS_address_value.
      destruct (on_read plc (reqs w) 0xBCD) as [v| |] eqn:E.
      + exfalso. apply (Hd v). reflexivity.
      + eexists. split; reflexivity.
      + eexists. split; reflexivity.
    - eexists. split; reflexivity. }
  unfold open_door, close_door, called.
  unfold bind at 1 3 5 7. unfold push at 1 2 3 4.
  destruct (Hcheck (Called OpenDoor)) as (wo & Ho & Hco).
  destruct (Hcheck (Called CloseDoor)) as (wc & Hcl & Hcc).
  unfold bind. rewrite Ho, Hcl. cbn [negb fst snd]. unfold ret. cbn [fst snd].
  repeat split; assumption.
Qed.

Lemma door_unreachable_fails_without_write_witness :
  fst (open_door dead_plc client0 30 world0) = Val false
  /\ fst (close_door dead_plc client0 30 world0) = Val false
  /\ count is_write (trace (snd (open_door dead_plc client0 30 world0)))
     = count is_write (trace world0)
  /\ count is_write (trace (snd (close_door dead_plc client0 30 world0)))
     = count is_write (trace world0).
Proof.
  apply (door_unreachable_fails_without_write dead_plc client0 30 world0).
  right. intros v H. simpl in H. discriminate.
Defined.

(* ================================================================== *)
(** * Further properties of the storage state machine                  *)
(* ================================================================== *)

Section StorageMore.

Variable plc : PLC.
Variable ucd : UCD.
Variable mc : ModbusClient.

Lemma returns_read_register_with_retry name n :
  returns (read_register_with_retry plc mc name n).
Proof.
  intros w. unfold read_register_with_retry.
  destruct (read_retry_loop_spec plc mc name n (Z.to_nat n) 0 w)
    as (r & w' & j & H & _).
  eauto.
Qed.

Lemma returns_check_storage_capacity :
  returns (check_storage_capacity plc mc).
Proof.
  unfold check_storage_capacity. apply returns_try; [|intros _; apply returns_ret].
  apply returns_halts.
  apply returns_bind; [apply returns_read_register_with_retry|].
  intros [st|]; [|apply returns_ret].
  destruct (st =? OP "STORAGE_FULL"); [apply returns_ret|].
  destruct (st =? OP "STORAGE_AVAILABLE"); apply returns_ret.
Qed.

Lemma returns_open_door timeout : returns (open_door plc mc timeout).
Proof. unfold open_door, called. halt_tac. Qed.

(** With [modbus_client] unbound the landing confirmation fails at once. *)
Lemma confirm_drone_landing_unbound timeout w :
  confirm_drone_landing plc None timeout w
  = (Val false, mkWorld (now w) (reqs w) (Called ConfirmLanding :: trace w)).
Proof. reflexivity. Qed.

Lemma storage_prepare_unbound code w :
  exists w',
    storage_prepare plc ucd mc None code w = (Val false, w')
    /\ count (is_write_outside 0xBB8) (trace w')
       = count (is_write_outside 0xBB8) (trace w).
Proof.
  unfold storage_prepare. unfold bind at 1.
  destruct (returns_check_storage_capacity w) as (cap & w1 & Hcap).
  pose proof (frame_count (is_write_outside 0xBB8) (check_storage_capacity plc mc)
                ltac:(unfold check_storage_capacity; frame_tac) w) as F1.
  rewrite Hcap in F1 |- *. cbn [snd] in F1.
  destruct (negb (default false cap)); [exists w1; split; [reflexivity|exact F1]|].
  unfold bind at 1.
  destruct (returns_open_door 30 w1) as (opened & w2 & Hopen).
  pose proof (frame_count (is_write_outside 0xBB8) (open_door plc mc 30)
                ltac:(unfold open_door; frame_tac) w1) as F2.
  rewrite Hopen in F2 |- *. cbn [snd] in F2.
  destruct opened; cbn [negb];
    [|exists w2; split; [reflexivity|congruence]].
  unfold bind at 1. rewrite confirm_drone_landing_unbound. cbn [negb].
  unfold bind at 1.
  set (w3 := mkWorld _ _ _).
  destruct (returns_close_door plc mc 30 w3) as (closed & w4 & Hclose).
  pose proof (frame_count (is_write_outside 0xBB8) (close_door plc mc 30)
                ltac:(unfold close_door; frame_tac) w3) as F4.
  rewrite Hclose in F4 |- *. cbn [snd] in F4.
  exists w4. split; [reflexivity|]. subst w3. cbn [trace count is_write_outside] in F4.
  simpl in F4. congruence.
Qed.

End StorageMore.

(** X8.  As the module stands, with [modbus_client] unbound,
    [execute_storage_process] can never succeed: on every device, for
    every code and from every world it returns [(False, None)].  The only
    register it ever writes on the wire is the door register 0xBB8; the
    landing pad, the package operation, the servo and the code registers
    are never written. *)
Theorem shipped_storage_run_never_succeeds
    (plc : PLC) (ucd : UCD) (mc : ModbusClient) (code : pystr) (w : World) :
  fst (execute_storage_process plc ucd mc None code w) = Val (false, None)
  /\ count (is_write_outside 0xBB8)
       (trace (snd (execute_storage_process plc ucd mc None code w)))
     = count (is_write_outside 0xBB8) (trace w).
Proof.
  destruct (storage_prepare_unbound plc ucd mc code w) as (w' & Hprep & Hcount).
  assert (E : execute_storage_process plc ucd mc None code w
              = (Val (false, None), w')).
  { unfold execute_storage_process, try_except. unfold bind at 1.
    rewrite Hprep. reflexivity. }
  rewrite E. split; [reflexivity|exact Hcount].
Qed.

Section StorageRollback.

Variable plc : PLC.
Variable ucd : UCD.
Variables (mc : ModbusClient) (g : option ModbusClient).

Lemma frame_control_servo (p : event -> bool) action timeout :
  (forall a, p (Called (ControlServo a)) = false) ->
  (forall n v, p (Called (WriteByName n v)) = false) ->
  (forall n, p (Called (ReadByName n)) = false) ->
  (forall n v t, p (Called (WaitValue n v t)) = false) ->
  (forall a r, p (TxRead a r) = false) ->
  (forall a v r, p (TxWrite a v r) = false) ->
  (forall ms, p (Slept ms) = false) ->
  frame (fun e => p e = false) (control_servo plc g action timeout).
Proof.
  intros H1 H2 H3 H4 H5 H6 H7.
  unfold control_servo, servo_handshake. frame_tac; auto.
Qed.

Lemma frame_confirm_drone_takeoff_close timeout :
  frame (fun e => is_close_door e = false) (confirm_drone_takeoff plc g timeout).
Proof. unfold confirm_drone_takeoff. frame_tac. Qed.

Lemma frame_start_storage_operation (p : event -> bool) :
  (forall n v, p (Called (WriteByName n v)) = false) ->
  (forall a v r, p (TxWrite a v r) = false) ->
  (forall ms, p (Slept ms) = false) ->
  frame (fun e => p e = false) (start_storage_operation plc g).
Proof. intros H1 H2 H3. unfold start_storage_operation. frame_tac; auto. Qed.

Lemma confirm_drone_takeoff_counts_once timeout w :
  count is_takeoff (trace (snd (confirm_drone_takeoff plc g timeout w)))
  = S (count is_takeoff (trace w)).
Proof.
  unfold confirm_drone_takeoff, called. unfold bind at 1. unfold push at 1.
  set (w0 := mkWorld _ _ _).
  match goal with |- context [snd (?m w0)] =>
    assert (F : frame (fun e => is_takeoff e = false) m) by frame_tac;
    rewrite (frame_count _ _ F w0)
  end.
  reflexivity.
Qed.

Lemma frame_close_door_takeoff timeout :
  frame (fun e => is_takeoff e = false) (close_door plc mc timeout).
Proof. unfold close_door. frame_tac. Qed.

Lemma frame_prefix_takeoff :
  frame (fun e => is_takeoff e = false) (check_storage_capacity plc mc)
  /\ frame (fun e => is_takeoff e = false) (open_door plc mc 30)
  /\ frame (fun e => is_takeoff e = false) (confirm_drone_landing plc g 60).
Proof.
  split; [unfold check_storage_capacity; frame_tac|].
  split; [unfold open_door; frame_tac|].
  unfold confirm_drone_landing; frame_tac.
Qed.

End StorageRollback.

(** X9.  A failure inside the package-status branch is not rolled back.
    Stated for the module with the name [modbus_client] bound to a
    client [c], that is with the import the file lacks added (as the file
    stands the run ends at the landing step, see X8).  When steps 1 to 6
    succeeded, the package-operation register read 120 or 122 and the
    servo-close handshake then fails, [execute_storage_process] returns
    [(False, None)] in the world that handshake left: between the branch
    read and the return there is no call of [confirm_drone_takeoff] and
    no call of [close_door], so the door stays as it was, open. *)
Theorem failed_servo_close_is_not_rolled_back
    (plc : PLC) (ucd : UCD) (mc : ModbusClient) (c : ModbusClient)
    (pickup_code : pystr) (status : Z) (w w6 w7 w8 : World) :
  storage_prepare plc ucd mc (Some c) pickup_code w = (Val true, w6) ->
  read_package_status plc (Some c) w6 = (Val (Some status), w7) ->
  status = 120 \/ status = 122 ->
  control_servo plc (Some c) "close" 30 w7 = (Val false, w8) ->
  execute_storage_process plc ucd mc (Some c) pickup_code w = (Val (false, None), w8)
  /\ count is_close_door (trace w8) = count is_close_door (trace w7)
  /\ count is_takeoff (trace w8) = count is_takeoff (trace w7).
Proof.
  generalize (Some c). intros g.
  intros Hprep Hread Hstatus Hservo. split; [|split].
  - unfold execute_storage_process, try_except. unfold bind at 1.
    rewrite Hprep. cbn [negb]. unfold bind at 1. rewrite Hread.
    unfold storage_branch.
    rewrite OP_PICKUP_IN_PROGRESS, OP_NO_PICKUP_COMPLETE. cbn [opt_eqb].
    destruct Hstatus as [-> | ->].
    + rewrite Z.eqb_refl. unfold bind at 1. rewrite Hservo. reflexivity.
    + assert ((122 =? 120) = false) as -> by reflexivity. rewrite Z.eqb_refl.
      unfold bind at 1. rewrite Hservo. reflexivity.
  - pose proof (frame_count is_close_door _
                  (frame_control_servo plc g is_close_door "close" 30
                     ltac:(reflexivity) ltac:(reflexivity) ltac:(reflexivity)
                     ltac:(reflexivity) ltac:(reflexivity) ltac:(reflexivity)
                     ltac:(reflexivity)) w7) as H.
    rewrite Hservo in H. exact H.
  - pose proof (frame_count is_takeoff _
                  (frame_control_servo plc g is_takeoff "close" 30
                     ltac:(reflexivity) ltac:(reflexivity) ltac:(reflexivity)
                     ltac:(reflexivity) ltac:(reflexivity) ltac:(reflexivity)
                     ltac:(reflexivity)) w7) as H.
    rewrite Hservo in H. exact H.
Qed.

Lemma failed_servo_close_is_not_rolled_back_witness :
  execute_storage_process (script_plc no_pickup_script) ucd_excerpt client0
    (Some client0) (of_string "123456") world0
  = (Val (false, None),
     snd (control_servo (script_plc no_pickup_script) (Some client0) "close" 30
        (snd (read_package_status (script_plc no_pickup_script) (Some client0)
           (snd (storage_prepare (script_plc no_pickup_script) ucd_excerpt
                   client0 (Some client0) (of_string "123456") world0))))))
  /\ count is_close_door
       (trace (snd (control_servo (script_plc no_pickup_script) (Some client0)
          "close" 30
          (snd (read_package_status (script_plc no_pickup_script) (Some client0)
             (snd (storage_prepare (script_plc no_pickup_script) ucd_excerpt
                     client0 (Some client0) (of_string "123456") world0)))))))
     = count is_close_door
         (trace (snd (read_package_status (script_plc no_pickup_script)
            (Some client0)
            (snd (storage_prepare (script_plc no_pickup_script) ucd_excerpt
                    client0 (Some client0) (of_string "123456") world0)))))
  /\ count is_takeoff
       (trace (snd (control_servo (script_plc no_pickup_script) (Some client0)
          "close" 30
          (snd (read_package_status (script_plc no_pickup_script) (Some client0)
             (snd (storage_prepare (script_plc no_pickup_script) ucd_excerpt
                     client0 (Some client0) (of_string "123456") world0)))))))
     = count is_takeoff
         (trace (snd (read_package_status (script_plc no_pickup_script)
            (Some client0)
            (snd (storage_prepare (script_plc no_pickup_script) ucd_excerpt
                    client0 (Some client0) (of_string "123456") world0))))).
Proof.
  apply (failed_servo_close_is_not_rolled_back (script_plc no_pickup_script)
           ucd_excerpt client0 client0 (of_string "123456") 122 world0
           (snd (storage_prepare (script_plc no_pickup_script) ucd_excerpt
                   client0 (Some client0) (of_string "123456") world0))).
  - vm_compute. reflexivity.
  - vm_compute. reflexivity.
  - right. reflexivity.
  - vm_compute. reflexivity.
Defined.

(** X10.  The rollback of step 4.  Stated for the module with the name
    [modbus_client] bound to a client [c], that is with the import the
    file lacks added (as the file stands the landing is never confirmed,
    see X8).  When the door is open, the landing is confirmed and the
    store command cannot be written, [execute_storage_process] runs the
    takeoff handshake and then [close_door], once each and in that order,
    and returns [(False, None)] whatever the two answer. *)
Theorem start_failure_is_rolled_back
    (plc : PLC) (ucd : UCD) (mc : ModbusClient) (c : ModbusClient)
    (pickup_code : pystr) (w w1 w2 w3 w4 : World) :
  check_storage_capacity plc mc w = (Val (Some true), w1) ->
  open_door plc mc 30 w1 = (Val true, w2) ->
  confirm_drone_landing plc (Some c) 60 w2 = (Val true, w3) ->
  start_storage_operation plc (Some c) w3 = (Val false, w4) ->
  exists took closed w5 w6,
    confirm_drone_takeoff plc (Some c) 60 w4 = (Val took, w5)
    /\ close_door plc mc 30 w5 = (Val closed, w6)
    /\ execute_storage_process plc ucd mc (Some c) pickup_code w
       = (Val (false, None), w6)
    /\ count is_takeoff (trace w6) = S (count is_takeoff (trace w))
    /\ count is_close_door (trace w6) = S (count is_close_door (trace w)).
Proof.
  generalize (Some c). intros g.
  intros Hcap Hopen Hland Hstart.
  destruct (returns_confirm_drone_takeoff plc g 60 w4) as (took & w5 & Htake).
  destruct (returns_close_door plc mc 30 w5) as (closed & w6 & Hclose).
  exists took, closed, w5, w6.
  split; [exact Htake|]. split; [exact Hclose|]. split; [|split].
  - unfold execute_storage_process, try_except, storage_prepare.
    unfold bind at 1. unfold bind at 1. rewrite Hcap. simpl.
    unfold bind at 1. rewrite Hopen. simpl.
    unfold bind at 1. rewrite Hland. simpl.
    unfold bind at 1. rewrite Hstart. simpl.
    unfold bind at 1. rewrite Htake.
    unfold bind at 1. rewrite Hclose. reflexivity.
  - destruct (frame_prefix_takeoff plc mc g) as (F1 & F2 & F3).
    pose proof (frame_count _ _ F1 w) as H1. rewrite Hcap in H1.
    pose proof (frame_count _ _ F2 w1) as H2. rewrite Hopen in H2.
    pose proof (frame_count _ _ F3 w2) as H3. rewrite Hland in H3.
    pose proof (frame_count is_takeoff _
                  (frame_start_storage_operation plc g is_takeoff
                     ltac:(reflexivity) ltac:(reflexivity) ltac:(reflexivity))
                  w3) as H4.
    rewrite Hstart in H4.
    pose proof (confirm_drone_takeoff_counts_once plc g 60 w4) as H5.
    rewrite Htake in H5.
    pose proof (frame_count _ _ (frame_close_door_takeoff plc mc 30) w5) as H6.
    rewrite Hclose in H6. cbn [snd] in *. congruence.
  - pose proof (frame_count _ _ (frame_check_storage_capacity_close plc mc) w) as H1.
    rewrite Hcap in H1.
    pose proof (frame_count _ _ (frame_open_door_close plc mc 30) w1) as H2.
    rewrite Hopen in H2.
    pose proof (frame_count _ _ (frame_confirm_drone_landing_close plc g 60) w2) as H3.
    rewrite Hland in H3.
    pose proof (frame_count is_close_door _
                  (frame_start_storage_operation plc g is_close_door
                     ltac:(reflexivity) ltac:(reflexivity) ltac:(reflexivity))
                  w3) as H4.
    rewrite Hstart in H4.
    pose proof (frame_count _ _ (frame_confirm_drone_takeoff_close plc g 60) w4) as H5.
    rewrite Htake in H5.
    pose proof (close_door_counts_once plc mc 30 w5) as H6.
    rewrite Hclose in H6. cbn [snd] in *. congruence.
Qed.

Lemma start_failure_is_rolled_back_witness :
  exists took closed w5 w6,
    confirm_drone_takeoff (flaky_plc landed_script 6) (Some client0) 60
      (snd (start_storage_operation (flaky_plc landed_script 6) (Some client0)
         (snd (confirm_drone_landing (flaky_plc landed_script 6) (Some client0) 60
            (snd (open_door (flaky_plc landed_script 6) client0 30
               (snd (check_storage_capacity (flaky_plc landed_script 6)
                       client0 world0))))))))
    = (Val took, w5)
    /\ close_door (flaky_plc landed_script 6) client0 30 w5 = (Val closed, w6)
    /\ execute_storage_process (flaky_plc landed_script 6) ucd_excerpt client0
         (Some client0) (of_string "123456") world0
       = (Val (false, None), w6)
    /\ count is_takeoff (trace w6) = S (count is_takeoff (trace world0))
    /\ count is_close_door (trace w6) = S (count is_close_door (trace world0)).
Proof.
  apply (start_failure_is_rolled_back (flaky_plc landed_script 6) ucd_excerpt
           client0 client0 (of_string "123456") world0
           (snd (check_storage_capacity (flaky_plc landed_script 6)
                   client0 world0))
           (snd (open_door (flaky_plc landed_script 6) client0 30
              (snd (check_storage_capacity (flaky_plc landed_script 6)
                      client0 world0))))
           (snd (confirm_drone_landing (flaky_plc landed_script 6) (Some client0) 60
              (snd (open_door (flaky_plc landed_script 6) client0 30
                 (snd (check_storage_capacity (flaky_plc landed_script 6)
                         client0 world0))))))).
  - vm_compute. reflexivity.
  - vm_compute. reflexivity.
  - vm_compute. reflexivity.
  - vm_compute. reflexivity.
Defined.

Lemma position_map_get_some pc p :
  position_map_get pc = Some p -> 1 <= p <= 3 /\ pc = 100 + p.
Proof.
  unfold position_map_get.
  replace (POS "POSITION_1") with 101 by (vm_compute; reflexivity).
  replace (POS "POSITION_2") with 102 by (vm_compute; reflexivity).
  replace (POS "POSITION_3") with 103 by (vm_compute; reflexivity).
  destruct (Z.eqb_spec pc 101); [intros H; inversion H; lia|].
  destruct (Z.eqb_spec pc 102); [intros H; inversion H; lia|].
  destruct (Z.eqb_spec pc 103); [intros H; inversion H; lia|].
  discriminate.
Qed.

(** X11.  As the file stands, with [modbus_client] unbound,
    [get_storage_position] returns [None] on every input and reads
    nothing.  With the name bound to a client [c], that is with the
    import the file lacks added, it only ever reports box 1, 2 or 3: when
    it returns a position [p], then [1 <= p <= 3] and the newest event of
    the trace is a read of the store-position register 0xBBC that replied
    [100 + p].  Every other reply, the codes 104 to 106 of
    [POSITION_CODES] included, gives [None]. *)
Theorem storage_position_is_one_of_three
    (plc : PLC) (c : ModbusClient) (p : Z) (w w' : World) :
  get_storage_position plc None w = (Val None, w)
  /\ (get_storage_position plc (Some c) w = (Val (Some p), w') ->
      1 <= p <= 3
      /\ exists rest, trace w' = TxRead 0xBBC (Reply (100 + p)) :: rest).
Proof.
  split; [reflexivity|].
  unfold get_storage_position, try_except. unfold bind at 1.
  cbn [lookup_modbus_client]. unfold ret at 1. unfold bind at 1.
  destruct (read_register_by_name_spec plc c "DRONE_STORE_POS" w)
    as (r & w1 & Hrun & _ & _ & Hval).
  rewrite Hrun. destruct r as [pc|]; [|unfold ret; intros H; inversion H].
  unfold ret. intros H. inversion H as [[Hp Hw]]. subst w1.
  destruct (position_map_get_some _ _ Hp) as [Hrange ->].
  split; [exact Hrange|].
  destruct (Hval _ eq_refl) as (a & rest & k & Ha & Ht & _).
  assert (a = 0xBBC) as -> by (vm_compute in Ha; congruence).
  eauto.
Qed.

Lemma storage_position_is_one_of_three_witness :
  get_storage_position (script_plc [102]) None world0 = (Val None, world0)
  /\ 1 <= 2 <= 3
  /\ exists rest,
       trace (snd (get_storage_position (script_plc [102]) (Some client0) world0))
       = TxRead 0xBBC (Reply (100 + 2)) :: rest.
Proof.
  destruct (storage_position_is_one_of_three (script_plc [102]) client0 2
              world0
              (snd (get_storage_position (script_plc [102]) (Some client0)
                      world0)))
    as [Hshipped Hbound].
  split; [exact Hshipped|].
  apply Hbound. vm_compute. reflexivity.
Defined.

(* ================================================================== *)
(** * Further properties of the code registers                         *)
(* ================================================================== *)

Lemma int_digits_none ucd s : forall acc,
  Exists (fun c => decimal_value ucd c = None) s -> int_digits ucd acc s = None.
Proof.
  induction s as [|c s IH]; intros acc H; [inversion H|].
  cbn [int_digits]. destruct (decimal_value ucd c) as [d|] eqn:E; [|reflexivity].
  apply IH. inversion H as [? ? Hc|? ? Hs]; subst; [congruence|exact Hs].
Qed.

Lemma py_int_none ucd s w :
  Exists (fun c => decimal_value ucd c = None) s ->
  py_int ucd s w = (Raise ValueError, w).
Proof.
  intros H. unfold py_int. destruct s as [|c s]; [reflexivity|].
  rewrite (int_digits_none ucd (c :: s) 0 H). reflexivity.
Qed.

Lemma py_int_pure ucd s w :
  exists r, py_int ucd s w = (r, w) /\ r <> Spin.
Proof.
  unfold py_int. destruct s as [|c s]; [eexists; split; [reflexivity|discriminate]|].
  destruct (int_digits ucd 0 (c :: s));
    eexists; (split; [reflexivity|discriminate]).
Qed.

(** X12.  Whatever [modbus_client] is bound to, the code-setting step
    returns [False] and leaves the world untouched, so that nothing is
    written, for every string that is not six characters long, or not
    accepted by [str.isdigit], or that holds a character without a decimal
    value (a digit such as a superscript, which [int] refuses). *)
Theorem unusable_code_is_refused_untouched
    (plc : PLC) (ucd : UCD) (g : option ModbusClient) (code : pystr) (w : World) :
  length code <> 6%nat \/ isdigit ucd code = false
  \/ Exists (fun c => decimal_value ucd c = None) code ->
  set_pickup_code plc ucd g code w = (Val false, w)
  /\ set_send_code plc ucd g code w = (Val false, w).
Proof.
  intros H.
  assert (Hgen : forall front rear,
            set_code plc ucd g front rear code w = (Val false, w)).
  { intros front rear.
    destruct H as [H|[H|H]];
      [apply set_code_rejects_malformed; left; exact H
      |apply set_code_rejects_malformed; right; exact H|].
    unfold set_code. destruct (negb _ || negb _); [reflexivity|].
    rewrite <- (take_drop 3 code) in H. apply Exists_app in H.
    unfold try_except. unfold bind at 1.
    destruct H as [H|H].
    - rewrite (py_int_none ucd _ w H). reflexivity.
    - destruct (py_int_pure ucd (take 3 code) w) as (r & -> & Hr).
      destruct r as [front3|e|]; [|reflexivity|congruence].
      unfold bind at 1. rewrite (py_int_none ucd _ w H). reflexivity. }
  split; apply Hgen.
Qed.

Lemma unusable_code_is_refused_untouched_witness :
  set_pickup_code dead_plc ucd_excerpt (Some client0)
    [0xB2; 50; 51; 52; 53; 54] world0 = (Val false, world0)
  /\ set_send_code dead_plc ucd_excerpt (Some client0)
       [0xB2; 50; 51; 52; 53; 54] world0 = (Val false, world0).
Proof.
  apply (unusable_code_is_refused_untouched dead_plc ucd_excerpt (Some client0)
           [0xB2; 50; 51; 52; 53; 54] world0).
  right. right. apply Exists_cons_hd. reflexivity.
Defined.

Lemma py_int_some ucd s n w :
  s <> [] -> int_digits ucd 0 s = Some n -> py_int ucd s w = (Val n, w).
Proof.
  intros Hs H. unfold py_int. destruct s as [|c s]; [congruence|].
  rewrite H. reflexivity.
Qed.

Lemma set_code_bound plc ucd mc front_register rear_register code w :
  ucd_ascii ucd -> length code = 6%nat -> Forall ascii_digit code ->
  exists front rear ok1 w1,
    int_digits ucd 0 (take 3 code) = Some front
    /\ int_digits ucd 0 (drop 3 code) = Some rear
    /\ 0 <= front <= 999 /\ 0 <= rear <= 999
    /\ three_digits front ++ three_digits rear = code
    /\ write_register_by_name plc mc front_register front w = (Val ok1, w1)
    /\ if ok1 : bool
       then exists ok2 w2,
              write_register_by_name plc mc rear_register rear w1 = (Val ok2, w2)
              /\ set_code plc ucd (Some mc) front_register rear_register code w
                 = (Val ok2, w2)
       else set_code plc ucd (Some mc) front_register rear_register code w
            = (Val false, w1).
Proof.
  intros Hu Hlen Hall.
  destruct (split_code_round_trip ucd code Hu Hlen Hall)
    as (front & rear & Hf & Hr & Hfr & Hrr & Hdig & Hround).
  exists front, rear.
  destruct (returns_write_register_by_name plc mc front_register front w)
    as (ok1 & w1 & Hw1).
  exists ok1, w1. split; [exact Hf|]. split; [exact Hr|].
  split; [exact Hfr|]. split; [exact Hrr|].
  split; [exact Hround|]. split; [exact Hw1|].
  assert (Htake : take 3 code <> []).
  { destruct code as [|? [|? [|? ?]]]; simpl in Hlen; try lia. discriminate. }
  assert (Hdrop : drop 3 code <> []).
  { destruct code as [|? [|? [|? [|? ?]]]]; simpl in Hlen; try lia. discriminate. }
  assert (Hset : forall r,
            (if ok1 : bool
             then (ok_rear <- write_register_by_name plc mc rear_register rear ;;
                   if negb ok_rear then ret false else ret true)%py w1
             else (Val false, w1)) = r ->
            set_code plc ucd (Some mc) front_register rear_register code w = r).
  { intros r <-. unfold set_code. rewrite Hlen, Hdig. cbn [Nat.eqb negb orb].
    unfold try_except. unfold bind at 1.
    rewrite (py_int_some ucd _ front w Htake Hf).
    unfold bind at 1. rewrite (py_int_some ucd _ rear w Hdrop Hr).
    cbn [lookup_modbus_client]. unfold bind at 1. unfold ret at 1.
    unfold bind at 1. rewrite Hw1.
    destruct ok1; cbn [negb]; [|reflexivity].
    unfold bind at 1. unfold ret at 1.
    destruct (returns_write_register_by_name plc mc rear_register rear w1)
      as (ok2 & w2 & Hw2).
    unfold bind. rewrite Hw2. destruct ok2; reflexivity. }
  destruct ok1.
  - destruct (returns_write_register_by_name plc mc rear_register rear w1)
      as (ok2 & w2 & Hw2).
    exists ok2, w2. split; [exact Hw2|]. apply Hset.
    unfold bind. rewrite Hw2. destruct ok2; reflexivity.
  - apply Hset. reflexivity.
Qed.

(** X13.  With the name [modbus_client] bound to a client, a code of six
    ASCII digits is split into [front = int(code[:3])] and
    [rear = int(code[3:])], both between 0 and 999, and printing the two
    with three digits each gives the code back.  [set_pickup_code] first
    writes [front] to PICKUP_CODE_FRONT; only if that write is accepted
    does it write [rear] to PICKUP_CODE_REAR, and it returns what the
    second write returned; if the first write fails it returns [False]
    without attempting the second.  [set_send_code] does the same with
    SEND_CODE_FRONT and SEND_CODE_REAR. *)
Theorem bound_code_is_split_and_written
    (plc : PLC) (ucd : UCD) (mc : ModbusClient) (code : pystr) (w : World) :
  ucd_ascii ucd -> length code = 6%nat -> Forall ascii_digit code ->
  exists front rear,
    int_digits ucd 0 (take 3 code) = Some front
    /\ int_digits ucd 0 (drop 3 code) = Some rear
    /\ 0 <= front <= 999 /\ 0 <= rear <= 999
    /\ three_digits front ++ three_digits rear = code
    /\ (exists ok1 w1,
          write_register_by_name plc mc "PICKUP_CODE_FRONT" front w = (Val ok1, w1)
          /\ if ok1 : bool
             then exists ok2 w2,
                    write_register_by_name plc mc "PICKUP_CODE_REAR" rear w1
                    = (Val ok2, w2)
                    /\ set_pickup_code plc ucd (Some mc) code w = (Val ok2, w2)
             else set_pickup_code plc ucd (Some mc) code w = (Val false, w1))
    /\ (exists ok1 w1,
          write_register_by_name plc mc "SEND_CODE_FRONT" front w = (Val ok1, w1)
          /\ if ok1 : bool
             then exists ok2 w2,
                    write_register_by_name plc mc "SEND_CODE_REAR" rear w1
                    = (Val ok2, w2)
                    /\ set_send_code plc ucd (Some mc) code w = (Val ok2, w2)
             else set_send_code plc ucd (Some mc) code w = (Val false, w1)).
Proof.
  intros Hu Hlen Hall.
  destruct (set_code_bound plc ucd mc "PICKUP_CODE_FRONT" "PICKUP_CODE_REAR"
              code w Hu Hlen Hall)
    as (front & rear & ok1 & w1 & Hfi & Hri & Hf & Hr & Hround & Hw1 & Hp).
  destruct (set_code_bound plc ucd mc "SEND_CODE_FRONT" "SEND_CODE_REAR"
              code w Hu Hlen Hall)
    as (front' & rear' & ok1' & w1' & Hfi' & Hri' & _ & _ & _ & Hw1' & Hs).
  assert (front' = front) as -> by congruence.
  assert (rear' = rear) as -> by congruence.
  exists front, rear. split; [exact Hfi|]. split; [exact Hri|].
  split; [exact Hf|]. split; [exact Hr|]. split; [exact Hround|]. split.
  - exists ok1, w1. split; [exact Hw1|exact Hp].
  - exists ok1', w1'. split; [exact Hw1'|exact Hs].
Qed.

Lemma ucd_excerpt_ascii : ucd_ascii ucd_excerpt.
Proof.
  intros c Hc. unfold ucd_excerpt, decimal_value.
  destruct (Z.leb_spec 48 c); [|lia]. destruct (Z.leb_spec c 57); [|lia].
  reflexivity.
Qed.

Lemma bound_code_is_split_and_written_witness :
  exists front rear,
    int_digits ucd_excerpt 0 (take 3 (of_string "007456")) = Some front
    /\ int_digits ucd_excerpt 0 (drop 3 (of_string "007456")) = Some rear
    /\ 0 <= front <= 999 /\ 0 <= rear <= 999
    /\ three_digits front ++ three_digits rear = of_string "007456"
    /\ (exists ok1 w1,
          write_register_by_name (script_plc []) client0 "PICKUP_CODE_FRONT"
            front world0 = (Val ok1, w1)
          /\ if ok1 : bool
             then exists ok2 w2,
                    write_register_by_name (script_plc []) client0
                      "PICKUP_CODE_REAR" rear w1 = (Val ok2, w2)
                    /\ set_pickup_code (script_plc []) ucd_excerpt (Some client0)
                         (of_string "007456") world0 = (Val ok2, w2)
             else set_pickup_code (script_plc []) ucd_excerpt (Some client0)
                    (of_string "007456") world0 = (Val false, w1))
    /\ (exists ok1 w1,
          write_register_by_name (script_plc []) client0 "SEND_CODE_FRONT"
            front world0 = (Val ok1, w1)
          /\ if ok1 : bool
             then exists ok2 w2,
                    write_register_by_name (script_plc []) client0
                      "SEND_CODE_REAR" rear w1 = (Val ok2, w2)
                    /\ set_send_code (script_plc []) ucd_excerpt (Some client0)
                         (of_string "007456") world0 = (Val ok2, w2)
             else set_send_code (script_plc []) ucd_excerpt (Some client0)
                    (of_string "007456") world0 = (Val false, w1)).
Proof.
  apply (bound_code_is_split_and_written (script_plc []) ucd_excerpt client0
           (of_string "007456") world0).
  - exact ucd_excerpt_ascii.
  - reflexivity.
  - repeat constructor; unfold ascii_digit; simpl; lia.
Defined.

(* ================================================================== *)
(** * Further properties of the connection bookkeeping                 *)
(* ================================================================== *)

Module ManagerFacts.
Import Connection Manager.

Lemma get_client_all_counts calls : forall c,
  connection_count (get_client_all calls c)
  = (connection_count c + successes calls)%nat
  /\ error_count (get_client_all calls c)
     = failure_streak (error_count c) calls.
Proof.
  unfold get_client_all.
  induction calls as [|[t a] calls IH]; intros c.
  - split; [cbn; lia|reflexivity].
  - destruct (IH (fst (get_client t a c))) as [H1 H2]. split.
    + etransitivity; [exact H1|]. destruct a; cbn; lia.
    + etransitivity; [exact H2|]. destruct a; reflexivity.
Qed.

Lemma failure_streak_repeat t k n :
  failure_streak n (repeat (t, Refused) k) = (n + k)%nat.
Proof.
  revert n. induction k as [|k IH]; intros n; cbn; [lia|].
  rewrite IH. lia.
Qed.

Lemma successes_repeat_refused t k : successes (repeat (t, Refused) k) = 0%nat.
Proof. induction k as [|k IH]; cbn; [reflexivity|exact IH]. Qed.

End ManagerFacts.

(** X14.  Over any sequence of [get_client] calls, [connection_count]
    grows by the number of successful connects, and [error_count] ends as
    the length of the run of failures that ends the sequence (continuing
    the run the connection came with when no call succeeded): errors made
    before the last success are forgotten. *)
Theorem counters_follow_the_calls
    (calls : list (Z * Connection.attempt)) (c : Connection.MachineConnection) :
  Connection.connection_count (Manager.get_client_all calls c)
  = (Connection.connection_count c + Manager.successes calls)%nat
  /\ Connection.error_count (Manager.get_client_all calls c)
     = Manager.failure_streak (Connection.error_count c) calls.
Proof. apply ManagerFacts.get_client_all_counts. Qed.

(** X15.  How many refused connects a connection tolerates.  A
    connection that never connected is healthy through four refusals in a
    row and unhealthy from the fifth.  After a successful connect that
    brings the successes on record to [n], it is healthy through [n - 1]
    refusals in a row and unhealthy from the [n]-th. *)
Theorem refusals_tolerated
    (t : Z) (k : nat) (c : Connection.MachineConnection) :
  Connection.is_healthy
    (Manager.get_client_all (repeat (t, Connection.Refused) k) (Connection.init t))
  = (k <? 5)%nat
  /\ Connection.is_healthy
       (Manager.get_client_all
          ((t, Connection.Connected) :: repeat (t, Connection.Refused) k) c)
     = (k <? S (Connection.connection_count c))%nat.
Proof.
  split.
  - destruct (ManagerFacts.get_client_all_counts
                (repeat (t, Connection.Refused) k) (Connection.init t)) as [H1 H2].
    unfold Connection.is_healthy. rewrite H1, H2.
    rewrite ManagerFacts.successes_repeat_refused,
            ManagerFacts.failure_streak_repeat.
    reflexivity.
  - destruct (ManagerFacts.get_client_all_counts
                ((t, Connection.Connected) :: repeat (t, Connection.Refused) k) c)
      as [H1 H2].
    cbn [Manager.successes Manager.failure_streak Manager.is_success snd] in H1, H2.
    rewrite ManagerFacts.successes_repeat_refused in H1.
    rewrite ManagerFacts.failure_streak_repeat in H2.
    set (c' := Manager.get_client_all _ c) in *.
    assert (Hpos : (0 < Connection.connection_count c')%nat) by lia.
    destruct (Nat.ltb_spec k (S (Connection.connection_count c))) as [Hlt|Hge].
    + unfold Connection.is_healthy.
      destruct (Nat.ltb_spec 0 (Connection.connection_count c')); [|lia].
      apply ConnectionFacts.Qltb_lt.
      apply ConnectionFacts.error_rate_below_half; lia.
    + unfold Connection.is_healthy.
      destruct (Nat.ltb_spec 0 (Connection.connection_count c')); [|lia].
      destruct (Connection.Qltb (Connection.error_rate c') (1 # 2)) eqn:E;
        [|reflexivity].
      apply ConnectionFacts.Qltb_lt in E.
      apply ConnectionFacts.error_rate_below_half in E; lia.
Qed.

(** X16.  The idle sweep never drops a cabinet and never touches the
    bookkeeping.  [_cleanup_idle_connections] leaves the set of cabinet
    names as it was, and for every cabinet the counters, the last error
    and the time of last use; the only thing it changes in a connection is
    that the client is dropped when the sweep is due (300 s since the last
    one) and the connection has been idle for more than 600 s.  A sweep
    that is not due changes nothing at all. *)
Theorem sweep_keeps_cabinets_and_counters
    (current_time : Z) (m : Manager.MachineManager) :
  dom (Manager.connections (Manager.cleanup_idle_connections current_time m))
  = dom (Manager.connections m)
  /\ (forall name,
        Manager.connections (Manager.cleanup_idle_connections current_time m)
          !! name
        = (fun c =>
             Connection.mkConnection
               (Connection.has_client c
                && negb (negb (current_time - Manager.last_cleanup m
                               <? Manager.cleanup_interval)
                         && (Manager.idle_threshold
                             <? current_time - Connection.last_used c)))
               (Connection.last_used c) (Connection.connection_count c)
               (Connection.error_count c) (Connection.last_error c))
          <$> (Manager.connections m !! name))
  /\ (current_time - Manager.last_cleanup m < Manager.cleanup_interval ->
      Manager.cleanup_idle_connections current_time m = m).
Proof.
  unfold Manager.cleanup_idle_connections.
  destruct (Z.ltb_spec (current_time - Manager.last_cleanup m)
              Manager.cleanup_interval) as [Hlt|Hge].
  - split; [reflexivity|]. split; [|reflexivity].
    intros name. destruct (Manager.connections m !! name) as [c|]; [|reflexivity].
    cbn. f_equal. destruct c; cbn. rewrite andb_true_r. reflexivity.
  - split; [cbn; apply dom_fmap_L|]. split; [|lia].
    intros name. cbn. rewrite lookup_fmap.
    destruct (Manager.connections m !! name) as [c|]; [|reflexivity].
    cbn. f_equal. unfold Manager.sweep.
    destruct (Manager.idle_threshold <? current_time - Connection.last_used c);
      destruct c; unfold Manager.disconnect; cbn.
    + rewrite andb_false_r. reflexivity.
    + rewrite andb_true_r. reflexivity.
Qed.

Lemma sweep_keeps_cabinets_and_counters_witness :
  Manager.cleanup_idle_connections 1000
    (Manager.mkManager
       (<["A" := Connection.mkConnection true 0 3 1 None]> ∅) 900)
  = Manager.mkManager
      (<["A" := Connection.mkConnection true 0 3 1 None]> ∅) 900.
Proof.
  apply (sweep_keeps_cabinets_and_counters 1000
           (Manager.mkManager
              (<["A" := Connection.mkConnection true 0 3 1 None]> ∅) 900)).
  vm_compute. reflexivity.
Defined.

(** X17.  [get_machine_client] for one cabinet leaves every other
    cabinet alone: the entry of any other name, present or absent, is
    what the idle sweep left, whether or not a client is obtained and
    whether or not an entry is created. *)
Theorem other_cabinets_are_untouched
    (available : string -> bool) (current_time : Z) (a : Connection.attempt)
    (machine_name other : string) (m : Manager.MachineManager) :
  other <> machine_name ->
  Manager.connections
    (fst (Manager.get_machine_client available current_time a machine_name m))
    !! other
  = Manager.connections (Manager.cleanup_idle_connections current_time m)
      !! other.
Proof.
  intros Hne. unfold Manager.get_machine_client.
  set (m1 := Manager.cleanup_idle_connections current_time m).
  destruct (Manager.connections m1 !! machine_name) as [c|] eqn:E.
  - rewrite E. destruct (Connection.get_client current_time a c) as [c' client].
    cbn. rewrite lookup_insert_ne by congruence. reflexivity.
  - destruct (available machine_name); [|reflexivity].
    rewrite lookup_insert_eq.
    destruct (Connection.get_client current_time a (Connection.init current_time))
      as [c' client].
    cbn. rewrite !lookup_insert_ne by congruence. reflexivity.
Qed.

Lemma other_cabinets_are_untouched_witness :
  Manager.connections
    (fst (Manager.get_machine_client (fun _ => true) 5 Connection.Connected "B"
            (Manager.mkManager
               (<["A" := Connection.mkConnection true 0 3 1 None]> ∅) 0)))
    !! "A"
  = Manager.connections
      (Manager.cleanup_idle_connections 5
         (Manager.mkManager
            (<["A" := Connection.mkConnection true 0 3 1 None]> ∅) 0))
      !! "A".
Proof.
  apply (other_cabinets_are_untouched (fun _ => true) 5 Connection.Connected
           "B" "A"
           (Manager.mkManager
              (<["A" := Connection.mkConnection true 0 3 1 None]> ∅) 0)).
  discriminate.
Defined.

(** X18.  The configuration is consulted only when an entry is created.
    For a cabinet that already has an entry, [get_machine_client] gives
    the same manager and the same answer whatever
    [is_machine_available] says: a cabinet that was disabled in the
    configuration after its connection was created is still connected to,
    and its counters still move. *)
Theorem availability_is_checked_only_at_creation
    (available available' : string -> bool) (current_time : Z)
    (a : Connection.attempt) (machine_name : string)
    (m : Manager.MachineManager) (c : Connection.MachineConnection) :
  Manager.connections (Manager.cleanup_idle_connections current_time m)
    !! machine_name = Some c ->
  Manager.get_machine_client available current_time a machine_name m
  = Manager.get_machine_client available' current_time a machine_name m
  /\ Manager.get_machine_client available current_time a machine_name m
     = (Manager.mkManager
          (<[machine_name := fst (Connection.get_client current_time a c)]>
             (Manager.connections
                (Manager.cleanup_idle_connections current_time m)))
          (Manager.last_cleanup
             (Manager.cleanup_idle_connections current_time m)),
        snd (Connection.get_client current_time a c)).
Proof.
  intros Hsome. unfold Manager.get_machine_client.
  rewrite Hsome. rewrite Hsome.
  destruct (Connection.get_client current_time a c) as [c' client].
  split; reflexivity.
Qed.

Lemma availability_is_checked_only_at_creation_witness :
  Manager.get_machine_client (fun _ => false) 5 Connection.Connected "A"
    (Manager.mkManager (<["A" := Connection.mkConnection true 0 3 1 None]> ∅) 0)
  = Manager.get_machine_client (fun _ => true) 5 Connection.Connected "A"
      (Manager.mkManager (<["A" := Connection.mkConnection true 0 3 1 None]> ∅) 0)
  /\ Manager.get_machine_client (fun _ => false) 5 Connection.Connected "A"
       (Manager.mkManager (<["A" := Connection.mkConnection true 0 3 1 None]> ∅) 0)
     = (Manager.mkManager
          (<["A" := fst (Connection.get_client 5 Connection.Connected
                           (Connection.mkConnection true 0 3 1 None))]>
             (Manager.connections
                (Manager.cleanup_idle_connections 5
                   (Manager.mkManager
                      (<["A" := Connection.mkConnection true 0 3 1 None]> ∅) 0))))
          (Manager.last_cleanup
             (Manager.cleanup_idle_connections 5
                (Manager.mkManager
                   (<["A" := Connection.mkConnection true 0 3 1 None]> ∅) 0))),
        snd (Connection.get_client 5 Connection.Connected
               (Connection.mkConnection true 0 3 1 None))).
Proof.
  apply (availability_is_checked_only_at_creation (fun _ => false) (fun _ => true)
           5 Connection.Connected "A"
           (Manager.mkManager
              (<["A" := Connection.mkConnection true 0 3 1 None]> ∅) 0)
           (Connection.mkConnection true 0 3 1 None)).
  vm_compute. reflexivity.
Defined.

(* ================================================================== *)
(** * Further properties of the locks                                  *)
(* ================================================================== *)

Module InterleavingMore.
Import Interleaving.

(** Whoever holds the manager's lock is one of the threads. *)
Definition holder_exists (s : state) : Prop :=
  forall tid, manager_lock s = Some tid -> exists t, threads s !! tid = Some t.

Lemma holder_exists_spawn jobs : holder_exists (spawn jobs).
Proof. intros tid H. discriminate. Qed.

Lemma lookup_commit_keeps tid t a m c s tid' :
  threads s !! tid = Some t ->
  (exists t', threads s !! tid' = Some t') ->
  exists t', threads (commit tid t a m c s) !! tid' = Some t'.
Proof.
  intros Ht [t' H']. unfold commit. cbn.
  destruct (decide (tid' = tid)) as [->|Hne].
  - exists (advance t). apply list_lookup_insert_eq. eapply lookup_lt_Some; eauto.
  - exists t'. rewrite list_lookup_insert_ne by congruence. exact H'.
Qed.

Lemma holder_exists_step tid s : holder_exists s -> holder_exists (step tid s).
Proof.
  intros Hinv. unfold step.
  destruct (threads s !! tid) as [t|] eqn:Ht; [|exact Hinv].
  destruct (next t) as [[[|m]|[|m]|m|m n]|]; try exact Hinv.
  - destruct (manager_lock s) eqn:Hl; [exact Hinv|].
    intros tid' H. cbn in H. inversion H; subst tid'.
    apply lookup_commit_keeps; eauto.
  - destruct (client_locks s !! m); [exact Hinv|].
    intros tid' H. cbn in H. apply lookup_commit_keeps; eauto.
  - intros tid' H. cbn in H. discriminate.
  - intros tid' H. cbn in H. apply lookup_commit_keeps; eauto.
  - intros tid' H. cbn in H. apply lookup_commit_keeps; eauto.
  - intros tid' H. cbn in H. apply lookup_commit_keeps; eauto.
Qed.

Lemma holder_exists_run schedule : forall s,
  holder_exists s -> holder_exists (run schedule s).
Proof.
  unfold run. induction schedule as [|tid schedule IH]; intros s H; cbn.
  - exact H.
  - apply IH. apply holder_exists_step. exact H.
Qed.

End InterleavingMore.

(** X19.  The manager's lock does not leak.  Under every schedule of any
    operations, whenever no thread is inside
    [with self._connection_lock], the lock is free: a thread that has
    obtained its client, or has finished, never keeps a later caller of
    [get_machine_client] waiting. *)
Theorem manager_lock_is_free_when_unused
    (jobs : list (string * nat)) (schedule : list nat) :
  (forall tid t,
     Interleaving.threads (Interleaving.run schedule (Interleaving.spawn jobs))
       !! tid = Some t ->
     Interleaving.acquiring t = false) ->
  Interleaving.manager_lock
    (Interleaving.run schedule (Interleaving.spawn jobs)) = None.
Proof.
  intros Hidle.
  destruct (Interleaving.manager_lock
              (Interleaving.run schedule (Interleaving.spawn jobs)))
    as [tid|] eqn:Hlock; [|reflexivity].
  destruct (InterleavingMore.holder_exists_run schedule _
              (InterleavingMore.holder_exists_spawn jobs) tid Hlock) as [t Ht].
  pose proof (InterleavingFacts.lock_invariant_run schedule _
                (InterleavingFacts.lock_invariant_spawn jobs) tid t Ht) as Hinv.
  rewrite (Hidle tid t Ht) in Hinv. apply Hinv in Hlock. discriminate.
Qed.

Lemma manager_lock_is_free_when_unused_witness :
  Interleaving.manager_lock
    (Interleaving.run [0; 0; 0; 0; 0; 0]%nat
       (Interleaving.spawn [("A", 2%nat); ("B", 1%nat)])) = None.
Proof.
  apply (manager_lock_is_free_when_unused [("A", 2%nat); ("B", 1%nat)]
           [0; 0; 0; 0; 0; 0]%nat).
  intros tid t H.
  destruct tid as [|[|tid]]; vm_compute in H; inversion H; reflexivity.
Defined.

(* ================================================================== *)
(** * What a successful storage run has seen                           *)
(* ================================================================== *)

Lemma frame_py_int Q ucd s : frame Q (py_int ucd s).
Proof.
  unfold py_int. destruct s; [apply frame_raise|].
  destruct (int_digits ucd 0 _); [apply frame_ret|apply frame_raise].
Qed.

(** Framing with no condition on the events. *)
Ltac frame_any := repeat first [apply frame_py_int | frame_step]; auto.

Section StorageSuccess.

Variable plc : PLC.
Variable ucd : UCD.
Variables (mc : ModbusClient) (g : option ModbusClient).

Lemma frame_confirm_drone_takeoff_any timeout :
  frame (fun _ => True) (confirm_drone_takeoff plc g timeout).
Proof. unfold confirm_drone_takeoff. frame_any. Qed.

Lemma frame_close_door_any timeout :
  frame (fun _ => True) (close_door plc mc timeout).
Proof. unfold close_door. frame_any. Qed.

Lemma frame_get_storage_position_any :
  frame (fun _ => True) (get_storage_position plc g).
Proof. unfold get_storage_position. frame_any. Qed.

Lemma frame_control_servo_any action timeout :
  frame (fun _ => True) (control_servo plc g action timeout).
Proof. unfold control_servo, servo_handshake. frame_any. Qed.

Lemma frame_read_package_status_any :
  frame (fun _ => True) (read_package_status plc g).
Proof. unfold read_package_status. frame_any. Qed.

Lemma frame_storage_prepare_any code :
  frame (fun _ => True) (storage_prepare plc ucd mc g code).
Proof.
  unfold storage_prepare, check_storage_capacity, open_door, close_door,
    confirm_drone_landing, confirm_drone_takeoff, start_storage_operation,
    set_pickup_code, set_code, control_servo, servo_handshake.
  frame_any.
Qed.

(** A confirmed takeoff rests on a read of the landing-pad register, made
    by the call itself, that replied 21. *)
Lemma confirm_drone_takeoff_true timeout w w1 :
  confirm_drone_takeoff plc g timeout w = (Val true, w1) ->
  (count (is_read_reply 0xBB9 21) (trace w)
   < count (is_read_reply 0xBB9 21) (trace w1))%nat.
Proof.
  assert (Ha : REGISTER_MAP !! "LANDING_PAD_STATUS" = Some 0xBB9)
    by (vm_compute; reflexivity).
  replace 21 with (OP "DRONE_ABSENT_CONFIRM") by (vm_compute; reflexivity).
  unfold confirm_drone_takeoff, called. unfold bind at 1. unfold push at 1.
  unfold try_except. unfold bind at 1.
  destruct g as [c|]; cbn [lookup_modbus_client];
    [|unfold raise, ret; intros H; inversion H].
  unfold ret at 1. unfold bind at 1.
  match goal with |- context [write_register_by_name plc c ?n ?v ?w0] =>
    destruct (returns_write_register_by_name plc c n v w0) as (ok & w2 & Hw);
    pose proof (seen_write_register_by_name plc c
                  (is_read_reply 0xBB9 (OP "DRONE_ABSENT_CONFIRM")) n v w0) as Hm
  end.
  rewrite Hw in Hm |- *. simpl in Hm.
  destruct ok; cbn [negb]; [|unfold ret; intros H; inversion H].
  unfold bind at 1. unfold ret at 1. unfold bind at 1.
  destruct (returns_wait_for_register_value plc c "LANDING_PAD_STATUS"
              (OP "DRONE_ABSENT_CONFIRM") timeout w2) as (fin & w3 & Hwait).
  rewrite Hwait. destruct fin; [|unfold ret; intros H; inversion H].
  unfold ret. intros H. inversion H; subst w1.
  pose proof (wait_for_register_value_seen plc c _ _ _ _ _ _ Ha Hwait) as Hs.
  lia.
Qed.

Lemma storage_finish_true p w w' :
  storage_finish plc mc g w = (Val (true, p), w') ->
  (count (is_read_reply 0xBB9 21) (trace w)
   < count (is_read_reply 0xBB9 21) (trace w'))%nat
  /\ (count (is_read_reply 0xBB8 21) (trace w)
      < count (is_read_reply 0xBB8 21) (trace w'))%nat.
Proof.
  unfold storage_finish. unfold bind at 1.
  destruct (returns_confirm_drone_takeoff plc g 60 w) as (took & w1 & Ht).
  rewrite Ht. destruct took; cbn [negb]; [|unfold ret; intros H; inversion H].
  unfold bind at 1.
  destruct (returns_close_door plc mc 30 w1) as (closed & w2 & Hc).
  rewrite Hc. destruct closed; cbn [negb]; [|unfold ret; intros H; inversion H].
  unfold bind at 1.
  destruct (returns_get_storage_position plc g w2) as (pos & w3 & Hp).
  rewrite Hp. unfold ret. intros H. inversion H; subst.
  pose proof (confirm_drone_takeoff_true _ _ _ Ht) as S1.
  pose proof (count_mono _ (is_read_reply 0xBB8 21) _ w
                (frame_confirm_drone_takeoff_any 60)) as M1.
  assert (S2 : (count (is_read_reply 0xBB8 21) (trace w1)
                < count (is_read_reply 0xBB8 21) (trace w2))%nat).
  { revert Hc. unfold close_door.
    replace 21 with (OP "DOOR_CLOSE_COMPLETE") by (vm_compute; reflexivity).
    intros Hc. apply (door_operation_true plc mc _ _ _ _ _ _ Hc). }
  pose proof (count_mono _ (is_read_reply 0xBB9 21) _ w1
                (frame_close_door_any 30)) as M2.
  pose proof (count_mono _ (is_read_reply 0xBB9 21) _ w2
                frame_get_storage_position_any) as M3.
  pose proof (count_mono _ (is_read_reply 0xBB8 21) _ w2
                frame_get_storage_position_any) as M3'.
  rewrite Ht in M1. rewrite Hc in M2. rewrite Hp in M3, M3'.
  cbn [snd] in *. split; lia.
Qed.

Lemma storage_branch_true status p w w' :
  storage_branch plc mc g status w = (Val (true, p), w') ->
  exists w0,
    storage_finish plc mc g w0 = (Val (true, p), w')
    /\ forall q, (count q (trace w) <= count q (trace w0))%nat.
Proof.
  unfold storage_branch.
  destruct (opt_eqb status (OP "PICKUP_IN_PROGRESS")).
  - unfold bind at 1.
    pose proof (fun q => count_mono _ q _ w
                  (frame_control_servo_any "close" 30)) as M1.
    destruct (control_servo plc g "close" 30 w) as [[closed|e|] w1];
      [|intros H; inversion H|intros H; inversion H].
    destruct closed; cbn [negb]; [|unfold ret; intros H; inversion H].
    unfold bind at 1.
    destruct g as [c|]; cbn [lookup_modbus_client];
      [|unfold raise; intros H; inversion H].
    unfold ret at 1. unfold bind at 1.
    pose proof (fun q => seen_wait_for_register_value plc c q "DRONE_PACKAGE_OP"
                  (OP "PICKUP_COMPLETE") 60 w1) as M2.
    destruct (wait_for_register_value plc c "DRONE_PACKAGE_OP"
                (OP "PICKUP_COMPLETE") 60 w1) as [[fin|e|] w3];
      [|intros H; inversion H|intros H; inversion H].
    destruct fin; cbn [negb]; [|unfold ret; intros H; inversion H].
    intros H. exists w3. split; [exact H|].
    intros q. specialize (M1 q). specialize (M2 q). cbn [snd] in *. lia.
  - destruct (opt_eqb status (OP "NO_PICKUP_COMPLETE")).
    + unfold bind at 1.
      pose proof (fun q => count_mono _ q _ w
                    (frame_control_servo_any "close" 30)) as M1.
      destruct (control_servo plc g "close" 30 w) as [[closed|e|] w1];
        [|intros H; inversion H|intros H; inversion H].
      destruct closed; cbn [negb]; [|unfold ret; intros H; inversion H].
      intros H. exists w1. split; [exact H|].
      intros q. specialize (M1 q). cbn [snd] in *. lia.
    + intros H. exists w. split; [exact H|]. intros q. lia.
Qed.

(** What [(True, position)] from [execute_storage_process] rests on. *)
Lemma execute_storage_process_true code position w w' :
  execute_storage_process plc ucd mc g code w = (Val (true, position), w') ->
  (count (is_read_reply 0xBB9 21) (trace w)
   < count (is_read_reply 0xBB9 21) (trace w'))%nat
  /\ (count (is_read_reply 0xBB8 21) (trace w)
      < count (is_read_reply 0xBB8 21) (trace w'))%nat.
Proof.
  unfold execute_storage_process, try_except. unfold bind at 1.
  pose proof (fun q => count_mono _ q _ w (frame_storage_prepare_any code))
    as M1.
  destruct (storage_prepare plc ucd mc g code w) as [[ready|e|] w1].
  - destruct ready; cbn [negb].
    + unfold bind at 1.
      pose proof (fun q => count_mono _ q _ w1 frame_read_package_status_any)
        as M2.
      destruct (read_package_status plc g w1) as [[status|e|] w2].
      * destruct (storage_branch plc mc g status w2) as [[r|e|] w3] eqn:Hb.
        -- intros H. inversion H; subst r w3.
           destruct (storage_branch_true _ _ _ _ Hb) as (w0 & Hf & M3).
           destruct (storage_finish_true _ _ _ Hf) as [S1 S2].
           pose proof (M1 (is_read_reply 0xBB9 21)) as A1.
           pose proof (M1 (is_read_reply 0xBB8 21)) as A2.
           pose proof (M2 (is_read_reply 0xBB9 21)) as B1.
           pose proof (M2 (is_read_reply 0xBB8 21)) as B2.
           pose proof (M3 (is_read_reply 0xBB9 21)) as C1.
           pose proof (M3 (is_read_reply 0xBB8 21)) as C2.
           cbn [snd] in *. split; lia.
        -- unfold storage_recover. unfold bind.
           destruct (try_except _ _ w3) as [[[]|e'|] w4];
             unfold ret; intros H; inversion H.
        -- intros H. inversion H.
      * unfold storage_recover. unfold bind.
        destruct (try_except _ _ w2) as [[[]|e'|] w4];
          unfold ret; intros H; inversion H.
      * intros H. inversion H.
    + unfold ret. intros H. inversion H.
  - unfold storage_recover. unfold bind.
    destruct (try_except _ _ w1) as [[[]|e'|] w4];
      unfold ret; intros H; inversion H.
  - intros H. inversion H.
Qed.

End StorageSuccess.

(** X20.  Success is reported only on evidence of a safe end state.
    Stated for the module with the name [modbus_client] bound to a
    client [c], that is with the import the file lacks added (as the file
    stands the run never succeeds, see X8).  Whenever
    [execute_storage_process] returns [(True, position)], the run itself
    has made a read of the landing-pad register 0xBB9 that replied 21
    (drone absent confirmed) and a read of the door register 0xBB8 that
    replied 21 (door close complete): the number of such reads in the
    trace has grown between entry and exit. *)
Theorem storage_success_means_door_closed
    (plc : PLC) (ucd : UCD) (mc c : ModbusClient)
    (pickup_code : pystr) (position : option Z) (w w' : World) :
  execute_storage_process plc ucd mc (Some c) pickup_code w
    = (Val (true, position), w') ->
  (count (is_read_reply 0xBB9 21) (trace w)
   < count (is_read_reply 0xBB9 21) (trace w'))%nat
  /\ (count (is_read_reply 0xBB8 21) (trace w)
      < count (is_read_reply 0xBB8 21) (trace w'))%nat.
Proof.
  intros H.
  destruct (execute_storage_process_true plc ucd mc (Some c) pickup_code
              position w w' H) as [Htakeoff Hdoor].
  split; [exact Htakeoff|exact Hdoor].
Qed.

Lemma storage_success_means_door_closed_witness :
  (count (is_read_reply 0xBB9 21) (trace world0)
   < count (is_read_reply 0xBB9 21)
       (trace (snd (execute_storage_process (script_plc unknown_status_script)
                      ucd_excerpt client0 (Some client0) (of_string "123456")
                      world0))))%nat
  /\ (count (is_read_reply 0xBB8 21) (trace world0)
      < count (is_read_reply 0xBB8 21)
          (trace (snd (execute_storage_process
                         (script_plc unknown_status_script) ucd_excerpt client0
                         (Some client0) (of_string "123456") world0))))%nat.
Proof.
  apply (storage_success_means_door_closed (script_plc unknown_status_script)
           ucd_excerpt client0 client0 (of_string "123456") (Some 1)
           world0).
  vm_compute. reflexivity.
Defined.

(* ================================================================== *)
(** * The branch on the package status                                 *)
(* ================================================================== *)

Lemma halts_py_int ucd s : halts (py_int ucd s).
Proof.
  intros w. unfold py_int. destruct s; [discriminate|].
  destruct (int_digits ucd 0 _); discriminate.
Qed.

Lemma returns_set_code plc ucd g front rear code :
  returns (set_code plc ucd g front rear code).
Proof.
  unfold set_code. destruct (negb _ || negb _); [apply returns_ret|].
  apply returns_try; [|intros _; apply returns_ret].
  apply halts_bind; [apply halts_py_int|]. intros front_three.
  apply halts_bind; [apply halts_py_int|]. intros rear_three.
  halt_tac.
Qed.

Lemma set_code_true plc ucd g front rear code w w' :
  set_code plc ucd g front rear code w = (Val true, w') ->
  length code = 6%nat.
Proof.
  intros H. destruct (Nat.eq_dec (length code) 6%nat) as [E|E]; [exact E|].
  rewrite set_code_rejects_malformed in H by (left; exact E). inversion H.
Qed.






(* ================================================================== *)
(** * The send flow                                                    *)
(* ================================================================== *)

(** The send loops come back before their fuel runs out: every iteration
    that does not leave the loop sleeps a second. *)
Lemma send_op_loop_halts plc g code timeout start fuel : forall w,
  (Z.to_nat (1000 * timeout - (now w - start)) < fuel)%nat ->
  fst (send_op_loop plc g code timeout start fuel w) <> Spin.
Proof.
  destruct g as [c|].
  - induction fuel as [|fuel IH]; intros w Hfuel; [lia|].
    simpl. unfold bind at 1. unfold time_time at 1.
    destruct (Z.ltb_spec (now w - start) (1000 * timeout)) as [Hlt|Hge];
      [|discriminate].
    unfold bind at 1. unfold ret at 1.
    destruct (read_register_by_name_spec plc c "USER_SEND_OP" w)
      as (r & w1 & Hrun & Hnow & _).
    unfold bind at 1. rewrite Hrun.
    destruct (opt_eqb r code); [discriminate|].
    unfold bind at 1. unfold sleep at 1. simpl.
    apply IH. simpl. lia.
  - destruct fuel as [|fuel]; intros w Hfuel; [lia|].
    simpl. unfold bind at 1. unfold time_time at 1.
    destruct (now w - start <? 1000 * timeout); discriminate.
Qed.

Lemma halts_await_send_op plc g code timeout :
  halts (await_send_op plc g code timeout).
Proof.
  intros w. unfold await_send_op. unfold bind at 1. unfold time_time at 1.
  apply send_op_loop_halts. unfold wait_fuel. lia.
Qed.

Ltac send_halt := repeat first [apply halts_await_send_op | halt_step].

Section Send.

Variable plc : PLC.
Variable ucd : UCD.
Variables (mc : ModbusClient) (g : option ModbusClient).

Lemma returns_check_send_capacity : returns (check_send_capacity plc mc).
Proof.
  unfold check_send_capacity. apply returns_try; [|intros _; apply returns_ret].
  apply returns_halts.
  apply returns_bind; [apply returns_read_register_with_retry|].
  intros [st|]; [|apply returns_ret].
  destruct (st =? 10); [apply returns_ret|].
  destruct (st =? 11); apply returns_ret.
Qed.

Lemma frame_check_send_capacity_write :
  frame (fun e => is_write e = false) (check_send_capacity plc mc).
Proof. unfold check_send_capacity. frame_tac. Qed.

Lemma returns_get_box_position register :
  returns (get_box_position plc g register).
Proof. unfold get_box_position. halt_tac. Qed.

Lemma returns_get_package_weight : returns (get_package_weight plc g).
Proof. unfold get_package_weight. halt_tac. Qed.

Lemma returns_start_empty_box_pickup timeout :
  returns (start_empty_box_pickup plc g timeout).
Proof.
  unfold start_empty_box_pickup, get_empty_box_position, get_box_position.
  send_halt.
Qed.

Lemma returns_start_send_box_storage timeout :
  returns (start_send_box_storage plc g timeout).
Proof.
  unfold start_send_box_storage, get_send_box_position, get_box_position,
    get_package_weight.
  send_halt.
Qed.

Lemma frame_get_box_position register :
  frame (fun e => (fun _ : event => false) e = false)
        (get_box_position plc g register).
Proof. unfold get_box_position. frame_tac. Qed.

Lemma frame_get_package_weight :
  frame (fun e => (fun _ : event => false) e = false)
        (get_package_weight plc g).
Proof. unfold get_package_weight. frame_tac. Qed.

Lemma send_position_map_get_some pc p :
  send_position_map_get pc = Some p -> 4 <= p <= 6 /\ pc = 100 + p.
Proof.
  unfold send_position_map_get.
  replace (POS "POSITION_4") with 104 by (vm_compute; reflexivity).
  replace (POS "POSITION_5") with 105 by (vm_compute; reflexivity).
  replace (POS "POSITION_6") with 106 by (vm_compute; reflexivity).
  destruct (Z.eqb_spec pc 104); [intros H; inversion H; lia|].
  destruct (Z.eqb_spec pc 105); [intros H; inversion H; lia|].
  destruct (Z.eqb_spec pc 106); [intros H; inversion H; lia|].
  discriminate.
Qed.

(** A box position of the send flow is 4, 5 or 6. *)
Lemma get_box_position_range register p w w' :
  get_box_position plc g register w = (Val (Some p), w') -> 4 <= p <= 6.
Proof.
  unfold get_box_position, try_except. unfold bind at 1.
  destruct g as [c|]; cbn [lookup_modbus_client];
    [|unfold raise, ret; intros H; inversion H].
  unfold ret at 1. unfold bind at 1.
  destruct (returns_read_register_by_name plc c register w) as (r & w1 & Hrun).
  rewrite Hrun. destruct r as [pc|]; [|unfold ret; intros H; inversion H].
  unfold ret. intros H. inversion H as [[Hp Hw]].
  apply (send_position_map_get_some _ _ Hp).
Qed.

Lemma get_package_weight_range k w w' :
  get_package_weight plc g w = (Val (Some (Milli k)), w') -> 0 <= k.
Proof.
  unfold get_package_weight, try_except. unfold bind at 1.
  destruct g as [c|]; cbn [lookup_modbus_client];
    [|unfold raise, ret; intros H; inversion H].
  unfold ret at 1. unfold bind at 1.
  destruct (returns_read_register_by_name plc c "SEND_BOX_WEIGHT" w)
    as (r & w1 & Hrun).
  rewrite Hrun. destruct r as [wt|]; [|unfold ret; intros H; inversion H].
  unfold ret. intros H. inversion H as [[Hk Hw]].
  destruct (Z.ltb_spec 0 wt); inversion Hk; lia.
Qed.

Lemma start_empty_box_pickup_true timeout pos w w' :
  start_empty_box_pickup plc g timeout w = (Val (true, pos), w') ->
  exists p, pos = Some p /\ 4 <= p <= 6.
Proof.
  unfold start_empty_box_pickup, try_except. unfold bind at 1.
  destruct (await_send_op plc g (OP "USER_SEND_EMPTY_BOX") timeout w)
    as [[started|e|] w1];
    [|unfold ret; intros H; inversion H|intros H; inversion H].
  destruct started; cbn [negb]; [|unfold ret; intros H; inversion H].
  unfold bind at 1.
  destruct (get_empty_box_position plc g w1) as [[[p|]|e|] w2] eqn:Hpos;
    [|unfold ret; intros H; inversion H
     |unfold ret; intros H; inversion H|intros H; inversion H].
  unfold bind at 1.
  destruct (lookup_modbus_client g w2) as [[c|e|] w3];
    [|unfold ret; intros H; inversion H|intros H; inversion H].
  unfold bind at 1.
  destruct (wait_for_register_value plc c "USER_SEND_OP"
              (OP "USER_SEND_COMPLETE") timeout w3) as [[complete|e|] w4];
    [|unfold ret; intros H; inversion H|intros H; inversion H].
  destruct complete; unfold ret; intros H; inversion H; subst.
  exists p. split; [reflexivity|].
  eapply get_box_position_range. exact Hpos.
Qed.

Lemma frame_send_op_loop code timeout start fuel :
  frame (fun _ => True) (send_op_loop plc g code timeout start fuel).
Proof. induction fuel as [|fuel IH]; simpl; [apply frame_spin|]. frame_any. Qed.

Lemma frame_await_send_op code timeout :
  frame (fun _ => True) (await_send_op plc g code timeout).
Proof.
  unfold await_send_op. apply frame_bind; [apply frame_time|]. intros t.
  apply frame_send_op_loop.
Qed.

Lemma frame_start_empty_box_pickup timeout :
  frame (fun _ => True) (start_empty_box_pickup plc g timeout).
Proof.
  unfold start_empty_box_pickup, get_empty_box_position, get_box_position.
  repeat first [apply frame_await_send_op | frame_step]; auto.
Qed.

Lemma frame_set_code_any front rear code :
  frame (fun _ => True) (set_code plc ucd g front rear code).
Proof. unfold set_code. frame_any. Qed.

Lemma start_send_box_storage_true timeout sp pw w w' :
  start_send_box_storage plc g timeout w = (Val (true, sp, pw), w') ->
  (forall q, sp = Some q -> 4 <= q <= 6)
  /\ (forall k, pw = Some (Milli k) -> 0 <= k)
  /\ (count (is_read_reply 0xBC8 211) (trace w)
      < count (is_read_reply 0xBC8 211) (trace w'))%nat.
Proof.
  assert (Ha : REGISTER_MAP !! "USER_SEND_OP" = Some 0xBC8)
    by (vm_compute; reflexivity).
  replace 211 with (OP "USER_SEND_COMPLETE") by (vm_compute; reflexivity).
  unfold start_send_box_storage, try_except. unfold bind at 1.
  pose proof (count_mono _ (is_read_reply 0xBC8 (OP "USER_SEND_COMPLETE")) _ w
                (frame_await_send_op (OP "USER_SEND_BOX_OPEN") timeout)) as M1.
  destruct (await_send_op plc g (OP "USER_SEND_BOX_OPEN") timeout w)
    as [[opened|e|] w1];
    [|unfold ret; intros H; inversion H|intros H; inversion H].
  destruct opened; cbn [negb]; [|unfold ret; intros H; inversion H].
  unfold bind at 1.
  pose proof (count_mono _ (is_read_reply 0xBC8 (OP "USER_SEND_COMPLETE")) _ w1
                (frame_await_send_op (OP "USER_SEND_EMPTY_BOX") timeout)) as M2.
  destruct (await_send_op plc g (OP "USER_SEND_EMPTY_BOX") timeout w1)
    as [[confirmed|e|] w2];
    [|unfold ret; intros H; inversion H|intros H; inversion H].
  destruct confirmed; cbn [negb]; [|unfold ret; intros H; inversion H].
  unfold bind at 1.
  destruct (lookup_modbus_client g w2) as [[c|e|] w3] eqn:Hl;
    [|unfold ret; intros H; inversion H|intros H; inversion H].
  assert (w3 = w2) as ->.
  { destruct g; cbn in Hl; unfold ret, raise in Hl; inversion Hl; reflexivity. }
  unfold bind at 1.
  destruct (returns_wait_for_register_value plc c "USER_SEND_OP"
              (OP "USER_SEND_COMPLETE") 60 w2) as (complete & w4 & Hwait).
  rewrite Hwait.
  destruct complete; [|unfold ret; intros H; inversion H].
  pose proof (wait_for_register_value_seen plc c _ _ _ _ _ _ Ha Hwait) as S3.
  unfold bind at 1.
  destruct (returns_get_box_position "SEND_BOX_POS" w4) as (sp' & w5 & Hsp).
  unfold get_send_box_position. rewrite Hsp.
  unfold bind at 1.
  destruct (returns_get_package_weight w5) as (pw' & w6 & Hpw).
  rewrite Hpw. unfold ret. intros H. inversion H; subst.
  pose proof (count_mono _ (is_read_reply 0xBC8 (OP "USER_SEND_COMPLETE")) _ w4
                (frame_get_box_position "SEND_BOX_POS")) as M4.
  pose proof (count_mono _ (is_read_reply 0xBC8 (OP "USER_SEND_COMPLETE")) _ w5
                frame_get_package_weight) as M5.
  rewrite Hsp in M4. rewrite Hpw in M5. cbn [snd] in *.
  split; [|split].
  - intros q ->. eapply get_box_position_range. exact Hsp.
  - intros k ->. eapply get_package_weight_range. exact Hpw.
  - lia.
Qed.

(** Every way [execute_complete_send_process] can end. *)
Lemma execute_complete_send_process_cases send_code w :
  exists ok info w',
    execute_complete_send_process plc ucd mc g send_code w
    = (Val (ok, info), w')
    /\ info_send_code info = send_code
    /\ timestamp info = now w
    /\ (ok = false ->
        storage_position info = None /\ package_weight info = None)
    /\ (ok = true ->
        length send_code = 6%nat
        /\ (exists p, empty_box_position info = Some p /\ 4 <= p <= 6)
        /\ (forall q, storage_position info = Some q -> 4 <= q <= 6)
        /\ (forall k, package_weight info = Some (Milli k) -> 0 <= k)
        /\ (count (is_read_reply 0xBC8 211) (trace w)
            < count (is_read_reply 0xBC8 211) (trace w'))%nat).
Proof.
  unfold execute_complete_send_process. unfold bind at 1. unfold time_time at 1.
  unfold try_except at 1. unfold bind at 1.
  destruct (returns_check_send_capacity w) as (cap & w1 & Hcap).
  pose proof (count_mono _ (is_read_reply 0xBC8 211) _ w
                frame_check_send_capacity_write) as M1.
  rewrite Hcap in M1 |- *.
  destruct (negb (default false cap)).
  { eexists _, _, _. split; [reflexivity|]. cbn.
    repeat split; try reflexivity; discriminate. }
  unfold bind at 1.
  destruct (returns_set_code plc ucd g "SEND_CODE_FRONT" "SEND_CODE_REAR"
              send_code w1) as (code_set & w2 & Hset).
  pose proof (count_mono _ (is_read_reply 0xBC8 211) _ w1
                (frame_set_code_any "SEND_CODE_FRONT" "SEND_CODE_REAR"
                   send_code)) as M2.
  unfold set_send_code. rewrite Hset in M2 |- *.
  destruct code_set; cbn [negb].
  2:{ eexists _, _, _. split; [reflexivity|]. cbn.
      repeat split; try reflexivity; discriminate. }
  unfold bind at 1.
  destruct (returns_start_empty_box_pickup 120 w2) as ([picked pos] & w3 & Hpick).
  pose proof (count_mono _ (is_read_reply 0xBC8 211) _ w2
                (frame_start_empty_box_pickup 120)) as M3.
  rewrite Hpick in M3 |- *. cbn [fst snd].
  destruct picked; cbn [negb].
  2:{ eexists _, _, _. split; [reflexivity|]. cbn.
      repeat split; try reflexivity; discriminate. }
  unfold try_except at 1. unfold bind at 1.
  destruct (returns_start_send_box_storage 300 w3)
    as ([[stored sp] pw] & w4 & Hstore).
  rewrite Hstore. cbn [fst snd].
  destruct stored; cbn [negb].
  2:{ eexists _, _, _. split; [reflexivity|]. cbn.
      repeat split; try reflexivity; discriminate. }
  eexists _, _, _. split; [reflexivity|]. cbn [info_send_code timestamp
    storage_position package_weight empty_box_position now].
  split; [reflexivity|]. split; [reflexivity|]. split; [discriminate|].
  intros _.
  destruct (start_send_box_storage_true _ _ _ _ _ Hstore) as (Hq & Hk & Hin).
  split; [eapply set_code_true; exact Hset|].
  split; [eapply start_empty_box_pickup_true; exact Hpick|].
  split; [exact Hq|]. split; [exact Hk|].
  cbn [snd] in *. lia.
Qed.

End Send.

(** X21.  [execute_complete_send_process] always comes back with a pair
    [(ok, send_info)]: no exception escapes it and none of its polling
    loops runs forever.  The dict keeps the code it was called with and
    the time of the call; when the run failed it carries neither a
    storage position nor a weight. *)
Theorem send_run_always_returns
    (plc : PLC) (ucd : UCD) (mc : ModbusClient) (g : option ModbusClient)
    (send_code : pystr) (w : World) :
  exists ok info w',
    execute_complete_send_process plc ucd mc g send_code w
    = (Val (ok, info), w')
    /\ info_send_code info = send_code
    /\ timestamp info = now w
    /\ (ok = false ->
        storage_position info = None /\ package_weight info = None).
Proof.
  destruct (execute_complete_send_process_cases plc ucd mc g send_code w)
    as (ok & info & w' & H & Hc & Ht & Hf & _).
  exists ok, info, w'. auto.
Qed.

(** X22.  What a successful send run rests on.  Stated for the module
    with the name [modbus_client] bound to a client [c], that is with
    the import the file lacks added (as the file stands the run never
    succeeds, see X23).  When [execute_complete_send_process] returns
    [True], the code had six characters, the dict holds an empty-box
    position that is 4, 5 or 6, a storage position that, when present, is
    4, 5 or 6, and a weight that, when present, is not negative; and the
    run itself has made a read of the send-operation register 0xBC8 that
    replied 211 (complete): the number of such reads in the trace has
    grown between entry and exit. *)
Theorem send_success_has_a_box
    (plc : PLC) (ucd : UCD) (mc c : ModbusClient)
    (send_code : pystr) (info : send_info) (w w' : World) :
  execute_complete_send_process plc ucd mc (Some c) send_code w
    = (Val (true, info), w') ->
  length send_code = 6%nat
  /\ (exists p, empty_box_position info = Some p /\ 4 <= p <= 6)
  /\ (forall q, storage_position info = Some q -> 4 <= q <= 6)
  /\ (forall k, package_weight info = Some (Milli k) -> 0 <= k)
  /\ (count (is_read_reply 0xBC8 211) (trace w)
      < count (is_read_reply 0xBC8 211) (trace w'))%nat.
Proof.
  intros H.
  destruct (execute_complete_send_process_cases plc ucd mc (Some c) send_code w)
    as (ok & info' & w'' & H' & _ & _ & _ & Ht).
  rewrite H in H'. inversion H'; subst. apply Ht. reflexivity.
Qed.

Lemma send_success_has_a_box_witness :
  length (of_string "123456") = 6%nat
  /\ (exists p, empty_box_position
                  (mkSendInfo (of_string "123456") (Some 4) (Some 5)
                     (Some (Milli 1500)) 0) = Some p /\ 4 <= p <= 6)
  /\ (forall q, storage_position
                  (mkSendInfo (of_string "123456") (Some 4) (Some 5)
                     (Some (Milli 1500)) 0) = Some q -> 4 <= q <= 6)
  /\ (forall k, package_weight
                  (mkSendInfo (of_string "123456") (Some 4) (Some 5)
                     (Some (Milli 1500)) 0) = Some (Milli k) -> 0 <= k)
  /\ (count (is_read_reply 0xBC8 211) (trace world0)
      < count (is_read_reply 0xBC8 211)
          (trace (snd (execute_complete_send_process (script_plc send_script)
                         ucd_excerpt client0 (Some client0)
                         (of_string "123456") world0))))%nat.
Proof.
  apply (send_success_has_a_box (script_plc send_script) ucd_excerpt client0
           client0 (of_string "123456")
           (mkSendInfo (of_string "123456") (Some 4) (Some 5)
              (Some (Milli 1500)) 0) world0).
  vm_compute. reflexivity.
Defined.

(** X23.  As the module stands, with [modbus_client] unbound, the send
    flow cannot get past its second step: [execute_complete_send_process]
    returns [False] with an empty dict in the world its capacity check
    left, for every device, code and world, without any write; and
    [cancel_send_process] returns [False] without touching anything. *)
Theorem shipped_send_run_never_succeeds
    (plc : PLC) (ucd : UCD) (mc : ModbusClient) (send_code : pystr) (w : World) :
  execute_complete_send_process plc ucd mc None send_code w
  = (Val (false, mkSendInfo send_code None None None (now w)),
     snd (check_send_capacity plc mc w))
  /\ count is_write (trace (snd (check_send_capacity plc mc w)))
     = count is_write (trace w)
  /\ cancel_send_process plc None w = (Val false, w).
Proof.
  split; [|split].
  - unfold execute_complete_send_process. unfold bind at 1.
    unfold time_time at 1. unfold try_except at 1. unfold bind at 1.
    destruct (returns_check_send_capacity plc mc w) as (cap & w1 & Hcap).
    rewrite Hcap. cbn [snd].
    destruct (negb (default false cap)); [reflexivity|].
    unfold bind at 1. unfold set_send_code.
    rewrite set_code_name_unbound. reflexivity.
  - apply (frame_count is_write).
    apply frame_check_send_capacity_write.
  - reflexivity.
Qed.
